(** * The Transaction model of the personal finance tracker

    A shallow embedding of [backend/models/Transaction.js]: the Mongoose
    schema (fields, setters, validators, indexes), its two pre-save hooks,
    the virtuals, the find and aggregation queries and the instance methods,
    together with the theorems that relate them to the written
    specification.

    Conventions of the embedding.
    - A [Transaction] is a document: its field values are the ones the
      document holds. The same record type serves for the plain object
      handed to the constructor, whose values the constructor casts.
    - Mongoose runs the setters of a path ([trim], [lowercase],
      [uppercase]) on every value assigned to the path or pushed onto the
      array; it validates a document before it runs the pre-save hooks, and
      runs those in the order of their registration.
    - A JavaScript Number holds every integer of magnitude below 2^53
      exactly, and comparison with 0, [Math.abs], negation and addition are
      exact on them; the amount of a document is such an integer, as [Z].
      What [toFixed] prints is defined on every finite Number, as the
      rational it denotes, and the getter that prints an amount is given
      for every such Number.
    - A [Date] is its time value, the milliseconds since the epoch, as [Z];
      the current time and the time zone of the host are arguments. The
      time zone gives the offset of local time at every instant, so that
      it may change with daylight saving. Time values are taken within
      the range of a Date, 100 million days either side of the epoch:
      the clipping of a time value beyond it is left out.
    - Strings are strings of ASCII characters: [toLowerCase],
      [toUpperCase] and [trim] are the JavaScript ones on those.
    - [None] in an optional path is [undefined]: the path has no value. A
      path that holds [null] is not represented, but for [postedDate],
      whose default is [null] and which the code only tests for being
      falsy.
    - Mongoose casts a value of a query filter as it casts a stored one,
      setters included; an aggregation pipeline is sent as it is written.
    - The bookkeeping of the [timestamps] option ([createdAt], [updatedAt])
      and the version key are left out: nothing here reads them.
    - A method returns the receiver as the call leaves it, paired with what
      the call returns; the collection is passed in and handed back. *)

From Stdlib Require Import Ascii String ZArith QArith Qabs Qround Lia.
From stdpp Require Import base option list strings gmap sorting.

Local Open Scope string_scope.
Local Open Scope list_scope.
Local Open Scope Z_scope.

(** ** Strings: the JavaScript string operations the model uses *)

Module Js.

Definition is_upper (c : ascii) : bool :=
  let n := nat_of_ascii c in (Nat.leb 65 n && Nat.leb n 90)%bool.

Definition is_lower (c : ascii) : bool :=
  let n := nat_of_ascii c in (Nat.leb 97 n && Nat.leb n 122)%bool.

(** White space of [String.prototype.trim], on ASCII: TAB, LF, VT, FF, CR
    and SPACE. *)
Definition is_space (c : ascii) : bool :=
  let n := nat_of_ascii c in
  ((Nat.leb 9 n && Nat.leb n 13) || Nat.eqb n 32)%bool.

Definition lower_char (c : ascii) : ascii :=
  if is_upper c then ascii_of_nat (nat_of_ascii c + 32) else c.

Definition upper_char (c : ascii) : ascii :=
  if is_lower c then ascii_of_nat (nat_of_ascii c - 32) else c.

Fixpoint map_string (f : ascii → ascii) (s : string) : string :=
  match s with
  | EmptyString => EmptyString
  | String c r => String (f c) (map_string f r)
  end.

Definition toLowerCase : string → string := map_string lower_char.
Definition toUpperCase : string → string := map_string upper_char.

Fixpoint trimStart (s : string) : string :=
  match s with
  | EmptyString => EmptyString
  | String c r => if is_space c then trimStart r else s
  end.

Fixpoint trimEnd (s : string) : string :=
  match s with
  | EmptyString => EmptyString
  | String c r =>
      match trimEnd r with
      | EmptyString => if is_space c then EmptyString else String c EmptyString
      | r' => String c r'
      end
  end.

Definition trim (s : string) : string := trimEnd (trimStart s).

(** Decimal digits of a natural number, most significant first. *)
Fixpoint digits_fuel (fuel : nat) (n : N) (acc : string) : string :=
  match fuel with
  | O => acc
  | S fuel' =>
      let d := ascii_of_N (48 + n mod 10)%N in
      let q := (n / 10)%N in
      if (q =? 0)%N then String d acc else digits_fuel fuel' q (String d acc)
  end.

Definition N_to_string (n : N) : string :=
  digits_fuel (S (N.to_nat (N.log2 n))) n EmptyString.

(** [Number.prototype.toString] on an integer. *)
Definition Z_to_string (z : Z) : string :=
  if z <? 0 then "-" +:+ N_to_string (Z.abs_N z) else N_to_string (Z.abs_N z).

(** [String.prototype.repeat]. *)
Fixpoint repeat (s : string) (n : nat) : string :=
  match n with
  | O => EmptyString
  | S n' => s +:+ repeat s n'
  end.

(** The first [n] code units of a string, and the others. *)
Fixpoint first_units (n : nat) (s : string) : string :=
  match n, s with
  | S n', String c r => String c (first_units n' r)
  | _, _ => EmptyString
  end.

Fixpoint other_units (n : nat) (s : string) : string :=
  match n, s with
  | S n', String _ r => other_units n' r
  | _, _ => s
  end.

(** A finite Number, as the rational it denotes. *)
Definition Number : Type := Q.

(** The Number for a positive integer: the nearest of the integers with 53
    significant bits, the even one of two nearest. *)
Definition to_double (y : Z) : Z :=
  let bits := Z.log2 y + 1 in
  if bits <=? 53 then y
  else
    let sh := bits - 53 in
    let q := Z.shiftr y sh in
    let r := y - Z.shiftl q sh in
    let half := Z.shiftl 1 (sh - 1) in
    let q' := if (half <? r) || ((r =? half) && Z.odd q) then q + 1 else q in
    Z.shiftl q' sh.

(** [Number::toString] of an integral Number [z] of [nd] decimal digits,
    from 10^21 on: the integers [s], [k] and [n] with [s] of [k] digits,
    [s * 10^(n - k)] a numeral that reads as [z], [k] as small as
    possible and, of two such [s], the one nearer to [z]. *)
Fixpoint shortest_digits (fuel : nat) (k nd z : Z) : Z * Z * Z :=
  match fuel with
  | O => (z / 10 ^ (nd - k), k, nd)
  | S fuel' =>
      let e := nd - k in
      let lo := z / 10 ^ e in
      let hi := lo + 1 in
      let ok_lo := to_double (lo * 10 ^ e) =? z in
      let ok_hi := to_double (hi * 10 ^ e) =? z in
      if ok_lo || ok_hi then
        let s := if ok_lo && ok_hi
                 then (if z - lo * 10 ^ e <=? hi * 10 ^ e - z then lo else hi)
                 else if ok_lo then lo else hi in
        if s =? 10 ^ k then (1, 1, nd + 1) else (s, k, nd)
      else shortest_digits fuel' (k + 1) nd z
  end.

Definition exponent_form (z : Z) : string :=
  let nd := Z.of_nat (String.length (N_to_string (Z.to_N z))) in
  let '(s, k, n) := shortest_digits 17 1 nd z in
  let digits := N_to_string (Z.to_N s) in
  let e := N_to_string (Z.to_N (n - 1)) in
  if k =? 1 then digits +:+ "e+" +:+ e
  else first_units 1 digits +:+ "." +:+ other_units 1 digits +:+ "e+" +:+ e.

(** [Number.prototype.toFixed(2)] on a Number that is not negative. From
    10^21 on the result is that of [Number::toString]. Below, with [n] the
    integer for which [n / 100 - x] is nearest to zero, the larger of two:
    the digits of [n], filled with zeros on the left to three digits, and a
    point before the last two. *)
Definition toFixed2 (x : Number) : string :=
  if Qle_bool (inject_Z (10 ^ 21)) x then exponent_form (Qfloor x)
  else
    let n := Qfloor (Qplus (Qmult x (inject_Z 100)) (Qmake 1 2)) in
    let m := N_to_string (Z.to_N n) in
    let k := String.length m in
    let m := if (k <=? 2)%nat then repeat "0" (3 - k) +:+ m else m in
    let k := String.length m in
    first_units (k - 2) m +:+ "." +:+ other_units (k - 2) m.

(** [String(v)] of a template literal on an optional string: an absent
    value reads ["undefined"]. *)
Definition template (v : option string) : string :=
  match v with Some s => s | None => "undefined" end.

End Js.

(** ** Dates: the calendar of ECMAScript time values *)

Module JsDate.

Definition Date := Z.

Definition msPerDay : Z := 86400000.

Definition Day (t : Date) : Z := t / msPerDay.
Definition TimeWithinDay (t : Date) : Z := t mod msPerDay.

(** Year, month (1..12) and day of month (1..31) of a day number counted
    from 1970-01-01, in the proleptic Gregorian calendar
    ([YearFromTime], [MonthFromTime] + 1, [DateFromTime]). *)
Definition civil_from_days (z : Z) : Z * Z * Z :=
  let z := z + 719468 in
  let era := z / 146097 in
  let doe := z - era * 146097 in
  let yoe := (doe - doe / 1460 + doe / 36524 - doe / 146096) / 365 in
  let y := yoe + era * 400 in
  let doy := doe - (365 * yoe + yoe / 4 - yoe / 100) in
  let mp := (5 * doy + 2) / 153 in
  let d := doy - (153 * mp + 2) / 5 + 1 in
  let m := if mp <? 10 then mp + 3 else mp - 9 in
  (if m <=? 2 then y + 1 else y, m, d).

(** Day number of a date; [m] in 1..12, and [d] may run past the end of
    the month, as in [MakeDay]. *)
Definition days_from_civil (y m d : Z) : Z :=
  let y := if m <=? 2 then y - 1 else y in
  let era := y / 400 in
  let yoe := y - era * 400 in
  let doy := (153 * (if 2 <? m then m - 3 else m + 9) + 2) / 5 + d - 1 in
  let doe := yoe * 365 + yoe / 4 - yoe / 100 + doy in
  era * 146097 + doe - 719468.

Definition year_of (t : Date) : Z := (civil_from_days (Day t)).1.1.
Definition month_of (t : Date) : Z := (civil_from_days (Day t)).1.2.
Definition day_of (t : Date) : Z := (civil_from_days (Day t)).2.

(** [MakeDay(year, month, date)] with a zero-based [month] of any sign:
    the month is carried into the year, the day of month is added on. *)
Definition MakeDay (year month date : Z) : Z :=
  let ym := year + month / 12 in
  let mn := month mod 12 in
  days_from_civil ym (mn + 1) 1 + date - 1.

Definition MakeDate (day time : Z) : Date := day * msPerDay + time.

(** The time zone of the host, [LocalTZA(t, isUTC)]: the offset of local
    time from UTC in milliseconds, at the instant [t] when [isUTC], and
    otherwise at the local time [t] (which daylight saving may make stand
    for two instants, or for none). *)
Definition TimeZone : Type := Z → bool → Z.

Definition LocalTime (tz : TimeZone) (t : Date) : Z := t + tz t true.
Definition UTC (tz : TimeZone) (t : Z) : Date := t - tz t false.

(** A zone that keeps one offset, and the zone of UTC. *)
Definition fixed_zone (tza : Z) : TimeZone := λ _ _, tza.
Definition utc : TimeZone := fixed_zone 0.

(** A zone with summer time, for the examples: one hour east of Greenwich,
    two from 31 March 2024 to 27 October 2024, 01:00 UTC. A local time
    that the change skips or repeats is read with the offset in force
    before the change, as ECMAScript asks. *)
Definition summer_from : Z := 1711846800000.
Definition summer_until : Z := 1729990800000.

Definition central_europe_2024 : TimeZone := λ t isUTC,
  if isUTC
  then if (summer_from <=? t) && (t <? summer_until) then 7200000 else 3600000
  else if (summer_from + 7200000 <=? t) && (t <? summer_until + 7200000)
       then 7200000 else 3600000.

(** [d.getMonth()] and [d.setMonth(m)]. *)
Definition getMonth (tz : TimeZone) (t : Date) : Z := month_of (LocalTime tz t) - 1.

Definition setMonth (tz : TimeZone) (t : Date) (month : Z) : Date :=
  let l := LocalTime tz t in
  UTC tz (MakeDate (MakeDay (year_of l) month (day_of l)) (TimeWithinDay l)).

End JsDate.

Export JsDate.

(** The first day of the month number [n], months counted from January
    of year 0. *)
Definition first_of_month (n : Z) : Z := days_from_civil (n / 12) (n mod 12 + 1) 1.

(** ** The schema: documents and their nested parts (lines 3-182) *)

(** An ObjectId, as a number. *)
Definition ObjectId := N.
Bind Scope N_scope with ObjectId.

Record Category := {
  primary : option string;
  secondary : option string;
  plaidCategoryId : option string
}.

Record Merchant := {
  merchant_name : option string;
  merchant_id : option string;
  merchant_website : option string;
  merchant_logo : option string
}.

Record Attachment := {
  att_filename : option string;
  att_originalName : option string;
  att_mimeType : option string;
  att_size : option Z;
  att_url : option string;
  att_uploadedAt : Date
}.

Record Recurring := {
  isRecurring : bool;
  frequency : option string;
  interval : Z;
  nextDueDate : option Date;
  endDate : option Date;
  originalTransactionId : option ObjectId
}.

Record SplitShare := {
  share_user : option ObjectId;
  share_amount : option Z;
  share_percentage : option Z;
  share_description : option string
}.

Record Split := {
  isSplit : bool;
  split_totalAmount : option Z;
  splits : list SplitShare
}.

Record Location := {
  street : option string;
  city : option string;
  state : option string;
  zipCode : option string;
  country : option string;
  latitude : option Z;
  longitude : option Z
}.

(** The two [Mixed] paths are carried as opaque text. *)
Record Metadata := {
  plaidData : option string;
  customFields : option string;
  importSource : option string;
  importDate : option Date
}.

(** A Transaction document. [isNew] is Mongoose's document flag: true until
    the document has been inserted. *)
Record Transaction := {
  _id : option ObjectId;
  isNew : bool;
  user : option ObjectId;
  account : option ObjectId;
  plaidTransactionId : option string;
  amount : option Z;
  currency : string;
  type : option string;
  category : Category;
  description : option string;
  merchant : Merchant;
  date : option Date;
  postedDate : option Date;
  status : string;
  tags : list string;
  notes : option string;
  attachments : list Attachment;
  recurring : Recurring;
  split : Split;
  location : Location;
  metadata : Metadata;
  isReconciled : bool;
  reconciliationDate : option Date;
  isHidden : bool;
  isArchived : bool
}.

Global Instance Category_eq_dec : EqDecision Category.
Proof. solve_decision. Defined.
Global Instance Merchant_eq_dec : EqDecision Merchant.
Proof. solve_decision. Defined.
Global Instance Attachment_eq_dec : EqDecision Attachment.
Proof. solve_decision. Defined.
Global Instance Recurring_eq_dec : EqDecision Recurring.
Proof. solve_decision. Defined.
Global Instance SplitShare_eq_dec : EqDecision SplitShare.
Proof. solve_decision. Defined.
Global Instance Split_eq_dec : EqDecision Split.
Proof. solve_decision. Defined.
Global Instance Location_eq_dec : EqDecision Location.
Proof. solve_decision. Defined.
Global Instance Metadata_eq_dec : EqDecision Metadata.
Proof. solve_decision. Defined.
Global Instance Transaction_eq_dec : EqDecision Transaction.
Proof. solve_decision. Defined.

(** ** Assignments to the paths of a document *)

(** [doc._id = v] *)
Definition set__id (v : option ObjectId) (t : Transaction) : Transaction :=
  {| _id := v;
     isNew := isNew t;
     user := user t;
     account := account t;
     plaidTransactionId := plaidTransactionId t;
     amount := amount t;
     currency := currency t;
     type := type t;
     category := category t;
     description := description t;
     merchant := merchant t;
     date := date t;
     postedDate := postedDate t;
     status := status t;
     tags := tags t;
     notes := notes t;
     attachments := attachments t;
     recurring := recurring t;
     split := split t;
     location := location t;
     metadata := metadata t;
     isReconciled := isReconciled t;
     reconciliationDate := reconciliationDate t;
     isHidden := isHidden t;
     isArchived := isArchived t |}.

(** [doc.isNew = v] *)
Definition set_isNew (v : bool) (t : Transaction) : Transaction :=
  {| _id := _id t;
     isNew := v;
     user := user t;
     account := account t;
     plaidTransactionId := plaidTransactionId t;
     amount := amount t;
     currency := currency t;
     type := type t;
     category := category t;
     description := description t;
     merchant := merchant t;
     date := date t;
     postedDate := postedDate t;
     status := status t;
     tags := tags t;
     notes := notes t;
     attachments := attachments t;
     recurring := recurring t;
     split := split t;
     location := location t;
     metadata := metadata t;
     isReconciled := isReconciled t;
     reconciliationDate := reconciliationDate t;
     isHidden := isHidden t;
     isArchived := isArchived t |}.

(** [doc.plaidTransactionId = v] *)
Definition set_plaidTransactionId (v : option string) (t : Transaction) : Transaction :=
  {| _id := _id t;
     isNew := isNew t;
     user := user t;
     account := account t;
     plaidTransactionId := v;
     amount := amount t;
     currency := currency t;
     type := type t;
     category := category t;
     description := description t;
     merchant := merchant t;
     date := date t;
     postedDate := postedDate t;
     status := status t;
     tags := tags t;
     notes := notes t;
     attachments := attachments t;
     recurring := recurring t;
     split := split t;
     location := location t;
     metadata := metadata t;
     isReconciled := isReconciled t;
     reconciliationDate := reconciliationDate t;
     isHidden := isHidden t;
     isArchived := isArchived t |}.

(** [doc.amount = v] *)
Definition set_amount (v : option Z) (t : Transaction) : Transaction :=
  {| _id := _id t;
     isNew := isNew t;
     user := user t;
     account := account t;
     plaidTransactionId := plaidTransactionId t;
     amount := v;
     currency := currency t;
     type := type t;
     category := category t;
     description := description t;
     merchant := merchant t;
     date := date t;
     postedDate := postedDate t;
     status := status t;
     tags := tags t;
     notes := notes t;
     attachments := attachments t;
     recurring := recurring t;
     split := split t;
     location := location t;
     metadata := metadata t;
     isReconciled := isReconciled t;
     reconciliationDate := reconciliationDate t;
     isHidden := isHidden t;
     isArchived := isArchived t |}.

(** [doc.date = v] *)
Definition set_date (v : option Date) (t : Transaction) : Transaction :=
  {| _id := _id t;
     isNew := isNew t;
     user := user t;
     account := account t;
     plaidTransactionId := plaidTransactionId t;
     amount := amount t;
     currency := currency t;
     type := type t;
     category := category t;
     description := description t;
     merchant := merchant t;
     date := v;
     postedDate := postedDate t;
     status := status t;
     tags := tags t;
     notes := notes t;
     attachments := attachments t;
     recurring := recurring t;
     split := split t;
     location := location t;
     metadata := metadata t;
     isReconciled := isReconciled t;
     reconciliationDate := reconciliationDate t;
     isHidden := isHidden t;
     isArchived := isArchived t |}.

(** [doc.postedDate = v] *)
Definition set_postedDate (v : option Date) (t : Transaction) : Transaction :=
  {| _id := _id t;
     isNew := isNew t;
     user := user t;
     account := account t;
     plaidTransactionId := plaidTransactionId t;
     amount := amount t;
     currency := currency t;
     type := type t;
     category := category t;
     description := description t;
     merchant := merchant t;
     date := date t;
     postedDate := v;
     status := status t;
     tags := tags t;
     notes := notes t;
     attachments := attachments t;
     recurring := recurring t;
     split := split t;
     location := location t;
     metadata := metadata t;
     isReconciled := isReconciled t;
     reconciliationDate := reconciliationDate t;
     isHidden := isHidden t;
     isArchived := isArchived t |}.

(** [doc.isReconciled = v] *)
Definition set_isReconciled (v : bool) (t : Transaction) : Transaction :=
  {| _id := _id t;
     isNew := isNew t;
     user := user t;
     account := account t;
     plaidTransactionId := plaidTransactionId t;
     amount := amount t;
     currency := currency t;
     type := type t;
     category := category t;
     description := description t;
     merchant := merchant t;
     date := date t;
     postedDate := postedDate t;
     status := status t;
     tags := tags t;
     notes := notes t;
     attachments := attachments t;
     recurring := recurring t;
     split := split t;
     location := location t;
     metadata := metadata t;
     isReconciled := v;
     reconciliationDate := reconciliationDate t;
     isHidden := isHidden t;
     isArchived := isArchived t |}.

(** [doc.reconciliationDate = v] *)
Definition set_reconciliationDate (v : option Date) (t : Transaction) : Transaction :=
  {| _id := _id t;
     isNew := isNew t;
     user := user t;
     account := account t;
     plaidTransactionId := plaidTransactionId t;
     amount := amount t;
     currency := currency t;
     type := type t;
     category := category t;
     description := description t;
     merchant := merchant t;
     date := date t;
     postedDate := postedDate t;
     status := status t;
     tags := tags t;
     notes := notes t;
     attachments := attachments t;
     recurring := recurring t;
     split := split t;
     location := location t;
     metadata := metadata t;
     isReconciled := isReconciled t;
     reconciliationDate := v;
     isHidden := isHidden t;
     isArchived := isArchived t |}.

(** [doc.attachments = v] *)
Definition set_attachments (v : list Attachment) (t : Transaction) : Transaction :=
  {| _id := _id t;
     isNew := isNew t;
     user := user t;
     account := account t;
     plaidTransactionId := plaidTransactionId t;
     amount := amount t;
     currency := currency t;
     type := type t;
     category := category t;
     description := description t;
     merchant := merchant t;
     date := date t;
     postedDate := postedDate t;
     status := status t;
     tags := tags t;
     notes := notes t;
     attachments := v;
     recurring := recurring t;
     split := split t;
     location := location t;
     metadata := metadata t;
     isReconciled := isReconciled t;
     reconciliationDate := reconciliationDate t;
     isHidden := isHidden t;
     isArchived := isArchived t |}.

(** *** Setters of the schema

    The string paths declare setters ([trim], [lowercase], [uppercase]):
    Mongoose runs them on every value assigned to the path or pushed onto
    the array, before the value is stored in the document. *)

Definition currency_setter (s : string) : string := Js.toUpperCase s.
Definition type_setter (s : string) : string := Js.toLowerCase s.
Definition status_setter (s : string) : string := Js.toLowerCase s.
Definition frequency_setter (s : string) : string := Js.toLowerCase s.
Definition description_setter (s : string) : string := Js.trim s.
Definition notes_setter (s : string) : string := Js.trim s.
Definition tag_setter (s : string) : string := Js.toLowerCase (Js.trim s).

Definition cast_category (c : Category) : Category :=
  {| primary := Js.trim <$> primary c;
     secondary := Js.trim <$> secondary c;
     plaidCategoryId := plaidCategoryId c |}.

Definition cast_merchant (m : Merchant) : Merchant :=
  {| merchant_name := Js.trim <$> merchant_name m;
     merchant_id := merchant_id m;
     merchant_website := merchant_website m;
     merchant_logo := merchant_logo m |}.

Definition cast_recurring (r : Recurring) : Recurring :=
  {| isRecurring := isRecurring r;
     frequency := frequency_setter <$> frequency r;
     interval := interval r;
     nextDueDate := nextDueDate r;
     endDate := endDate r;
     originalTransactionId := originalTransactionId r |}.

(** [doc.currency = v] *)
Definition set_currency (v : string) (t : Transaction) : Transaction :=
  {| _id := _id t;
     isNew := isNew t;
     user := user t;
     account := account t;
     plaidTransactionId := plaidTransactionId t;
     amount := amount t;
     currency := currency_setter v;
     type := type t;
     category := category t;
     description := description t;
     merchant := merchant t;
     date := date t;
     postedDate := postedDate t;
     status := status t;
     tags := tags t;
     notes := notes t;
     attachments := attachments t;
     recurring := recurring t;
     split := split t;
     location := location t;
     metadata := metadata t;
     isReconciled := isReconciled t;
     reconciliationDate := reconciliationDate t;
     isHidden := isHidden t;
     isArchived := isArchived t |}.

(** [doc.type = v] *)
Definition set_type (v : option string) (t : Transaction) : Transaction :=
  {| _id := _id t;
     isNew := isNew t;
     user := user t;
     account := account t;
     plaidTransactionId := plaidTransactionId t;
     amount := amount t;
     currency := currency t;
     type := type_setter <$> v;
     category := category t;
     description := description t;
     merchant := merchant t;
     date := date t;
     postedDate := postedDate t;
     status := status t;
     tags := tags t;
     notes := notes t;
     attachments := attachments t;
     recurring := recurring t;
     split := split t;
     location := location t;
     metadata := metadata t;
     isReconciled := isReconciled t;
     reconciliationDate := reconciliationDate t;
     isHidden := isHidden t;
     isArchived := isArchived t |}.

(** [doc.category = v] *)
Definition set_category (v : Category) (t : Transaction) : Transaction :=
  {| _id := _id t;
     isNew := isNew t;
     user := user t;
     account := account t;
     plaidTransactionId := plaidTransactionId t;
     amount := amount t;
     currency := currency t;
     type := type t;
     category := cast_category v;
     description := description t;
     merchant := merchant t;
     date := date t;
     postedDate := postedDate t;
     status := status t;
     tags := tags t;
     notes := notes t;
     attachments := attachments t;
     recurring := recurring t;
     split := split t;
     location := location t;
     metadata := metadata t;
     isReconciled := isReconciled t;
     reconciliationDate := reconciliationDate t;
     isHidden := isHidden t;
     isArchived := isArchived t |}.

(** [doc.description = v] *)
Definition set_description (v : option string) (t : Transaction) : Transaction :=
  {| _id := _id t;
     isNew := isNew t;
     user := user t;
     account := account t;
     plaidTransactionId := plaidTransactionId t;
     amount := amount t;
     currency := currency t;
     type := type t;
     category := category t;
     description := description_setter <$> v;
     merchant := merchant t;
     date := date t;
     postedDate := postedDate t;
     status := status t;
     tags := tags t;
     notes := notes t;
     attachments := attachments t;
     recurring := recurring t;
     split := split t;
     location := location t;
     metadata := metadata t;
     isReconciled := isReconciled t;
     reconciliationDate := reconciliationDate t;
     isHidden := isHidden t;
     isArchived := isArchived t |}.

(** [doc.merchant = v] *)
Definition set_merchant (v : Merchant) (t : Transaction) : Transaction :=
  {| _id := _id t;
     isNew := isNew t;
     user := user t;
     account := account t;
     plaidTransactionId := plaidTransactionId t;
     amount := amount t;
     currency := currency t;
     type := type t;
     category := category t;
     description := description t;
     merchant := cast_merchant v;
     date := date t;
     postedDate := postedDate t;
     status := status t;
     tags := tags t;
     notes := notes t;
     attachments := attachments t;
     recurring := recurring t;
     split := split t;
     location := location t;
     metadata := metadata t;
     isReconciled := isReconciled t;
     reconciliationDate := reconciliationDate t;
     isHidden := isHidden t;
     isArchived := isArchived t |}.

(** [doc.status = v] *)
Definition set_status (v : string) (t : Transaction) : Transaction :=
  {| _id := _id t;
     isNew := isNew t;
     user := user t;
     account := account t;
     plaidTransactionId := plaidTransactionId t;
     amount := amount t;
     currency := currency t;
     type := type t;
     category := category t;
     description := description t;
     merchant := merchant t;
     date := date t;
     postedDate := postedDate t;
     status := status_setter v;
     tags := tags t;
     notes := notes t;
     attachments := attachments t;
     recurring := recurring t;
     split := split t;
     location := location t;
     metadata := metadata t;
     isReconciled := isReconciled t;
     reconciliationDate := reconciliationDate t;
     isHidden := isHidden t;
     isArchived := isArchived t |}.

(** [doc.tags = v]: every element is cast *)
Definition set_tags (v : list string) (t : Transaction) : Transaction :=
  {| _id := _id t;
     isNew := isNew t;
     user := user t;
     account := account t;
     plaidTransactionId := plaidTransactionId t;
     amount := amount t;
     currency := currency t;
     type := type t;
     category := category t;
     description := description t;
     merchant := merchant t;
     date := date t;
     postedDate := postedDate t;
     status := status t;
     tags := tag_setter <$> v;
     notes := notes t;
     attachments := attachments t;
     recurring := recurring t;
     split := split t;
     location := location t;
     metadata := metadata t;
     isReconciled := isReconciled t;
     reconciliationDate := reconciliationDate t;
     isHidden := isHidden t;
     isArchived := isArchived t |}.

(** [doc.notes = v] *)
Definition set_notes (v : option string) (t : Transaction) : Transaction :=
  {| _id := _id t;
     isNew := isNew t;
     user := user t;
     account := account t;
     plaidTransactionId := plaidTransactionId t;
     amount := amount t;
     currency := currency t;
     type := type t;
     category := category t;
     description := description t;
     merchant := merchant t;
     date := date t;
     postedDate := postedDate t;
     status := status t;
     tags := tags t;
     notes := notes_setter <$> v;
     attachments := attachments t;
     recurring := recurring t;
     split := split t;
     location := location t;
     metadata := metadata t;
     isReconciled := isReconciled t;
     reconciliationDate := reconciliationDate t;
     isHidden := isHidden t;
     isArchived := isArchived t |}.

(** [doc.recurring = v] *)
Definition set_recurring (v : Recurring) (t : Transaction) : Transaction :=
  {| _id := _id t;
     isNew := isNew t;
     user := user t;
     account := account t;
     plaidTransactionId := plaidTransactionId t;
     amount := amount t;
     currency := currency t;
     type := type t;
     category := category t;
     description := description t;
     merchant := merchant t;
     date := date t;
     postedDate := postedDate t;
     status := status t;
     tags := tags t;
     notes := notes t;
     attachments := attachments t;
     recurring := cast_recurring v;
     split := split t;
     location := location t;
     metadata := metadata t;
     isReconciled := isReconciled t;
     reconciliationDate := reconciliationDate t;
     isHidden := isHidden t;
     isArchived := isArchived t |}.

(** [doc.tags.push(v)]: the pushed value alone is cast, with the element
    schema of lines 87-91, and appended. *)
Definition push_tag (v : string) (t : Transaction) : Transaction :=
  {| _id := _id t;
     isNew := isNew t;
     user := user t;
     account := account t;
     plaidTransactionId := plaidTransactionId t;
     amount := amount t;
     currency := currency t;
     type := type t;
     category := category t;
     description := description t;
     merchant := merchant t;
     date := date t;
     postedDate := postedDate t;
     status := status t;
     tags := tags t ++ [tag_setter v];
     notes := notes t;
     attachments := attachments t;
     recurring := recurring t;
     split := split t;
     location := location t;
     metadata := metadata t;
     isReconciled := isReconciled t;
     reconciliationDate := reconciliationDate t;
     isHidden := isHidden t;
     isArchived := isArchived t |}.

(** The values of a document, cast through the setters of the schema once
    more: what [new Transaction(obj)] stores when [obj] carries them. *)
Definition cast (t : Transaction) : Transaction :=
  set_recurring (recurring t)
    (set_notes (notes t)
      (set_tags (tags t)
        (set_status (status t)
          (set_merchant (merchant t)
            (set_description (description t)
              (set_category (category t)
                (set_type (type t)
                  (set_currency (currency t) t)))))))).

(** A document is in stored form when its values are the ones the setters
    leave: casting them again changes nothing. *)
Definition stored_form (t : Transaction) : Prop := cast t = t.

Global Instance stored_form_dec t : Decision (stored_form t).
Proof. unfold stored_form. apply _. Defined.

(** ** Validation (the validators declared in the schema) *)

Inductive ValidatorKind := Required | UserDefined | Enum | MaxLength | Min.

Record ValidatorError := {
  err_path : string;
  err_kind : ValidatorKind;
  err_message : string
}.

Global Instance ValidatorKind_eq_dec : EqDecision ValidatorKind.
Proof. solve_decision. Defined.
Global Instance ValidatorError_eq_dec : EqDecision ValidatorError.
Proof. solve_decision. Defined.

(** One validator of a path: its kind, whether a document passes it, and
    the message it reports. *)
Record Validator := {
  v_kind : ValidatorKind;
  v_passes : Transaction → bool;
  v_message : Transaction → string
}.

Record SchemaPath := {
  sp_path : string;
  sp_validators : list Validator
}.

Definition present {A} (o : option A) : bool :=
  match o with Some _ => true | None => false end.

(** [required] on a String path also refuses the empty string. *)
Definition present_string (o : option string) : bool :=
  match o with Some s => negb (bool_decide (s = "")) | None => false end.

(** The validators other than [required] are not run on an absent value. *)
Definition when_present {A} (o : option A) (p : A → bool) : bool :=
  match o with Some v => p v | None => true end.

Definition required (passes : Transaction → bool) (msg : string) : Validator :=
  {| v_kind := Required; v_passes := passes; v_message := λ _, msg |}.

Definition enum_message (path : string) (v : option string) : string :=
  "`" +:+ default "" v +:+ "` is not a valid enum value for path `" +:+ path +:+ "`.".

Definition enum (path : string) (get : Transaction → option string)
    (values : list string) : Validator :=
  {| v_kind := Enum;
     v_passes := λ t, when_present (get t) (λ v, bool_decide (v ∈ values));
     v_message := λ t, enum_message path (get t) |}.

Definition maxlength (get : Transaction → option string) (n : nat)
    (msg : string) : Validator :=
  {| v_kind := MaxLength;
     v_passes := λ t, when_present (get t) (λ v, Nat.leb (String.length v) n);
     v_message := λ _, msg |}.

Definition currencies : list string :=
  ["USD"; "EUR"; "GBP"; "CAD"; "AUD"; "JPY"; "CHF"].
Definition types : list string := ["income"; "expense"; "transfer"].
Definition statuses : list string := ["pending"; "posted"; "cancelled"; "failed"].
Definition frequencies : list string := ["daily"; "weekly"; "monthly"; "yearly"].

(** Lines 21-30: [validator: function(v) { return v !== 0; }]. *)
Definition amount_not_zero : Validator :=
  {| v_kind := UserDefined;
     v_passes := λ t, when_present (amount t) (λ v, negb (v =? 0));
     v_message := λ _, "Amount cannot be zero" |}.

(** Lines 118-122: [min: 1], with Mongoose's message for it. *)
Definition interval_min : Validator :=
  {| v_kind := Min;
     v_passes := λ t, 1 <=? interval (recurring t);
     v_message := λ t,
       "Path `recurring.interval` (" +:+ Js.Z_to_string (interval (recurring t))
       +:+ ") is less than minimum allowed value (1)." |}.

(** The paths of the schema that carry validators. *)
Definition user_path : SchemaPath :=
  {| sp_path := "user";
     sp_validators := [required (λ t, present (user t)) "User ID is required"] |}.
Definition account_path : SchemaPath :=
  {| sp_path := "account";
     sp_validators := [required (λ t, present (account t)) "Account ID is required"] |}.
Definition amount_path : SchemaPath :=
  {| sp_path := "amount";
     sp_validators := [required (λ t, present (amount t)) "Amount is required";
                       amount_not_zero] |}.
Definition currency_path : SchemaPath :=
  {| sp_path := "currency";
     sp_validators := [enum "currency" (λ t, Some (currency t)) currencies] |}.
Definition type_path : SchemaPath :=
  {| sp_path := "type";
     sp_validators := [required (λ t, present_string (type t)) "Transaction type is required";
                       enum "type" type types] |}.
Definition category_primary_path : SchemaPath :=
  {| sp_path := "category.primary";
     sp_validators := [required (λ t, present_string (primary (category t)))
                         "Primary category is required"] |}.
Definition description_path : SchemaPath :=
  {| sp_path := "description";
     sp_validators := [required (λ t, present_string (description t)) "Description is required";
                       maxlength description 200 "Description cannot exceed 200 characters"] |}.
Definition merchant_name_path : SchemaPath :=
  {| sp_path := "merchant.name";
     sp_validators := [maxlength (λ t, merchant_name (merchant t)) 100
                         "Merchant name cannot exceed 100 characters"] |}.
Definition date_path : SchemaPath :=
  {| sp_path := "date";
     sp_validators := [required (λ t, present (date t)) "Transaction date is required"] |}.
Definition status_path : SchemaPath :=
  {| sp_path := "status";
     sp_validators := [enum "status" (λ t, Some (status t)) statuses] |}.
Definition notes_path : SchemaPath :=
  {| sp_path := "notes";
     sp_validators := [maxlength notes 500 "Notes cannot exceed 500 characters"] |}.
Definition recurring_frequency_path : SchemaPath :=
  {| sp_path := "recurring.frequency";
     sp_validators := [enum "recurring.frequency" (λ t, frequency (recurring t)) frequencies] |}.
Definition recurring_interval_path : SchemaPath :=
  {| sp_path := "recurring.interval";
     sp_validators := [interval_min] |}.

(** All of them, in schema order. *)
Definition schema_paths : list SchemaPath :=
  [ user_path; account_path; amount_path; currency_path; type_path;
    category_primary_path; description_path; merchant_name_path; date_path;
    status_path; notes_path; recurring_frequency_path; recurring_interval_path ].

Definition error_of (path : string) (v : Validator) (t : Transaction) : ValidatorError :=
  {| err_path := path; err_kind := v_kind v; err_message := v_message v t |}.

(** The validators of a path run in order; the path reports the first one
    that fails. *)
Definition validate_path (t : Transaction) (sp : SchemaPath) : option ValidatorError :=
  (λ v, error_of (sp_path sp) v t) <$> List.find (λ v, negb (v_passes v t)) (sp_validators sp).

(** [doc.validate()]: every path is validated, the failures are collected. *)
Definition validate (t : Transaction) : list ValidatorError :=
  omap (validate_path t) schema_paths.

(** ** Virtuals (lines 184-206) *)

(** [Math.abs(this.amount)]; [None] stands for the NaN of an absent amount. *)
Definition absoluteAmount (t : Transaction) : option Z := Z.abs <$> amount t.

(** The getter of lines 190-193 on the values it reads: the type, the
    currency and the amount, here any finite Number; [None] is the amount
    that is not there, of which [Math.abs] makes NaN. *)
Definition formattedAmount_of (ty : option string) (cur : string)
    (x : option Js.Number) : string :=
  (if bool_decide (ty = Some "income") then "+" else "-") +:+ cur +:+ " " +:+
  match x with
  | Some q => Js.toFixed2 (Qabs q)
  | None => "NaN"
  end.

Definition formattedAmount (t : Transaction) : string :=
  formattedAmount_of (type t) (currency t) (inject_Z <$> amount t).

(** Whole days between the transaction date and [now]. *)
Definition age (now : Date) (t : Transaction) : option Z :=
  (λ d, (now - d) / (1000 * 60 * 60 * 24)) <$> date t.

(** An empty secondary category is falsy, like an absent one. *)
Definition categoryDisplay (t : Transaction) : option string :=
  match secondary (category t) with
  | Some (String c r) =>
      Some (Js.template (primary (category t)) +:+ " > " +:+ String c r)
  | _ => primary (category t)
  end.

(** ** Pre-save hooks (lines 217-233) *)

Inductive Hook := SetPostedDate | NormalizeAmountSign.

Global Instance Hook_eq_dec : EqDecision Hook.
Proof. solve_decision. Defined.

(** Lines 218-223; [now] is the [new Date()] of the hook. *)
Definition set_posted_date (now : Date) (t : Transaction) : Transaction :=
  if bool_decide (status t = "posted") && negb (present (postedDate t))
  then set_postedDate (Some now) t
  else t.

(** Lines 226-233. A comparison with an absent amount is false. *)
Definition normalize_amount_sign (t : Transaction) : Transaction :=
  match amount t with
  | Some a =>
      if bool_decide (type t = Some "income") && (a <? 0)
      then set_amount (Some (Z.abs a)) t
      else if bool_decide (type t = Some "expense") && (0 <? a)
      then set_amount (Some (- Z.abs a)) t
      else t
  | None => t
  end.

(** The hooks in the order [pre('save', ...)] registered them. *)
Definition pre_save_hooks : list (Hook * (Date → Transaction → Transaction)) :=
  [ (SetPostedDate, set_posted_date);
    (NormalizeAmountSign, λ _, normalize_amount_sign) ].

(** Mongoose runs the hooks of a list one after the other, each on the
    document the one before left; the second component records which ran,
    in order. *)
Definition run_hooks (hooks : list (Hook * (Date → Transaction → Transaction)))
    (now : Date) (t : Transaction) : Transaction * list Hook :=
  foldl (λ acc h, (h.2 now acc.1, acc.2 ++ [h.1])) (t, []) hooks.

Definition pre_save (now : Date) (t : Transaction) : Transaction :=
  (run_hooks pre_save_hooks now t).1.

(** The hooks that ran on a save, in order. *)
Definition hook_trace (now : Date) (t : Transaction) : list Hook :=
  (run_hooks pre_save_hooks now t).2.

(** ** The collection and its indexes (lines 8, 14, 16-20, 75, 209-215) *)

Inductive Path :=
  | P_id | P_user | P_account | P_plaidTransactionId | P_amount
  | P_type | P_category | P_merchant | P_date.

Inductive BsonValue :=
  | BObjectId (i : ObjectId)
  | BString (s : string)
  | BNumber (n : Z)
  | BDate (d : Date)
  | BCategory (c : Category)
  | BMerchant (m : Merchant).

Global Instance Path_eq_dec : EqDecision Path.
Proof. solve_decision. Defined.
Global Instance BsonValue_eq_dec : EqDecision BsonValue.
Proof. solve_decision. Defined.

Definition path_value (p : Path) (t : Transaction) : option BsonValue :=
  match p with
  | P_id => BObjectId <$> _id t
  | P_user => BObjectId <$> user t
  | P_account => BObjectId <$> account t
  | P_plaidTransactionId => BString <$> plaidTransactionId t
  | P_amount => BNumber <$> amount t
  | P_type => BString <$> type t
  | P_category => Some (BCategory (category t))
  | P_merchant => Some (BMerchant (merchant t))
  | P_date => BDate <$> date t
  end.

(** An index: its key pattern (path and direction) and its options. *)
Record IndexSpec := {
  idx_key : list (Path * Z);
  idx_sparse : bool;
  idx_unique : bool
}.

Global Instance IndexSpec_eq_dec : EqDecision IndexSpec.
Proof. solve_decision. Defined.

Definition index (key : list (Path * Z)) (sparse : bool) : IndexSpec :=
  {| idx_key := key; idx_sparse := sparse; idx_unique := false |}.

(** The index every collection has on [_id]; the only unique one. *)
Definition id_index : IndexSpec :=
  {| idx_key := [(P_id, 1)]; idx_sparse := false; idx_unique := true |}.

(** The indexes the schema declares: the [index: true] paths, then the
    calls of [transactionSchema.index]. None passes [unique]. *)
Definition schema_indexes : list IndexSpec :=
  [ index [(P_user, 1)] false;
    index [(P_account, 1)] false;
    index [(P_plaidTransactionId, 1)] true;
    index [(P_date, 1)] false;
    index [(P_user, 1); (P_date, -1)] false;
    index [(P_user, 1); (P_account, 1); (P_date, -1)] false;
    index [(P_user, 1); (P_category, 1); (P_date, -1)] false;
    index [(P_user, 1); (P_type, 1); (P_date, -1)] false;
    index [(P_user, 1); (P_amount, 1)] false;
    index [(P_user, 1); (P_merchant, 1)] false;
    index [(P_plaidTransactionId, 1)] true ].

Definition collection_indexes : list IndexSpec := id_index :: schema_indexes.

(** The key of a document in an index; a sparse index has no entry for a
    document that lacks every path of the key. *)
Definition index_entry (idx : IndexSpec) (t : Transaction)
    : option (list (option BsonValue)) :=
  let k := (λ p, path_value p.1 t) <$> idx_key idx in
  if idx_sparse idx && forallb (λ v, negb (present v)) k then None else Some k.

(** A unique index refuses a document whose key another document has. *)
Definition duplicate_key (idx : IndexSpec) (docs : list Transaction)
    (t : Transaction) : bool :=
  idx_unique idx &&
  match index_entry idx t with
  | Some k => bool_decide (Some k ∈ index_entry idx <$> docs)
  | None => false
  end.

Inductive Error :=
  | ValidationError (errors : list ValidatorError)
  | MongooseError (message : string)
  | DocumentNotFoundError
  | DuplicateKeyError (idx : IndexSpec).

Definition Result (A : Type) : Type := Error + A.

(** The collection: the stored documents, in insertion order. *)
Abbreviation Collection := (list Transaction).

Definition insertOne (docs : Collection) (t : Transaction) : Result Collection :=
  match List.find (λ idx, duplicate_key idx docs t) collection_indexes with
  | Some idx => inl (DuplicateKeyError idx)
  | None => inr (docs ++ [t])
  end.

Definition same_id (t d : Transaction) : bool := bool_decide (_id d = _id t).

(** The stored document with the [_id] of [t] is replaced by [t]. *)
Definition updateOne (docs : Collection) (t : Transaction) : Result Collection :=
  let others := filter (λ d, _id d ≠ _id t) docs in
  if negb (existsb (same_id t) docs) then inl DocumentNotFoundError
  else
    match List.find (λ idx, duplicate_key idx others t) collection_indexes with
    | Some idx => inl (DuplicateKeyError idx)
    | None => inr ((λ d, if same_id t d then t else d) <$> docs)
    end.

(** ** Saving and creating *)

(** [doc.save()] at time [now]: validation first, then the pre-save hooks,
    then the write (an insert for a new document, an update otherwise).
    The result pairs the document as the call leaves it in memory with the
    outcome: the error, or the collection after the write. *)
Definition save (now : Date) (docs : Collection) (t : Transaction)
    : Transaction * Result Collection :=
  match validate t with
  | e :: es => (t, inl (ValidationError (e :: es)))
  | [] =>
      let t1 := pre_save now t in
      match _id t1 with
      | None => (t1, inl (MongooseError "document must have an _id before saving"))
      | Some _ =>
          if isNew t1 then
            match insertOne docs (set_isNew false t1) with
            | inl e => (t1, inl e)
            | inr docs' => (set_isNew false t1, inr docs')
            end
          else
            match updateOne docs t1 with
            | inl e => (t1, inl e)
            | inr docs' => (t1, inr docs')
            end
      end
  end.

(** [new Transaction(obj)]: the values of [obj] cast through the schema,
    the defaults of [_id] (a fresh ObjectId, [oid]) and [date] (the current
    time) filled in, and the document marked new. *)
Definition construct (oid : ObjectId) (now : Date) (obj : Transaction) : Transaction :=
  let d := cast obj in
  set_isNew true
    (set_date (Some (default now (date d)))
      (set__id (Some (default oid (_id d))) d)).

(** [Transaction.create(obj)]: construct the document and save it. *)
Definition create (oid : ObjectId) (now : Date) (docs : Collection)
    (obj : Transaction) : Transaction * Result Collection :=
  save now docs (construct oid now obj).

(** ** Instance methods (lines 305-338) *)

(** Each method returns the receiver as the call leaves it, paired with
    what the call returns. *)

(** Lines 306-317. [this.toObject()] carries the values of the document,
    which the constructor casts; the assignments follow in source order.
    The [_id] path generates its values: its setter answers an assignment
    of [undefined] with a new ObjectId, here [oid], so that line 308 gives
    the copy an identity of its own. Nothing is assigned to [this]. *)
Definition duplicate (oid : ObjectId) (now : Date) (t : Transaction)
    : Transaction * Transaction :=
  let d := construct oid now t in
  let d := set__id (Some oid) d in
  let d := set_date (Some now) d in
  let d := set_status "pending" d in
  let d := set_description (Some ("Copy of " +:+ Js.template (description t))) d in
  let d := set_attachments [] d in
  let d := set_notes (Some "") d in
  let d := set_isReconciled false d in
  (t, set_reconciliationDate None d).

(** Lines 320-324. *)
Definition markReconciled (now : Date) (docs : Collection) (t : Transaction)
    : Transaction * Result Collection :=
  save now docs (set_reconciliationDate (Some now) (set_isReconciled true t)).

(** Lines 327-332: the in-memory step, then the method itself. *)
Definition add_tag (tag : string) (t : Transaction) : Transaction :=
  if bool_decide (Js.toLowerCase tag ∈ tags t) then t
  else push_tag (Js.toLowerCase tag) t.

Definition addTag (now : Date) (docs : Collection) (tag : string) (t : Transaction)
    : Transaction * Result Collection :=
  save now docs (add_tag tag t).

(** Lines 335-338. *)
Definition remove_tag (tag : string) (t : Transaction) : Transaction :=
  set_tags (filter (λ x, x ≠ Js.toLowerCase tag) (tags t)) t.

Definition removeTag (now : Date) (docs : Collection) (tag : string) (t : Transaction)
    : Transaction * Result Collection :=
  save now docs (remove_tag tag t).

(** ** Aggregations (lines 254-303) *)

(** [$group]: the documents are folded into one accumulator per key,
    starting from [init] when the key is first met. The order in which
    the groups come out is the map's, as unspecified as MongoDB's. *)
Definition group_add `{Countable K} {A} (key : Transaction → K) (init : A)
    (step : A → Transaction → A) (m : gmap K A) (t : Transaction) : gmap K A :=
  <[key t := step (default init (m !! key t)) t]> m.

Definition group_by `{Countable K} {A} (key : Transaction → K) (init : A)
    (step : A → Transaction → A) (l : list Transaction) : gmap K A :=
  foldl (group_add key init step) ∅ l.

(** [$sum] counts a missing or null operand as 0. *)
Definition abs_amount (t : Transaction) : Z := default 0 (Z.abs <$> amount t).
Definition signed_amount (t : Transaction) : Z := default 0 (amount t).

Definition in_range (lo hi : Date) (t : Transaction) : bool :=
  match date t with
  | Some d => (lo <=? d) && (d <=? hi)
  | None => false
  end.

Definition since (lo : Date) (t : Transaction) : bool :=
  match date t with
  | Some d => lo <=? d
  | None => false
  end.

(** A row of [getSpendingByCategory]: [_id], [totalAmount], [count]. *)
Record SpendingRow := {
  spend_id : option string;
  spend_totalAmount : Z;
  spend_count : Z
}.

(** [$sort: { totalAmount: -1 }]: larger totals first. *)
Definition spend_desc (a b : SpendingRow) : Prop :=
  spend_totalAmount b ≤ spend_totalAmount a.

Global Instance spend_desc_dec a b : Decision (spend_desc a b).
Proof. unfold spend_desc. apply _. Defined.

Definition spending_match (userId : ObjectId) (startDate endDate : Date)
    (t : Transaction) : bool :=
  bool_decide (user t = Some userId)
  && bool_decide (type t = Some "expense")
  && in_range startDate endDate t.

Definition spending_key (t : Transaction) : option string := primary (category t).

Definition spending_step (acc : Z * Z) (t : Transaction) : Z * Z :=
  (acc.1 + abs_amount t, acc.2 + 1).

Definition spending_row (kv : option string * (Z * Z)) : SpendingRow :=
  {| spend_id := kv.1; spend_totalAmount := kv.2.1; spend_count := kv.2.2 |}.

(** The stages of the pipeline: [$match], [$group], [$sort]. *)
Definition spending_matched (docs : Collection) (userId : ObjectId)
    (startDate endDate : Date) : list Transaction :=
  filter (λ t, spending_match userId startDate endDate t) docs.

Definition spending_groups (docs : Collection) (userId : ObjectId)
    (startDate endDate : Date) : gmap (option string) (Z * Z) :=
  group_by spending_key (0, 0) spending_step
    (spending_matched docs userId startDate endDate).

Definition getSpendingByCategory (docs : Collection) (userId : ObjectId)
    (startDate endDate : Date) : list SpendingRow :=
  merge_sort spend_desc
    (spending_row <$> map_to_list (spending_groups docs userId startDate endDate)).

(** The [_id] of a row of [getMonthlyTrends]. *)
Record TrendKey := {
  year : option Z;
  month : option Z;
  trend_type : option string
}.

Global Instance TrendKey_eq_dec : EqDecision TrendKey.
Proof. solve_decision. Defined.

Global Instance TrendKey_countable : Countable TrendKey.
Proof.
  refine (inj_countable' (λ k, (year k, month k, trend_type k))
            (λ p, {| year := p.1.1; month := p.1.2; trend_type := p.2 |}) _).
  by intros [].
Defined.

Record TrendRow := {
  trend_id : TrendKey;
  trend_totalAmount : Z
}.

(** BSON order on a numeric path that may be null: null sorts first. *)
Definition bson_le (a b : option Z) : Prop :=
  match a, b with
  | None, _ => True
  | Some _, None => False
  | Some x, Some y => x ≤ y
  end.

Definition bson_lt (a b : option Z) : Prop :=
  match a, b with
  | _, None => False
  | None, Some _ => True
  | Some x, Some y => x < y
  end.

(** [$sort: { '_id.year': 1, '_id.month': 1 }]. *)
Definition trend_asc (a b : TrendRow) : Prop :=
  bson_lt (year (trend_id a)) (year (trend_id b))
  ∨ (year (trend_id a) = year (trend_id b)
     ∧ bson_le (month (trend_id a)) (month (trend_id b))).

Global Instance bson_le_dec a b : Decision (bson_le a b).
Proof. destruct a, b; simpl; apply _. Defined.
Global Instance bson_lt_dec a b : Decision (bson_lt a b).
Proof. destruct a, b; simpl; apply _. Defined.
Global Instance trend_asc_dec a b : Decision (trend_asc a b).
Proof. unfold trend_asc. apply _. Defined.

(** [const startDate = new Date(); startDate.setMonth(startDate.getMonth() - months)]. *)
Definition trends_start (tz : TimeZone) (now : Date) (months : Z) : Date :=
  setMonth tz now (getMonth tz now - months).

Definition trends_match (userId : ObjectId) (startDate : Date) (t : Transaction) : bool :=
  bool_decide (user t = Some userId) && since startDate t.

(** [$year] and [$month] read the date in UTC; the month runs from 1. *)
Definition trends_key (t : Transaction) : TrendKey :=
  {| year := year_of <$> date t; month := month_of <$> date t;
     trend_type := type t |}.

Definition trends_step (acc : Z) (t : Transaction) : Z := acc + signed_amount t.

Definition trends_row (kv : TrendKey * Z) : TrendRow :=
  {| trend_id := kv.1; trend_totalAmount := kv.2 |}.

(** The stages of the pipeline: [$match], [$group], [$sort]. *)
Definition trends_matched (docs : Collection) (userId : ObjectId)
    (startDate : Date) : list Transaction :=
  filter (λ t, trends_match userId startDate t) docs.

Definition trends_groups (docs : Collection) (userId : ObjectId)
    (startDate : Date) : gmap TrendKey Z :=
  group_by trends_key 0 trends_step (trends_matched docs userId startDate).

Definition trends_rows (docs : Collection) (userId : ObjectId)
    (startDate : Date) : list TrendRow :=
  merge_sort trend_asc (trends_row <$> map_to_list (trends_groups docs userId startDate)).

(** [months] is [None] when the caller leaves the argument out: 12. *)
Definition getMonthlyTrends (tz : TimeZone) (now : Date) (docs : Collection)
    (userId : ObjectId) (months : option Z) : list TrendRow :=
  trends_rows docs userId (trends_start tz now (default 12 months)).

(** ** Find queries (lines 235-252) *)

(** [sort({ date: -1 })]: later dates first, a missing date last. *)
Definition date_desc (a b : Transaction) : Prop := bson_le (date b) (date a).

Global Instance date_desc_dec a b : Decision (date_desc a b).
Proof. unfold date_desc. apply _. Defined.

Definition range_match (userId : ObjectId) (startDate endDate : Date)
    (t : Transaction) : bool :=
  bool_decide (user t = Some userId) && in_range startDate endDate t.

Definition findByUserAndDateRange (docs : Collection) (userId : ObjectId)
    (startDate endDate : Date) : list Transaction :=
  merge_sort date_desc (filter (λ t, range_match userId startDate endDate t) docs).

(** A value queried on a String path is cast as a stored one is: the
    category asked for is trimmed (lines 44-48). *)
Definition category_match (userId : ObjectId) (cat : string)
    (t : Transaction) : bool :=
  bool_decide (user t = Some userId)
  && bool_decide (primary (category t) = Some (Js.trim cat)).

(** [limit(n)]: the first [n] documents; 0 stands for no limit, and a
    negative number for its absolute value. *)
Definition limit (n : Z) (l : list Transaction) : list Transaction :=
  if n =? 0 then l else take (Z.to_nat (Z.abs n)) l.

(** [limit] is [None] when the caller leaves the argument out: 50. *)
Definition findByCategory (docs : Collection) (userId : ObjectId)
    (cat : string) (lim : option Z) : list Transaction :=
  limit (default 50 lim)
    (merge_sort date_desc (filter (λ t, category_match userId cat t) docs)).

(** ** Sample documents *)

Definition no_category : Category :=
  {| primary := None; secondary := None; plaidCategoryId := None |}.
Definition no_merchant : Merchant :=
  {| merchant_name := None; merchant_id := None;
     merchant_website := None; merchant_logo := None |}.
Definition no_recurring : Recurring :=
  {| isRecurring := false; frequency := None; interval := 1;
     nextDueDate := None; endDate := None; originalTransactionId := None |}.
Definition no_split : Split :=
  {| isSplit := false; split_totalAmount := None; splits := [] |}.
Definition no_location : Location :=
  {| street := None; city := None; state := None; zipCode := None;
     country := None; latitude := None; longitude := None |}.
Definition no_metadata : Metadata :=
  {| plaidData := None; customFields := None; importSource := None;
     importDate := None |}.

(** A plain object with the paths a caller has to give, the others as the
    schema defaults them. *)
Definition sample (u : ObjectId) (ty : string) (a : Z) (cat descr : string)
    (d : Date) : Transaction :=
  {| _id := None; isNew := true; user := Some u; account := Some 1%N;
     plaidTransactionId := None; amount := Some a; currency := "USD";
     type := Some ty;
     category := {| primary := Some cat; secondary := None; plaidCategoryId := None |};
     description := Some descr; merchant := no_merchant; date := Some d;
     postedDate := None; status := "pending"; tags := []; notes := None;
     attachments := []; recurring := no_recurring; split := no_split;
     location := no_location; metadata := no_metadata; isReconciled := false;
     reconciliationDate := None; isHidden := false; isArchived := false |}.

(** ** Vocabulary of the properties *)

(** The two validation errors the spec names. *)
Definition amount_zero_error : ValidatorError :=
  {| err_path := "amount"; err_kind := UserDefined;
     err_message := "Amount cannot be zero" |}.

Definition description_length_error : ValidatorError :=
  {| err_path := "description"; err_kind := MaxLength;
     err_message := "Description cannot exceed 200 characters" |}.

(** Sum of a list of numbers. *)
Definition Zsum (l : list Z) : Z := foldr Z.add 0 l.

(** The validator [v] is the first of the path [sp] that the document
    does not pass: the validators before it in the path are passed. *)
Definition first_failing (t : Transaction) (sp : SchemaPath) (v : Validator) : Prop :=
  ∃ pre post, sp_validators sp = pre ++ v :: post
    ∧ Forall (λ v', v_passes v' t = true) pre
    ∧ v_passes v t = false.






(** The date of a document satisfies [P]; a document without a date does
    not. *)
Definition dated (P : Date → Prop) (t : Transaction) : Prop :=
  match date t with
  | Some d => P d
  | None => False
  end.

Global Instance dated_dec (P : Date → Prop) `{∀ d, Decision (P d)} t :
  Decision (dated P t).
Proof. unfold dated. destruct (date t); apply _. Defined.

(** The documents [getSpendingByCategory] is about, in the words of the
    spec: the expenses of the user dated in the closed range. *)
Definition expense_in_range (userId : ObjectId) (startDate endDate : Date)
    (t : Transaction) : Prop :=
  user t = Some userId ∧ type t = Some "expense"
  ∧ dated (λ d, startDate ≤ d ≤ endDate) t.

Global Instance expense_in_range_dec userId s e t :
  Decision (expense_in_range userId s e t).
Proof. unfold expense_in_range. apply _. Defined.

(** The expenses of the user in the range, of one primary category. *)
Definition expenses_of (docs : Collection) (userId : ObjectId)
    (startDate endDate : Date) (c : option string) : list Transaction :=
  filter (λ t, expense_in_range userId startDate endDate t
               ∧ primary (category t) = c) docs.

(** The documents [getMonthlyTrends] groups: those of the user dated at
    or after the start date. *)
Definition dated_since (userId : ObjectId) (startDate : Date)
    (t : Transaction) : Prop :=
  user t = Some userId ∧ dated (λ d, startDate ≤ d) t.

Global Instance dated_since_dec userId start t :
  Decision (dated_since userId start t).
Proof. unfold dated_since. apply _. Defined.

(** The documents of the user since the start date, of one group. *)
Definition trend_docs (docs : Collection) (userId : ObjectId)
    (startDate : Date) (k : TrendKey) : list Transaction :=
  filter (λ t, dated_since userId startDate t ∧ trends_key t = k) docs.

(** The window in the words of the spec: the trailing [months] months,
    from the start date up to the current time. *)
Definition within_trailing_months (tz : TimeZone) (now : Date) (months : Z)
    (d : Date) : Prop :=
  trends_start tz now months ≤ d ≤ now.

(** Year before year, and month before month within a year. *)
Definition chronological (a b : TrendRow) : Prop :=
  ∃ ya ma yb mb,
    year (trend_id a) = Some ya ∧ month (trend_id a) = Some ma
    ∧ year (trend_id b) = Some yb ∧ month (trend_id b) = Some mb
    ∧ (ya < yb ∨ (ya = yb ∧ ma ≤ mb)).

(** The documents of a user. *)
Definition owned_by (userId : ObjectId) (docs : Collection) : Collection :=
  filter (λ t, user t = Some userId) docs.

(** The constraints of the schema, as predicates on a value. *)

Definition one_of (values : list string) (o : option string) : Prop :=
  match o with Some v => v ∈ values | None => True end.

Definition at_most (n : nat) (o : option string) : Prop :=
  match o with Some v => (String.length v ≤ n)%nat | None => True end.

Definition non_empty (o : option string) : Prop :=
  match o with Some v => v ≠ "" | None => False end.

(** What the validators of lines 4-122 ask of a document. *)
Definition conforms (t : Transaction) : Prop :=
  is_Some (user t)
  ∧ is_Some (account t)
  ∧ (∃ a, amount t = Some a ∧ a ≠ 0)
  ∧ currency t ∈ currencies
  ∧ (non_empty (type t) ∧ one_of types (type t))
  ∧ non_empty (primary (category t))
  ∧ (non_empty (description t) ∧ at_most 200 (description t))
  ∧ at_most 100 (merchant_name (merchant t))
  ∧ is_Some (date t)
  ∧ status t ∈ statuses
  ∧ at_most 500 (notes t)
  ∧ one_of frequencies (frequency (recurring t))
  ∧ 1 ≤ interval (recurring t).

(** The documents [findByUserAndDateRange] is about: those of the user
    dated in the closed range. *)
Definition in_window (userId : ObjectId) (startDate endDate : Date)
    (t : Transaction) : Prop :=
  user t = Some userId ∧ dated (λ d, startDate ≤ d ≤ endDate) t.

Global Instance in_window_dec userId s e t : Decision (in_window userId s e t).
Proof. unfold in_window. apply _. Defined.

(** The documents [findByCategory] is about: those of the user filed under
    the category, read as the schema stores it. *)
Definition in_category (userId : ObjectId) (cat : string) (t : Transaction) : Prop :=
  user t = Some userId ∧ primary (category t) = Some (Js.trim cat).

Global Instance in_category_dec userId cat t : Decision (in_category userId cat t).
Proof. unfold in_category. apply _. Defined.

(** The amount with the sign its type asks for. *)
Definition signed_for (ty : option string) (a : Z) : Z :=
  if bool_decide (ty = Some "income") then Z.abs a
  else if bool_decide (ty = Some "expense") then - Z.abs a
  else a.

(** The posted date a save leaves. *)
Definition stamped (now : Date) (st : string) (p : option Date) : option Date :=
  if bool_decide (st = "posted") then Some (default now p) else p.

(** * Properties *)

(** ** The calendar *)

Ltac split_ifs :=
  repeat match goal with
  | |- context [if ?b then _ else _] => destruct b eqn:?
  | H : context [if ?b then _ else _] |- _ => destruct b eqn:?
  end;
  repeat match goal with
  | H : Z.ltb _ _ = true |- _ => apply Z.ltb_lt in H
  | H : Z.ltb _ _ = false |- _ => apply Z.ltb_ge in H
  | H : Z.leb _ _ = true |- _ => apply Z.leb_le in H
  | H : Z.leb _ _ = false |- _ => apply Z.leb_gt in H
  | H : Z.eqb _ _ = true |- _ => apply Z.eqb_eq in H
  | H : Z.eqb _ _ = false |- _ => apply Z.eqb_neq in H
  end.

Ltac calendar := split_ifs; Z.div_mod_to_equations; lia.

Section Calendar.

Implicit Types (z y m d n : Z).

(** The month is a month and the day of month a day of month. *)
Lemma civil_from_days_range z :
  1 ≤ (civil_from_days z).1.2 ≤ 12 ∧ 1 ≤ (civil_from_days z).2 ≤ 31.
Proof. unfold civil_from_days. cbv zeta. cbn [fst snd]. calendar. Qed.

(** The day number of the date of a day number is the day number. *)
Lemma days_from_civil_from_days z :
  days_from_civil (civil_from_days z).1.1 (civil_from_days z).1.2
    (civil_from_days z).2 = z.
Proof.
  unfold civil_from_days, days_from_civil. cbv zeta. cbn [fst snd]. calendar.
Qed.

Lemma days_from_civil_day y m d :
  days_from_civil y m d = days_from_civil y m 1 + d - 1.
Proof. unfold days_from_civil. cbv zeta. lia. Qed.

(** A day lies before the first day of the month after its own. *)
Lemma civil_from_days_next z :
  z < days_from_civil
        (if (civil_from_days z).1.2 =? 12 then (civil_from_days z).1.1 + 1
         else (civil_from_days z).1.1)
        (if (civil_from_days z).1.2 =? 12 then 1 else (civil_from_days z).1.2 + 1)
        1.
Proof.
  unfold civil_from_days, days_from_civil. cbv zeta. cbn [fst snd]. calendar.
Qed.

Lemma first_of_month_step n : first_of_month n ≤ first_of_month (n + 1).
Proof.
  unfold first_of_month.
  assert (((n + 1) / 12 = n / 12 ∧ (n + 1) mod 12 = n mod 12 + 1
           ∧ 0 ≤ n mod 12 < 11)
          ∨ ((n + 1) / 12 = n / 12 + 1 ∧ (n + 1) mod 12 = 0 ∧ n mod 12 = 11))
    as [(-> & -> & Hm)|(-> & -> & ->)] by (Z.div_mod_to_equations; lia).
  - revert Hm. generalize (n mod 12), (n / 12). intros m y Hm.
    unfold days_from_civil. cbv zeta. calendar.
  - generalize (n / 12). intros y.
    unfold days_from_civil. cbv zeta. calendar.
Qed.

(** The first days of the months come in the order of the months. *)
Lemma first_of_month_mono n1 n2 :
  n1 ≤ n2 → first_of_month n1 ≤ first_of_month n2.
Proof.
  intros Hle. replace n2 with (n1 + (n2 - n1)) by lia.
  assert (0 ≤ n2 - n1) as Hk by lia. revert Hk. generalize (n2 - n1).
  apply (natlike_ind (λ k, first_of_month n1 ≤ first_of_month (n1 + k))).
  - by rewrite Z.add_0_r.
  - intros k Hk IH. etrans; [exact IH|].
    replace (n1 + Z.succ k) with (n1 + k + 1) by lia. apply first_of_month_step.
Qed.

Lemma first_of_month_civil y m :
  1 ≤ m ≤ 12 → first_of_month (12 * y + m - 1) = days_from_civil y m 1.
Proof.
  intros Hm. unfold first_of_month.
  assert ((12 * y + m - 1) / 12 = y ∧ (12 * y + m - 1) mod 12 = m - 1) as [-> ->]
    by (Z.div_mod_to_equations; lia).
  f_equal. lia.
Qed.

(** A later day has a later or the same (year, month). *)
Lemma civil_from_days_mono z1 z2 :
  z1 ≤ z2 →
  (civil_from_days z1).1.1 < (civil_from_days z2).1.1
  ∨ ((civil_from_days z1).1.1 = (civil_from_days z2).1.1
     ∧ (civil_from_days z1).1.2 ≤ (civil_from_days z2).1.2).
Proof.
  intros Hle.
  pose proof (civil_from_days_range z1) as [Hm1 Hd1].
  pose proof (civil_from_days_range z2) as [Hm2 _].
  pose proof (days_from_civil_from_days z1) as Hz1.
  rewrite days_from_civil_day in Hz1.
  pose proof (civil_from_days_next z2) as Hz2.
  destruct (civil_from_days z1) as [[y1 m1] d1], (civil_from_days z2) as [[y2 m2] d2].
  cbn [fst snd] in *.
  destruct (decide (12 * y1 + m1 ≤ 12 * y2 + m2)) as [?|Hgt]; [lia|].
  exfalso.
  assert (days_from_civil (if m2 =? 12 then y2 + 1 else y2)
            (if m2 =? 12 then 1 else m2 + 1) 1
          ≤ days_from_civil y1 m1 1) as Hmono; [|lia].
  rewrite <- (first_of_month_civil y1 m1) by done.
  destruct (Z.eqb_spec m2 12) as [->|?].
  - rewrite <- (first_of_month_civil (y2 + 1) 1) by lia.
    apply first_of_month_mono. lia.
  - rewrite <- (first_of_month_civil y2 (m2 + 1)) by lia.
    apply first_of_month_mono. lia.
Qed.

(** The calendar order of two dates follows their order in time. *)
Lemma year_month_mono (d1 d2 : Date) :
  d1 ≤ d2 →
  year_of d1 < year_of d2
  ∨ (year_of d1 = year_of d2 ∧ month_of d1 ≤ month_of d2).
Proof.
  intros Hle. apply civil_from_days_mono. unfold Day, msPerDay.
  by apply Z.div_le_mono.
Qed.

End Calendar.

Example civil_from_days_epoch : civil_from_days 0 = (1970, 1, 1).
Proof. reflexivity. Qed.

Example civil_from_days_leap : civil_from_days 19782 = (2024, 2, 29).
Proof. reflexivity. Qed.

(** 31 March 2024, one month back: 31 February, that is 2 March. *)
Example setMonth_overflow :
  let t := setMonth utc 1711886400000 (getMonth utc 1711886400000 - 1) in
  (year_of t, month_of t, day_of t) = (2024, 3, 2).
Proof. reflexivity. Qed.

(** Of two dated documents, the one whose (year, month) comes first is
    the one dated first. *)
Lemma trends_key_time_order (t1 t2 : Transaction) (d1 d2 : Date) :
  date t1 = Some d1 → date t2 = Some d2 →
  bson_lt (year (trends_key t1)) (year (trends_key t2))
  ∨ (year (trends_key t1) = year (trends_key t2)
     ∧ bson_lt (month (trends_key t1)) (month (trends_key t2))) →
  d1 < d2.
Proof.
  intros H1 H2. unfold trends_key. rewrite H1, H2.
  cbn [year month fmap option_fmap option_map bson_lt]. intros Hlt.
  destruct (Z.lt_ge_cases d1 d2) as [?|Hge]; [done|]. exfalso.
  destruct (year_month_mono d2 d1 Hge) as [?|[? ?]], Hlt as [?|[Hy ?]];
    try injection Hy as Hy; lia.
Qed.

(** ** The pre-save hooks *)

Section PreSave.

Implicit Types (t : Transaction) (now : Date).

Lemma pre_save_unfold now t :
  pre_save now t = normalize_amount_sign (set_posted_date now t).
Proof. reflexivity. Qed.

Lemma set_posted_date_postedDate now t :
  postedDate (set_posted_date now t) =
    if bool_decide (status t = "posted") && negb (present (postedDate t))
    then Some now else postedDate t.
Proof. unfold set_posted_date. by case_match. Qed.

Lemma set_posted_date_amount now t : amount (set_posted_date now t) = amount t.
Proof. unfold set_posted_date. by case_match. Qed.

Lemma set_posted_date_type now t : type (set_posted_date now t) = type t.
Proof. unfold set_posted_date. by case_match. Qed.

Lemma set_posted_date_status now t : status (set_posted_date now t) = status t.
Proof. unfold set_posted_date. by case_match. Qed.

Lemma normalize_amount_sign_postedDate t :
  postedDate (normalize_amount_sign t) = postedDate t.
Proof. unfold normalize_amount_sign. by repeat case_match. Qed.

Lemma normalize_amount_sign_status t :
  status (normalize_amount_sign t) = status t.
Proof. unfold normalize_amount_sign. by repeat case_match. Qed.

Lemma normalize_amount_sign_type t : type (normalize_amount_sign t) = type t.
Proof. unfold normalize_amount_sign. by repeat case_match. Qed.

Lemma normalize_amount_sign_amount t :
  amount (normalize_amount_sign t) =
    match amount t with
    | Some a =>
        if bool_decide (type t = Some "income") && (a <? 0) then Some (Z.abs a)
        else if bool_decide (type t = Some "expense") && (0 <? a) then Some (- Z.abs a)
        else Some a
    | None => None
    end.
Proof.
  unfold normalize_amount_sign.
  destruct (amount t) as [a|] eqn:Ha; [|done].
  by repeat case_match.
Qed.

(** The two hooks touch different paths and read none the other writes. *)
Lemma hooks_commute now t :
  normalize_amount_sign (set_posted_date now t)
  = set_posted_date now (normalize_amount_sign t).
Proof.
  unfold set_posted_date.
  rewrite normalize_amount_sign_status, normalize_amount_sign_postedDate.
  case_match; [|done].
  unfold normalize_amount_sign; simpl.
  by repeat case_match.
Qed.

End PreSave.

(** ** Validation *)

Section Validation.

Implicit Types (t : Transaction) (sp : SchemaPath) (v : Validator).

Lemma validate_nil_path t sp :
  validate t = [] → sp ∈ schema_paths → validate_path t sp = None.
Proof.
  unfold validate. intros Hv Hsp.
  destruct (validate_path t sp) as [e|] eqn:He; [|done].
  assert (e ∈ omap (validate_path t) schema_paths) as Hin.
  { apply list_elem_of_omap. eauto. }
  rewrite Hv in Hin. by apply elem_of_nil in Hin.
Qed.

Lemma validate_path_None t sp v :
  validate_path t sp = None → v ∈ sp_validators sp → v_passes v t = true.
Proof.
  unfold validate_path. intros Hn Hv.
  destruct (List.find _ _) eqn:Hf; [done|].
  apply list_elem_of_In in Hv.
  pose proof (find_none _ _ Hf v Hv) as H. simpl in H.
  by apply negb_false_iff in H.
Qed.

(** A valid document passes every validator of the schema. *)
Lemma valid_passes t sp v :
  validate t = [] → sp ∈ schema_paths → v ∈ sp_validators sp →
  v_passes v t = true.
Proof. eauto using validate_nil_path, validate_path_None. Qed.

Lemma valid_amount t : validate t = [] → ∃ a, amount t = Some a ∧ a ≠ 0.
Proof.
  intros Hv.
  assert (amount_path ∈ schema_paths) as Hp
    by (do 2 apply list_elem_of_further; apply list_elem_of_here).
  pose proof (valid_passes t _ (required (λ t, present (amount t)) "Amount is required")
    Hv Hp ltac:(apply list_elem_of_here)) as H1.
  pose proof (valid_passes t _ amount_not_zero
    Hv Hp ltac:(apply list_elem_of_further, list_elem_of_here)) as H2.
  cbn [v_passes required amount_not_zero] in H1, H2.
  destruct (amount t) as [a|]; [|done].
  exists a. split; [done|]. simpl in H2. by intros ->.
Qed.

End Validation.

(** ** Saving *)

Section Save.

Implicit Types (t : Transaction) (now : Date) (docs : Collection).

Lemma insertOne_inr docs t docs' :
  insertOne docs t = inr docs' → docs' = docs ++ [t].
Proof. unfold insertOne. case_match; congruence. Qed.

Lemma updateOne_inr docs t docs' :
  updateOne docs t = inr docs' →
  t ∈ docs' ∧ docs' = (λ d, if same_id t d then t else d) <$> docs.
Proof.
  unfold updateOne.
  destruct (existsb (same_id t) docs) eqn:Hex; simpl; [|done].
  case_match; [done|]. intros [= <-]. split; [|done].
  apply existsb_exists in Hex as (d & Hd & Hs).
  apply list_elem_of_fmap. exists d. rewrite Hs.
  split; [done|]. by apply list_elem_of_In.
Qed.

(** What a successful save did: the document was valid, the hooks ran on
    it, and the collection holds the document the call left in memory. *)
Lemma save_inr now docs t t' docs' :
  save now docs t = (t', inr docs') →
  validate t = []
  ∧ t' ∈ docs'
  ∧ (t' = pre_save now t ∨ t' = set_isNew false (pre_save now t)).
Proof.
  unfold save.
  destruct (validate t) as [|e es]; [|done].
  destruct (_id (pre_save now t)); [|done].
  destruct (isNew (pre_save now t)).
  - destruct (insertOne _ _) as [?|ds] eqn:Hins; [done|].
    intros [= <- <-]. apply insertOne_inr in Hins as ->.
    split_and!; [done| |by right].
    apply elem_of_app. right. by apply list_elem_of_singleton.
  - destruct (updateOne _ _) as [?|ds] eqn:Hupd; [done|].
    intros [= <- <-]. apply updateOne_inr in Hupd as [? _].
    split_and!; [done|done|by left].
Qed.

(** A save that fails validation leaves the document as it was. *)
Lemma save_invalid now docs t :
  validate t ≠ [] → save now docs t = (t, inl (ValidationError (validate t))).
Proof. unfold save. by destruct (validate t). Qed.

Lemma save_valid_memory now docs t :
  validate t = [] →
  (save now docs t).1 = pre_save now t
  ∨ (save now docs t).1 = set_isNew false (pre_save now t).
Proof.
  intros Hv. unfold save. rewrite Hv.
  destruct (_id (pre_save now t)); [|by left].
  destruct (isNew (pre_save now t)).
  - destruct (insertOne _ _); [by left|by right].
  - destruct (updateOne _ _); by left.
Qed.

(** Saving never touches the tags of the document. *)
Lemma save_tags now docs t : tags (save now docs t).1 = tags t.
Proof.
  destruct (validate t) as [|e es] eqn:Hv.
  - assert (tags (pre_save now t) = tags t) as Hp.
    { rewrite pre_save_unfold. unfold normalize_amount_sign, set_posted_date.
      by repeat case_match. }
    by destruct (save_valid_memory now docs t Hv) as [-> | ->].
  - rewrite save_invalid; [done|]. by rewrite Hv.
Qed.

(** The constructor stores the amount it is given. *)
Lemma construct_amount oid now t : amount (construct oid now t) = amount t.
Proof. reflexivity. Qed.

End Save.

(** ** The sign of the amount *)

Lemma sign_cases (ty : option string) (a : Z) :
  ∃ b, (if bool_decide (ty = Some "income") && (a <? 0) then Some (Z.abs a)
        else if bool_decide (ty = Some "expense") && (0 <? a) then Some (- Z.abs a)
        else Some a) = Some b
    ∧ (ty = Some "income" → 0 ≤ b)
    ∧ (ty = Some "expense" → b ≤ 0)
    ∧ (ty = Some "transfer" → a = b).
Proof.
  case_bool_decide as Hi; case_bool_decide as He; simpl.
  - congruence.
  - destruct (Z.ltb_spec a 0).
    + exists (Z.abs a). split_and!; [done|intros _; lia|done|congruence].
    + exists a. split_and!; [done|intros _; lia|done|done].
  - destruct (Z.ltb_spec 0 a).
    + exists (- Z.abs a). split_and!; [done|done|intros _; lia|congruence].
    + exists a. split_and!; [done|done|intros _; lia|done].
  - exists a. split_and!; [done|by intros ?|by intros ?|done].
Qed.

Lemma create_unfold oid now docs obj :
  create oid now docs obj = save now docs (construct oid now obj).
Proof. reflexivity. Qed.

(** C2. After every successful save, and after every successful create,
    the amount of an income transaction is at least 0, the amount of an
    expense transaction is at most 0, and the amount of a transfer is the
    one the caller supplied. The document in question is the one the call
    leaves in memory, which is also the one the collection then holds. *)
Theorem amount_sign_matches_type (oid : ObjectId) (now : Date) (docs : Collection)
    (t t' : Transaction) (docs' : Collection) :
  save now docs t = (t', inr docs') ∨ create oid now docs t = (t', inr docs') →
  t' ∈ docs'
  ∧ ∃ a, amount t' = Some a
    ∧ (type t' = Some "income" → 0 ≤ a)
    ∧ (type t' = Some "expense" → a ≤ 0)
    ∧ (type t' = Some "transfer" → amount t = Some a).
Proof.
  intros Hdone.
  assert (∃ t0, amount t0 = amount t ∧ save now docs t0 = (t', inr docs'))
    as (t0 & Hamount & Hsave).
  { destruct Hdone as [Hs|Hc].
    - exists t. split; [reflexivity|exact Hs].
    - exists (construct oid now t). split; [apply construct_amount|].
      rewrite <- create_unfold. exact Hc. }
  apply save_inr in Hsave as (Hvalid & Hin & Ht').
  split; [exact Hin|].
  assert (amount t' = amount (pre_save now t0) ∧ type t' = type t0) as [-> ->].
  { destruct Ht' as [-> | ->]; cbn [amount type set_isNew];
      by rewrite pre_save_unfold, normalize_amount_sign_type,
           set_posted_date_type. }
  rewrite pre_save_unfold, normalize_amount_sign_amount,
    set_posted_date_amount, set_posted_date_type.
  destruct (valid_amount _ Hvalid) as (a & Ha & _).
  rewrite <- Hamount, Ha.
  destruct (sign_cases (type t0) a) as (b & Hb & Hincome & Hexpense & Htransfer).
  exists b. split_and!; [exact Hb|exact Hincome|exact Hexpense|].
  intros Hty. by rewrite (Htransfer Hty).
Qed.

Lemma amount_sign_matches_type_witness :
  ∃ (t' : Transaction) (docs' : Collection),
    t' ∈ docs'
    ∧ ∃ a, amount t' = Some a
      ∧ (type t' = Some "income" → 0 ≤ a)
      ∧ (type t' = Some "expense" → a ≤ 0)
      ∧ (type t' = Some "transfer" → amount (sample 7 "expense" 50 "Food" "lunch" 10) = Some a).
Proof.
  eexists _, _.
  apply (amount_sign_matches_type 5 1000 [] (sample 7 "expense" 50 "Food" "lunch" 10)).
  right. vm_compute. reflexivity.
Defined.

(** ** The posted date *)

Lemma pre_save_postedDate now t :
  postedDate (pre_save now t) =
    if bool_decide (status t = "posted") && negb (present (postedDate t))
    then Some now else postedDate t.
Proof.
  by rewrite pre_save_unfold, normalize_amount_sign_postedDate,
    set_posted_date_postedDate.
Qed.

Lemma pre_save_status now t : status (pre_save now t) = status t.
Proof.
  by rewrite pre_save_unfold, normalize_amount_sign_status,
    set_posted_date_status.
Qed.

(** C5. For every record that goes through a save: when its status is
    posted and it has no posted date, the posted date becomes the time of
    the save; in every other case the posted date is left as it was. So
    after the save a posted record has a posted date. The record is the
    one the call leaves in memory and the collection then holds. *)
Theorem posted_date_stamped_on_save (now : Date) (docs : Collection)
    (t t' : Transaction) (docs' : Collection) :
  save now docs t = (t', inr docs') →
  t' ∈ docs'
  ∧ status t' = status t
  ∧ (status t = "posted" → postedDate t = None → postedDate t' = Some now)
  ∧ (status t ≠ "posted" ∨ postedDate t ≠ None → postedDate t' = postedDate t)
  ∧ (status t' = "posted" → is_Some (postedDate t')).
Proof.
  intros Hs. apply save_inr in Hs as (_ & Hin & Ht').
  assert (postedDate t' = postedDate (pre_save now t)
          ∧ status t' = status t) as [Hp Hst].
  { destruct Ht' as [-> | ->]; simpl; by rewrite pre_save_status. }
  rewrite Hp, Hst, pre_save_postedDate.
  split_and!; [exact Hin|reflexivity|..].
  - intros -> ->. by rewrite bool_decide_eq_true_2.
  - intros [Hne | Hne].
    + by rewrite bool_decide_eq_false_2.
    + destruct (postedDate t); [|done]. simpl. by rewrite andb_false_r.
  - intros Hst'. rewrite bool_decide_eq_true_2 by exact Hst'.
    destruct (postedDate t); simpl; eauto.
Qed.

Lemma posted_date_stamped_on_save_witness :
  ∃ (t' : Transaction) (docs' : Collection),
    t' ∈ docs'
    ∧ status t' = "posted"
    ∧ ("posted" = "posted" → @None Date = None → postedDate t' = Some 1000)
    ∧ ("posted" ≠ "posted" ∨ @None Date ≠ None → postedDate t' = None)
    ∧ (status t' = "posted" → is_Some (postedDate t')).
Proof.
  eexists _, _.
  apply (posted_date_stamped_on_save 1000 []
           (set__id (Some 5%N) (set_status "posted" (sample 7 "income" 20 "Salary" "pay" 10)))).
  vm_compute. reflexivity.
Defined.

(** ** The order of the pre-save hooks *)

(** C9, as the spec words it, fails: on a save the posted-date hook runs
    first and the sign hook second, not the other way round. *)
Lemma pre_save_order_counterexample :
  hook_trace 1000 (sample 7 "expense" 50 "Food" "lunch" 10)
    = [SetPostedDate; NormalizeAmountSign]
  ∧ hook_trace 1000 (sample 7 "expense" 50 "Food" "lunch" 10)
    ≠ [NormalizeAmountSign; SetPostedDate].
Proof. split; [reflexivity|]. intros [=]. Qed.

(** C9, amended. On every save the pre-save hooks run in one fixed order,
    the order of their registration: posted-date stamping first, sign
    normalization second. The document they leave is the one the opposite
    order would leave, since neither hook reads what the other writes. *)
Theorem pre_save_order (now : Date) (t : Transaction) :
  hook_trace now t = [SetPostedDate; NormalizeAmountSign]
  ∧ pre_save now t = normalize_amount_sign (set_posted_date now t)
  ∧ (run_hooks (reverse pre_save_hooks) now t).2 = [NormalizeAmountSign; SetPostedDate]
  ∧ (run_hooks (reverse pre_save_hooks) now t).1 = pre_save now t.
Proof.
  split_and!; [reflexivity|reflexivity|reflexivity|].
  rewrite pre_save_unfold, hooks_commute. reflexivity.
Qed.

(** ** The formatted amount *)

(** *** Numerals *)

Section Numerals.

Implicit Types (s r : string) (n v : N) (c : ascii).



Lemma length_append s r :
  String.length (s +:+ r) = (String.length s + String.length r)%nat.
Proof.
  induction s as [|c s IH]; [done|].
  change (S (String.length (s +:+ r)) = S (String.length s + String.length r)).
  by f_equal.
Qed.










End Numerals.

Section Numerals2.

Implicit Types (s r : string) (n v : N) (c : ascii).












End Numerals2.

(** *** Two decimals *)

Section ToFixed.



End ToFixed.

(** *** The getter *)

Section FormattedAmount.



End FormattedAmount.


(** A transfer of 250, an expense of 1234.5, an income of half a cent and
    an expense of 10^21. *)
Example formattedAmount_examples :
  formattedAmount (sample 7 "transfer" 250 "Savings" "move" 10) = "-USD 250.00"
  ∧ formattedAmount_of (Some "expense") "USD" (Some (-12345 # 10)) = "-USD 1234.50"
  ∧ formattedAmount_of (Some "income") "EUR" (Some (5 # 1000)) = "+EUR 0.01"
  ∧ formattedAmount_of (Some "expense") "USD" (Some (inject_Z (- 10 ^ 21)))
    = "-USD 1e+21".
Proof. split_and!; vm_compute; reflexivity. Qed.


(** ** Validation errors of create *)

Section CreateValidation.

Implicit Types (t : Transaction) (sp : SchemaPath) (v : Validator).

Lemma construct_description oid now obj :
  description (construct oid now obj) = Js.trim <$> description obj.
Proof. reflexivity. Qed.

Lemma create_invalid oid now docs obj :
  validate (construct oid now obj) ≠ [] →
  create oid now docs obj
  = (construct oid now obj,
     inl (ValidationError (validate (construct oid now obj)))).
Proof. intros Hv. rewrite create_unfold. by apply save_invalid. Qed.

(** A path with a failing validator reports its first failing validator. *)
Lemma validate_path_fails t sp v :
  v ∈ sp_validators sp → v_passes v t = false →
  ∃ v', v' ∈ sp_validators sp ∧ v_passes v' t = false
        ∧ validate_path t sp = Some (error_of (sp_path sp) v' t).
Proof.
  intros Hv Hf. unfold validate_path.
  destruct (List.find _ _) as [v'|] eqn:Hfind.
  - apply find_some in Hfind as [Hin Hv'].
    exists v'. split_and!; [by apply list_elem_of_In|by apply negb_true_iff|done].
  - apply list_elem_of_In in Hv.
    pose proof (find_none _ _ Hfind v Hv) as Hn. simpl in Hn.
    rewrite Hf in Hn. done.
Qed.

Lemma validate_path_in t sp e :
  sp ∈ schema_paths → validate_path t sp = Some e → e ∈ validate t.
Proof. intros Hsp He. apply list_elem_of_omap. eauto. Qed.

Lemma validate_sound t e :
  e ∈ validate t →
  ∃ sp v, sp ∈ schema_paths ∧ v ∈ sp_validators sp ∧ v_passes v t = false
          ∧ e = error_of (sp_path sp) v t.
Proof.
  intros (sp & Hsp & He)%list_elem_of_omap. unfold validate_path in He.
  destruct (List.find _ _) as [v|] eqn:Hfind; [|done].
  apply find_some in Hfind as [Hin Hv]. simplify_eq/=.
  exists sp, v. split_and!; [done|by apply list_elem_of_In|by apply negb_true_iff|done].
Qed.

Lemma amount_zero_reported t :
  amount t = Some 0 → amount_zero_error ∈ validate t.
Proof.
  intros Ha. apply (validate_path_in t amount_path).
  { do 2 apply list_elem_of_further. apply list_elem_of_here. }
  unfold validate_path, amount_path, amount_not_zero, required; cbn.
  by rewrite Ha.
Qed.

Lemma description_length_reported t d :
  description t = Some d → (200 < String.length d)%nat →
  description_length_error ∈ validate t.
Proof.
  intros Hd Hlen. apply (validate_path_in t description_path).
  { do 6 apply list_elem_of_further. apply list_elem_of_here. }
  unfold validate_path, description_path, maxlength, required; cbn.
  rewrite Hd. cbn.
  assert (d ≠ "") as Hne by (intros ->; simpl in Hlen; lia).
  rewrite bool_decide_eq_false_2 by done. cbn.
  destruct (Nat.leb_spec (String.length d) 200) as [Hle|_]; [lia|done].
Qed.

(** What [find] finds is the first element that satisfies the test. *)
Lemma find_first {A} (f : A → bool) (l : list A) (x : A) :
  List.find f l = Some x ↔
  ∃ pre post, l = pre ++ x :: post ∧ Forall (λ y, f y = false) pre ∧ f x = true.
Proof.
  induction l as [|a l IH].
  - split; [done|]. intros (pre & post & H & _). by destruct pre.
  - cbn [List.find]. destruct (f a) eqn:Ha.
    + split.
      * intros [= <-]. exists [], l. split_and!; [done|constructor|done].
      * intros (pre & post & Hl & Hpre & Hx). destruct pre as [|b pre].
        -- by injection Hl as -> _.
        -- injection Hl as <- _. apply Forall_cons in Hpre as [Hb _]. congruence.
    + rewrite IH. split.
      * intros (pre & post & -> & Hpre & Hx). exists (a :: pre), post.
        split_and!; [done|by constructor|done].
      * intros (pre & post & Hl & Hpre & Hx). destruct pre as [|b pre].
        -- injection Hl as -> _. congruence.
        -- injection Hl as <- ->. apply Forall_cons in Hpre as [_ Hpre]. eauto.
Qed.

(** A path reports the first validator the document does not pass, and
    reports nothing when it passes them all. *)
Lemma validate_path_first t sp e :
  validate_path t sp = Some e ↔
  ∃ v, first_failing t sp v ∧ e = error_of (sp_path sp) v t.
Proof.
  unfold validate_path, first_failing. split.
  - destruct (List.find _ _) as [v|] eqn:Hfind; [|done]. intros [= <-].
    apply find_first in Hfind as (pre & post & Hl & Hpre & Hv).
    exists v. split; [|done]. exists pre, post. split_and!; [done| |].
    + eapply Forall_impl; [exact Hpre|]. intros y Hy. cbn in Hy.
      by apply negb_false_iff in Hy.
    + by apply negb_true_iff in Hv.
  - intros (v & (pre & post & Hl & Hpre & Hv) & ->).
    assert (List.find (λ v0, negb (v_passes v0 t)) (sp_validators sp) = Some v) as ->;
      [|done].
    apply find_first. exists pre, post. split_and!; [done| |by rewrite Hv].
    eapply Forall_impl; [exact Hpre|]. intros y Hy. cbn. by rewrite Hy.
Qed.

Lemma validate_path_err_path t sp e :
  validate_path t sp = Some e → err_path e = sp_path sp.
Proof. intros (v & _ & ->)%validate_path_first. reflexivity. Qed.

(** The errors come one for a path at most, in the order of the paths. *)
Lemma validate_paths_sublist t (paths : list SchemaPath) :
  err_path <$> omap (validate_path t) paths `sublist_of` sp_path <$> paths.
Proof.
  induction paths as [|sp paths IH]; [done|]. cbn [omap list_omap].
  destruct (validate_path t sp) as [e|] eqn:He; cbn.
  - rewrite (validate_path_err_path t sp e He). by constructor.
  - by constructor.
Qed.

Lemma schema_paths_NoDup : NoDup (sp_path <$> schema_paths).
Proof. apply (bool_decide_unpack _). vm_compute. exact I. Qed.

End CreateValidation.

(** C8, as the spec words it, fails. A description of 201 characters
    whose last character is a space is stored trimmed, with 200
    characters, and the create succeeds. And a record whose type is the
    empty string violates two constraints of that path, [required] and
    [enum]; the error lists the first only. *)
Lemma create_validation_counterexample :
  let d := Js.repeat "a" 200 +:+ " " in
  let obj := sample 7 "expense" (-50) "Food" d 10 in
  let t := construct 5 1000 (set_type (Some "") obj) in
  String.length d = 201%nat
  ∧ (∃ docs', (create 5 1000 [] obj).2 = inr docs')
  ∧ v_passes (enum "type" type types) t = false
  ∧ validate t = [ {| err_path := "type"; err_kind := Required;
                      err_message := "Transaction type is required" |} ].
Proof.
  cbv zeta. split_and!.
  - vm_compute. reflexivity.
  - eexists. vm_compute. reflexivity.
  - vm_compute. reflexivity.
  - vm_compute. reflexivity.
Qed.

(** C8, amended. Create fails with a ValidationError for every record
    whose amount is 0 and for every record whose description, trimmed of
    the white space around it as the schema stores it, exceeds 200
    characters. The error is collected over all the paths of the schema:
    for every path with a violated constraint it lists the first
    violated constraint of that path, and it lists nothing else, so one
    error for a path at most, the errors in the order of the paths.
    Nothing is written. *)
Theorem create_validation_error (oid : ObjectId) (now : Date) (docs : Collection)
    (obj : Transaction) :
  let t := construct oid now obj in
  amount obj = Some 0
  ∨ (∃ d, description obj = Some d ∧ (200 < String.length (Js.trim d))%nat)
  ∨ (∃ sp v, sp ∈ schema_paths ∧ v ∈ sp_validators sp ∧ v_passes v t = false) →
  ∃ errs,
    create oid now docs obj = (t, inl (ValidationError errs))
    ∧ (amount obj = Some 0 → amount_zero_error ∈ errs)
    ∧ (∀ d, description obj = Some d → (200 < String.length (Js.trim d))%nat →
         description_length_error ∈ errs)
    ∧ (∀ sp v, sp ∈ schema_paths → first_failing t sp v →
         error_of (sp_path sp) v t ∈ errs)
    ∧ (∀ e, e ∈ errs →
         ∃ sp v, sp ∈ schema_paths ∧ first_failing t sp v
                 ∧ e = error_of (sp_path sp) v t)
    ∧ (∀ sp v e, sp ∈ schema_paths → first_failing t sp v →
         e ∈ errs → err_path e = sp_path sp → e = error_of (sp_path sp) v t)
    ∧ NoDup (err_path <$> errs)
    ∧ err_path <$> errs `sublist_of` sp_path <$> schema_paths.
Proof.
  cbv zeta. intros Hbad.
  set (t := construct oid now obj).
  assert (amount obj = Some 0 → amount_zero_error ∈ validate t) as Hamount.
  { intros Ha. apply amount_zero_reported. subst t. by rewrite construct_amount. }
  assert (∀ d, description obj = Some d → (200 < String.length (Js.trim d))%nat →
          description_length_error ∈ validate t) as Hdescr.
  { intros d Hd Hlen. apply (description_length_reported _ (Js.trim d)); [|done].
    subst t. by rewrite construct_description, Hd. }
  assert (∀ sp v, sp ∈ schema_paths → first_failing t sp v →
          error_of (sp_path sp) v t ∈ validate t) as Hfirst.
  { intros sp v Hsp Hv. apply (validate_path_in t sp); [done|].
    apply validate_path_first. eauto. }
  assert (∀ e, e ∈ validate t →
          ∃ sp v, sp ∈ schema_paths ∧ first_failing t sp v
                  ∧ e = error_of (sp_path sp) v t) as Hsound.
  { intros e (sp & Hsp & He)%list_elem_of_omap.
    apply validate_path_first in He as (v & Hv & ->). eauto. }
  pose proof (validate_paths_sublist t schema_paths) as Hsub.
  fold (validate t) in Hsub.
  assert (NoDup (err_path <$> validate t)) as Hnodup.
  { eapply sublist_NoDup; [exact schema_paths_NoDup|exact Hsub]. }
  exists (validate t). split_and!; [|done|done|done|done| |done|done].
  - apply create_invalid. fold t. intros Hnil.
    destruct Hbad as [Ha|[(d & Hd & Hlen)|(sp & v & Hsp & Hv & Hf)]].
    + apply Hamount in Ha. rewrite Hnil in Ha. by apply elem_of_nil in Ha.
    + apply (Hdescr d Hd) in Hlen. rewrite Hnil in Hlen. by apply elem_of_nil in Hlen.
    + destruct (validate_path_fails t sp v Hv Hf) as (v' & _ & _ & Hp).
      apply (validate_path_in t sp) in Hp; [|done].
      rewrite Hnil in Hp. by apply elem_of_nil in Hp.
  - intros sp v e Hsp Hv He Hpath.
    pose proof (Hfirst sp v Hsp Hv) as He'.
    apply list_elem_of_lookup in He as [i Hi].
    apply list_elem_of_lookup in He' as [j Hj].
    assert (i = j) as ->; [|congruence].
    eapply NoDup_lookup; [exact Hnodup| |].
    + rewrite list_lookup_fmap, Hi. reflexivity.
    + rewrite list_lookup_fmap, Hj. cbn. by rewrite Hpath.
Qed.

Lemma create_validation_error_witness :
  create 5 1000 [] (sample 7 "expense" 0 "Food" (Js.repeat "a" 201) 10)
  = (construct 5 1000 (sample 7 "expense" 0 "Food" (Js.repeat "a" 201) 10),
     inl (ValidationError [amount_zero_error; description_length_error])).
Proof.
  destruct (create_validation_error 5 1000 []
              (sample 7 "expense" 0 "Food" (Js.repeat "a" 201) 10))
    as (errs & Hcreate & Hamount & Hdescr & _).
  - left. reflexivity.
  - rewrite Hcreate. f_equal. f_equal. f_equal.
    assert (create 5 1000 [] (sample 7 "expense" 0 "Food" (Js.repeat "a" 201) 10)
            = (construct 5 1000 (sample 7 "expense" 0 "Food" (Js.repeat "a" 201) 10),
               inl (ValidationError [amount_zero_error; description_length_error])))
      as Hrun by (vm_compute; reflexivity).
    rewrite Hrun in Hcreate. by injection Hcreate.
Defined.

(** ** The indexes and duplicate external ids *)

Section Indexes.

Implicit Types (t d : Transaction) (docs : Collection) (idx : IndexSpec).

(** No index the schema declares is unique. *)
Lemma schema_indexes_not_unique idx :
  idx ∈ schema_indexes → idx_unique idx = false.
Proof.
  unfold schema_indexes. rewrite !elem_of_cons, elem_of_nil.
  intros H. repeat (destruct H as [-> | H]; [reflexivity|]). done.
Qed.

(** Only the index on [_id] can refuse a document, and only for an [_id]
    the collection already has. *)
Lemma duplicate_key_id idx docs t :
  idx ∈ collection_indexes → duplicate_key idx docs t = true →
  idx = id_index ∧ ∃ d, d ∈ docs ∧ _id d = _id t.
Proof.
  unfold collection_indexes. rewrite elem_of_cons.
  intros [-> | Hs] Hdup.
  - split; [done|]. unfold duplicate_key in Hdup. cbn in Hdup.
    apply bool_decide_eq_true in Hdup.
    apply list_elem_of_fmap in Hdup as (d & Hd & Hin).
    exists d. split; [done|]. cbn in Hd.
    destruct (_id d), (_id t); simplify_eq/=; done.
  - unfold duplicate_key in Hdup.
    by rewrite (schema_indexes_not_unique _ Hs) in Hdup.
Qed.

Lemma insertOne_fresh docs t :
  (∀ d, d ∈ docs → _id d ≠ _id t) → insertOne docs t = inr (docs ++ [t]).
Proof.
  intros Hfresh. unfold insertOne.
  destruct (List.find _ _) as [idx|] eqn:Hfind; [|done].
  apply find_some in Hfind as [Hin Hdup].
  apply list_elem_of_In in Hin.
  destruct (duplicate_key_id _ _ _ Hin Hdup) as (_ & d & Hd & Hid).
  by destruct (Hfresh d Hd).
Qed.

Lemma pre_save__id now t : _id (pre_save now t) = _id t.
Proof.
  rewrite pre_save_unfold. unfold normalize_amount_sign, set_posted_date.
  by repeat case_match.
Qed.

Lemma pre_save_isNew now t : isNew (pre_save now t) = isNew t.
Proof.
  rewrite pre_save_unfold. unfold normalize_amount_sign, set_posted_date.
  by repeat case_match.
Qed.

Lemma pre_save_plaidTransactionId now t :
  plaidTransactionId (pre_save now t) = plaidTransactionId t.
Proof.
  rewrite pre_save_unfold. unfold normalize_amount_sign, set_posted_date.
  by repeat case_match.
Qed.

Lemma set_isNew__id (b : bool) t : _id (set_isNew b t) = _id t.
Proof. reflexivity. Qed.

Lemma construct__id oid now obj :
  _id (construct oid now obj) = Some (default oid (_id obj)).
Proof. reflexivity. Qed.

Lemma set_isNew_plaidTransactionId (b : bool) t :
  plaidTransactionId (set_isNew b t) = plaidTransactionId t.
Proof. reflexivity. Qed.

Lemma construct_plaidTransactionId oid now obj :
  plaidTransactionId (construct oid now obj) = plaidTransactionId obj.
Proof. reflexivity. Qed.

Lemma construct_isNew oid now obj : isNew (construct oid now obj) = true.
Proof. reflexivity. Qed.

(** Saving a new, valid document under an [_id] the collection does not
    have appends it. *)
Lemma save_new_fresh now docs t i :
  validate t = [] → _id t = Some i → isNew t = true →
  (∀ d, d ∈ docs → _id d ≠ Some i) →
  save now docs t
  = (set_isNew false (pre_save now t),
     inr (docs ++ [set_isNew false (pre_save now t)])).
Proof.
  intros Hv Hid Hnew Hfresh. unfold save. rewrite Hv. cbv zeta.
  rewrite pre_save__id, Hid, pre_save_isNew, Hnew.
  rewrite insertOne_fresh; [reflexivity|].
  intros d Hd. rewrite set_isNew__id, pre_save__id, Hid. by apply Hfresh.
Qed.

Lemma create_fresh oid now docs obj :
  validate (construct oid now obj) = [] →
  _id obj = None →
  (∀ d, d ∈ docs → _id d ≠ Some oid) →
  create oid now docs obj
  = (set_isNew false (pre_save now (construct oid now obj)),
     inr (docs ++ [set_isNew false (pre_save now (construct oid now obj))])).
Proof.
  intros Hv Hid Hfresh. rewrite create_unfold.
  apply (save_new_fresh now docs _ oid Hv); [|apply construct_isNew|exact Hfresh].
  by rewrite construct__id, Hid.
Qed.

End Indexes.

(** C1, as the spec words it, fails: two records with the same external
    id are both inserted, and the collection then holds both. *)
Lemma externalId_unique_counterexample :
  let o1 := set_plaidTransactionId (Some "tx-1") (sample 7 "expense" (-50) "Food" "lunch" 10) in
  let o2 := set_plaidTransactionId (Some "tx-1") (sample 7 "expense" (-50) "Food" "lunch again" 20) in
  ∃ t1 docs1 t2 docs2,
    create 1 1000 [] o1 = (t1, inr docs1)
    ∧ create 2 2000 docs1 o2 = (t2, inr docs2)
    ∧ docs2 = [t1; t2]
    ∧ plaidTransactionId t1 = Some "tx-1"
    ∧ plaidTransactionId t2 = Some "tx-1".
Proof.
  cbv zeta. eexists _, _, _, _. split_and!.
  - vm_compute. reflexivity.
  - vm_compute. reflexivity.
  - reflexivity.
  - reflexivity.
  - reflexivity.
Qed.

(** C1, amended. The index on the external id is sparse and not unique,
    and no index but the one on [_id] is unique: whatever their external
    ids, equal and non-empty ones included, two valid records created
    under fresh [_id]s are both inserted, and the collection holds both
    with the external ids they came with. *)
Theorem externalId_not_unique (oid1 oid2 : ObjectId) (now1 now2 : Date)
    (docs : Collection) (o1 o2 : Transaction) :
  validate (construct oid1 now1 o1) = [] →
  validate (construct oid2 now2 o2) = [] →
  _id o1 = None → _id o2 = None →
  oid1 ≠ oid2 →
  (∀ d, d ∈ docs → _id d ≠ Some oid1 ∧ _id d ≠ Some oid2) →
  (∀ idx, idx ∈ schema_indexes → idx_unique idx = false)
  ∧ ∃ t1 t2,
      create oid1 now1 docs o1 = (t1, inr (docs ++ [t1]))
      ∧ create oid2 now2 (docs ++ [t1]) o2 = (t2, inr (docs ++ [t1; t2]))
      ∧ plaidTransactionId t1 = plaidTransactionId o1
      ∧ plaidTransactionId t2 = plaidTransactionId o2.
Proof.
  intros Hv1 Hv2 Hid1 Hid2 Hne Hfresh.
  split; [apply schema_indexes_not_unique|].
  exists (set_isNew false (pre_save now1 (construct oid1 now1 o1))),
         (set_isNew false (pre_save now2 (construct oid2 now2 o2))).
  split_and!.
  - apply create_fresh; [done|done|]. intros d Hd. by apply Hfresh.
  - change (docs ++ [?a; ?b]) with (docs ++ [a] ++ [b]). rewrite app_assoc.
    apply create_fresh; [done|done|].
    intros d [Hd | ->%list_elem_of_singleton]%elem_of_app.
    + by apply Hfresh.
    + rewrite set_isNew__id, pre_save__id, construct__id, Hid1.
      intros [=]. done.
  - by rewrite set_isNew_plaidTransactionId, pre_save_plaidTransactionId,
      construct_plaidTransactionId.
  - by rewrite set_isNew_plaidTransactionId, pre_save_plaidTransactionId,
      construct_plaidTransactionId.
Qed.

Lemma externalId_not_unique_witness :
  ∃ t1 t2 : Transaction,
    plaidTransactionId t1 = Some "tx-1" ∧ plaidTransactionId t2 = Some "tx-1"
    ∧ (create 2 2000 [t1]
        (set_plaidTransactionId (Some "tx-1") (sample 7 "expense" (-50) "Food" "lunch again" 20))).2
      = inr [t1; t2].
Proof.
  destruct (externalId_not_unique 1 2 1000 2000 []
    (set_plaidTransactionId (Some "tx-1") (sample 7 "expense" (-50) "Food" "lunch" 10))
    (set_plaidTransactionId (Some "tx-1") (sample 7 "expense" (-50) "Food" "lunch again" 20)))
    as (_ & t1 & t2 & H1 & H2 & Hp1 & Hp2).
  - vm_compute. reflexivity.
  - vm_compute. reflexivity.
  - reflexivity.
  - reflexivity.
  - intros [=].
  - intros d Hd. by apply elem_of_nil in Hd.
  - exists t1, t2. split_and!; [exact Hp1|exact Hp2|].
    simpl in H2. by rewrite H2.
Defined.

(** ** Trimming and lowercasing *)

Section Strings.

Implicit Types (s r : string) (c : ascii).

Lemma trimEnd_cons c r :
  Js.trimEnd r ≠ "" → Js.trimEnd (String c r) = String c (Js.trimEnd r).
Proof. simpl. by destruct (Js.trimEnd r). Qed.

Lemma trimEnd_idemp s : Js.trimEnd (Js.trimEnd s) = Js.trimEnd s.
Proof.
  induction s as [|c r IH]; [done|]. simpl.
  destruct (Js.trimEnd r) as [|c' r'] eqn:Hr.
  - destruct (Js.is_space c) eqn:Hc; [done|]. simpl. by rewrite Hc.
  - rewrite trimEnd_cons; rewrite IH; done.
Qed.

Lemma trim_fixed_trimEnd s : Js.trim s = s → Js.trimEnd s = s.
Proof. unfold Js.trim. intros H. rewrite <- H at 1. by rewrite trimEnd_idemp. Qed.

Lemma trimEnd_app_fixed s r :
  Js.trimEnd r = r → r ≠ "" → Js.trimEnd (s +:+ r) = s +:+ r.
Proof.
  intros Hr Hne. induction s as [|c s IH]; [done|].
  change (String c s +:+ r) with (String c (s +:+ r)).
  rewrite trimEnd_cons; rewrite IH; [done|]. by destruct s.
Qed.

(** Trimming leaves alone a text that starts with a letter and ends with
    a trimmed, non-empty text. *)
Lemma trim_copy_of s : Js.trim s = s → s ≠ "" →
  Js.trim ("Copy of " +:+ s) = "Copy of " +:+ s.
Proof.
  intros Hs Hne. unfold Js.trim.
  change (Js.trimStart ("Copy of " +:+ s)) with ("Copy of " +:+ s).
  apply trimEnd_app_fixed; [by apply trim_fixed_trimEnd|done].
Qed.

End Strings.

(** ** Duplicating a record *)

Lemma Transaction_eta (t : Transaction) :
  t = {| _id := _id t;
     isNew := isNew t;
     user := user t;
     account := account t;
     plaidTransactionId := plaidTransactionId t;
     amount := amount t;
     currency := currency t;
     type := type t;
     category := category t;
     description := description t;
     merchant := merchant t;
     date := date t;
     postedDate := postedDate t;
     status := status t;
     tags := tags t;
     notes := notes t;
     attachments := attachments t;
     recurring := recurring t;
     split := split t;
     location := location t;
     metadata := metadata t;
     isReconciled := isReconciled t;
     reconciliationDate := reconciliationDate t;
     isHidden := isHidden t;
     isArchived := isArchived t |}.
Proof. by destruct t. Qed.

(** What the constructor stores, for the paths that have setters. *)
Lemma cast_paths (t : Transaction) :
  currency (cast t) = Js.toUpperCase (currency t)
  ∧ type (cast t) = Js.toLowerCase <$> type t
  ∧ category (cast t) = cast_category (category t)
  ∧ description (cast t) = Js.trim <$> description t
  ∧ merchant (cast t) = cast_merchant (merchant t)
  ∧ status (cast t) = Js.toLowerCase (status t)
  ∧ tags (cast t) = tag_setter <$> tags t
  ∧ notes (cast t) = Js.trim <$> notes t
  ∧ recurring (cast t) = cast_recurring (recurring t).
Proof. split_and!; reflexivity. Qed.

(** A document in stored form is a fixed point of each setter. *)
Lemma stored_form_paths (t : Transaction) :
  stored_form t →
  Js.toUpperCase (currency t) = currency t
  ∧ Js.toLowerCase <$> type t = type t
  ∧ cast_category (category t) = category t
  ∧ Js.trim <$> description t = description t
  ∧ cast_merchant (merchant t) = merchant t
  ∧ Js.toLowerCase (status t) = status t
  ∧ tag_setter <$> tags t = tags t
  ∧ Js.trim <$> notes t = notes t
  ∧ cast_recurring (recurring t) = recurring t.
Proof.
  unfold stored_form. intros H.
  destruct (cast_paths t) as (H1 & H2 & H3 & H4 & H5 & H6 & H7 & H8 & H9).
  rewrite <- H1, <- H2, <- H3, <- H4, <- H5, <- H6, <- H7, <- H8, <- H9.
  by rewrite !H.
Qed.

(** C6, as the spec words it, fails. The description of the copy is
    assigned through the trim setter of the schema: for a record whose
    description is empty the copy reads "Copy of", without the space that
    "Copy of " followed by the empty description ends in. And the
    identity is not left empty: the copy carries the new ObjectId that
    the [_id] path generates. *)
Lemma duplicate_counterexample :
  let t := set_description (Some "")
             (set__id (Some 3%N) (sample 7 "expense" (-50) "Food" "lunch" 10)) in
  stored_form t
  ∧ description t = Some ""
  ∧ description (duplicate 9 5000 t).2 = Some "Copy of"
  ∧ description (duplicate 9 5000 t).2 ≠ Some ("Copy of " +:+ "")
  ∧ _id (duplicate 9 5000 t).2 = Some 9%N.
Proof.
  cbv zeta. split_and!; try (vm_compute; reflexivity).
  vm_compute. intros [=].
Qed.

(** C6, amended. For every record in stored form, duplicate returns a
    new, unsaved record that carries every field of the record but
    these: the identity is a new one, the date is the current time, the
    status is pending, the description is "Copy of " followed by the
    record's description, trimmed of the white space around it (so
    "Copy of " and the description when that is not empty, and "Copy of"
    when it is), attachments and notes are cleared, the record is not
    reconciled and has no reconciliation date. The record itself is left
    as it was. *)
Theorem duplicate_resets_and_copies (oid : ObjectId) (now : Date)
    (t : Transaction) :
  stored_form t →
  (duplicate oid now t).1 = t
  ∧ (duplicate oid now t).2 =
    {| _id := Some oid; isNew := true;
       user := user t; account := account t;
       plaidTransactionId := plaidTransactionId t;
       amount := amount t; currency := currency t;
       type := type t; category := category t;
       description := Some (Js.trim ("Copy of " +:+ Js.template (description t)));
       merchant := merchant t; date := Some now;
       postedDate := postedDate t; status := "pending";
       tags := tags t; notes := Some "";
       attachments := []; recurring := recurring t;
       split := split t; location := location t;
       metadata := metadata t; isReconciled := false;
       reconciliationDate := None; isHidden := isHidden t;
       isArchived := isArchived t |}
  ∧ (∀ d, description t = Some d → d ≠ "" →
       description (duplicate oid now t).2 = Some ("Copy of " +:+ d))
  ∧ (description t = Some "" →
       description (duplicate oid now t).2 = Some "Copy of").
Proof.
  intros Hst.
  destruct (stored_form_paths t Hst) as (H1 & H2 & H3 & H4 & H5 & H6 & H7 & H8 & H9).
  assert (description (duplicate oid now t).2
          = Some (Js.trim ("Copy of " +:+ Js.template (description t)))) as Hdescr
    by reflexivity.
  split_and!.
  - reflexivity.
  - rewrite (Transaction_eta (duplicate oid now t).2).
    f_equal; try reflexivity; assumption.
  - intros d Hd Hne. rewrite Hdescr, Hd. cbn [Js.template].
    rewrite Hd in H4. rewrite trim_copy_of; [done| |done]. by injection H4.
  - intros Hd. rewrite Hdescr, Hd. reflexivity.
Qed.

Lemma duplicate_resets_and_copies_witness :
  let t := set__id (Some 3%N) (sample 7 "expense" (-50) "Food" "lunch" 10) in
  stored_form t
  ∧ _id (duplicate 9 5000 t).2 = Some 9%N
  ∧ description (duplicate 9 5000 t).2 = Some "Copy of lunch".
Proof.
  cbv zeta.
  assert (stored_form (set__id (Some 3%N) (sample 7 "expense" (-50) "Food" "lunch" 10)))
    as Hst by (vm_compute; reflexivity).
  destruct (duplicate_resets_and_copies 9 5000
              (set__id (Some 3%N) (sample 7 "expense" (-50) "Food" "lunch" 10)) Hst)
    as (_ & Hcopy & _ & _).
  split_and!; [exact Hst|by rewrite Hcopy|by rewrite Hcopy].
Defined.

(** ** Tags *)

Section Tags.

Implicit Types (s r : string) (c : ascii) (t : Transaction).

Lemma lower_char_space c : Js.is_space (Js.lower_char c) = Js.is_space c.
Proof. destruct c as [[] [] [] [] [] [] [] []]; reflexivity. Qed.

Lemma lower_char_idemp c : Js.lower_char (Js.lower_char c) = Js.lower_char c.
Proof. destruct c as [[] [] [] [] [] [] [] []]; reflexivity. Qed.

Lemma toLowerCase_idemp s : Js.toLowerCase (Js.toLowerCase s) = Js.toLowerCase s.
Proof.
  induction s as [|c r IH]; [done|].
  cbn. f_equal; [apply lower_char_idemp|exact IH].
Qed.

Lemma trimStart_toLowerCase s :
  Js.trimStart (Js.toLowerCase s) = Js.toLowerCase (Js.trimStart s).
Proof.
  induction s as [|c r IH]; [done|].
  cbn. rewrite lower_char_space. by destruct (Js.is_space c).
Qed.

Lemma trimEnd_toLowerCase s :
  Js.trimEnd (Js.toLowerCase s) = Js.toLowerCase (Js.trimEnd s).
Proof.
  induction s as [|c r IH]; [done|].
  cbn. fold (Js.toLowerCase r). rewrite IH, lower_char_space.
  destruct (Js.trimEnd r); cbn; [|done]. by destruct (Js.is_space c).
Qed.

Lemma trim_toLowerCase s : Js.trim (Js.toLowerCase s) = Js.toLowerCase (Js.trim s).
Proof. unfold Js.trim. by rewrite trimStart_toLowerCase, trimEnd_toLowerCase. Qed.

(** The tag that a push of the lowercased text stores. *)
Lemma tag_setter_toLowerCase s :
  tag_setter (Js.toLowerCase s) = Js.toLowerCase (Js.trim s).
Proof. unfold tag_setter. by rewrite trim_toLowerCase, toLowerCase_idemp. Qed.

Lemma fmap_fixed {A} (f : A → A) (l : list A) :
  (∀ x, x ∈ l → f x = x) → f <$> l = l.
Proof.
  induction l as [|x l IH]; intros H; [done|]. cbn. f_equal.
  - apply H, list_elem_of_here.
  - apply IH. intros y Hy. by apply H, list_elem_of_further.
Qed.

Lemma filter_fixed {A} (P : A → Prop) `{∀ x, Decision (P x)} (l : list A) :
  (∀ x, x ∈ l → P x) → filter P l = l.
Proof.
  induction l as [|x l IH]; intros HP; [done|].
  rewrite filter_cons_True by apply HP, list_elem_of_here.
  f_equal. apply IH. intros y Hy. by apply HP, list_elem_of_further.
Qed.

Lemma add_tag_tags s t :
  tags (add_tag s t) =
    if bool_decide (Js.toLowerCase s ∈ tags t) then tags t
    else tags t ++ [Js.toLowerCase (Js.trim s)].
Proof.
  unfold add_tag. case_bool_decide; [done|].
  change (tags (push_tag (Js.toLowerCase s) t))
    with (tags t ++ [tag_setter (Js.toLowerCase s)]).
  by rewrite tag_setter_toLowerCase.
Qed.

Lemma remove_tag_tags s t :
  tags (remove_tag s t)
  = tag_setter <$> filter (λ x, x ≠ Js.toLowerCase s) (tags t).
Proof. reflexivity. Qed.

Lemma addTag_unfold now docs s t :
  addTag now docs s t = save now docs (add_tag s t).
Proof. reflexivity. Qed.

Lemma removeTag_unfold now docs s t :
  removeTag now docs s t = save now docs (remove_tag s t).
Proof. reflexivity. Qed.

End Tags.

(** Away from the defect recorded under C7: for a text without white
    space around it and a record whose tags are in stored form, addTag
    stores the lowercased text once and removeTag removes it. *)
Lemma tag_operations_unpadded (now now' : Date) (docs docs' : Collection)
    (s : string) (t : Transaction) :
  (∀ x, x ∈ tags t → tag_setter x = x) →
  Js.trim s = s →
  (Js.toLowerCase s ∉ tags t →
     tags (addTag now docs s t).1 = tags t ++ [Js.toLowerCase s])
  ∧ (Js.toLowerCase s ∈ tags t → tags (addTag now docs s t).1 = tags t)
  ∧ (NoDup (tags t) → NoDup (tags (addTag now docs s t).1))
  ∧ tags (addTag now' docs' s (addTag now docs s t).1).1
    = tags (addTag now docs s t).1
  ∧ tags (removeTag now docs s t).1
    = filter (λ x, x ≠ Js.toLowerCase s) (tags t)
  ∧ (Js.toLowerCase s ∉ tags t → tags (removeTag now docs s t).1 = tags t)
  ∧ tags (removeTag now' docs' s (removeTag now docs s t).1).1
    = tags (removeTag now docs s t).1.
Proof.
  intros Hstored Htrim.
  assert (∀ n ds u, tags (addTag n ds s u).1
                    = if bool_decide (Js.toLowerCase s ∈ tags u) then tags u
                      else tags u ++ [Js.toLowerCase s]) as Hadd.
  { intros n ds u. by rewrite addTag_unfold, save_tags, add_tag_tags, Htrim. }
  assert (∀ n ds u, tags (removeTag n ds s u).1
                    = tag_setter <$> filter (λ x, x ≠ Js.toLowerCase s) (tags u)) as Hrm.
  { intros n ds u. by rewrite removeTag_unfold, save_tags, remove_tag_tags. }
  assert (tags (removeTag now docs s t).1
          = filter (λ x, x ≠ Js.toLowerCase s) (tags t)) as Hrm1.
  { rewrite Hrm. apply fmap_fixed.
    intros x [_ Hx]%list_elem_of_filter. by apply Hstored. }
  split_and!.
  - intros Hnot. by rewrite Hadd, bool_decide_eq_false_2.
  - intros Hin. by rewrite Hadd, bool_decide_eq_true_2.
  - intros Hnd. rewrite Hadd. case_bool_decide as Hin; [done|].
    apply NoDup_app. split_and!; [done| |apply NoDup_singleton].
    intros x Hx ->%list_elem_of_singleton. done.
  - rewrite (Hadd now'), !(Hadd now docs t).
    destruct (decide (Js.toLowerCase s ∈ tags t)) as [Hin|Hin].
    + rewrite (bool_decide_eq_true_2 _ Hin). cbv iota.
      by rewrite (bool_decide_eq_true_2 _ Hin).
    + rewrite (bool_decide_eq_false_2 _ Hin). cbv iota.
      rewrite bool_decide_eq_true_2; [done|].
      apply elem_of_app. right. apply list_elem_of_here.
  - exact Hrm1.
  - intros Hnot. rewrite Hrm1. apply filter_fixed. by intros x Hx ->.
  - rewrite Hrm, Hrm1, list_filter_filter.
    rewrite fmap_fixed.
    + apply list_filter_iff. tauto.
    + intros x [_ Hx]%list_elem_of_filter. by apply Hstored.
Qed.

(** C7. The code does not do what the claim says for a text with white
    space around it. The presence test of line 328 looks for the
    lowercased text, " food", and line 329 stores the text through the
    setters of the tags, trimmed, as "food": the test does not see the tag
    it stored, and adding the same text again stores "food" a second
    time. *)
Lemma addTag_padded_text_stored_twice :
  let t := sample 7 "expense" (-50) "Food" "lunch" 10 in
  tags t = []
  ∧ Js.toLowerCase " Food" = " food"
  ∧ tags (addTag 1000 [] " Food" t).1 = ["food"]
  ∧ tags (addTag 2000 [] " Food" (addTag 1000 [] " Food" t).1).1 = ["food"; "food"]
  ∧ tags (addTag 2000 [] "Food" (addTag 1000 [] "Food" t).1).1 = ["food"].
Proof. cbv zeta. split_and!; vm_compute; reflexivity. Qed.

(** ** Grouping *)

Section GroupBy.

Context `{Countable K} {A : Type}.
Variables (key : Transaction → K) (init : A) (step : A → Transaction → A).

Implicit Types (l : list Transaction) (m : gmap K A) (k : K).

Lemma group_fold_lookup l m k :
  foldl (group_add key init step) m l !! k =
    match filter (λ t, key t = k) l with
    | [] => m !! k
    | ts => Some (foldl step (default init (m !! k)) ts)
    end.
Proof.
  revert m. induction l as [|t l IH]; intros m; [done|].
  cbn [foldl]. rewrite IH. unfold group_add.
  destruct (decide (key t = k)) as [Hk|Hk].
  - rewrite filter_cons_True by done. subst k. rewrite lookup_insert_eq.
    cbn [foldl default]. by destruct (filter _ l).
  - rewrite filter_cons_False by done. by rewrite lookup_insert_ne.
Qed.

(** A key has a group exactly when some document has the key, and the
    group is the fold of [step] over the documents with that key, in
    their order. *)
Lemma group_by_lookup l k :
  group_by key init step l !! k =
    match filter (λ t, key t = k) l with
    | [] => None
    | ts => Some (foldl step init ts)
    end.
Proof.
  unfold group_by. rewrite group_fold_lookup.
  by rewrite lookup_empty.
Qed.

Lemma group_by_lookup_Some l k a :
  group_by key init step l !! k = Some a ↔
  (∃ t, t ∈ l ∧ key t = k) ∧ a = foldl step init (filter (λ t, key t = k) l).
Proof.
  rewrite group_by_lookup.
  destruct (filter (λ t, key t = k) l) as [|t ts] eqn:Hf.
  - split; [done|]. intros [(t & Ht & Hk) _].
    assert (t ∈ filter (λ t, key t = k) l) as Hin by by apply list_elem_of_filter.
    rewrite Hf in Hin. by apply elem_of_nil in Hin.
  - split.
    + intros [= <-]. split; [|done].
      assert (t ∈ filter (λ t, key t = k) l) as Hin by (rewrite Hf; left).
      apply list_elem_of_filter in Hin as [? ?]. eauto.
    + by intros [_ ->].
Qed.

End GroupBy.

(** ** Spending by category *)

Section Spending.

Implicit Types (t : Transaction) (docs : Collection) (r : SpendingRow).

Lemma spending_match_spec userId s e t :
  spending_match userId s e t ↔ expense_in_range userId s e t.
Proof.
  unfold spending_match, expense_in_range, in_range, dated.
  rewrite !andb_True, !bool_decide_spec.
  destruct (date t) as [d|].
  - rewrite andb_True, !Is_true_true, !Z.leb_le. tauto.
  - split; [by intros (_ & [])|]. by intros (_ & _ & []).
Qed.

Lemma spending_fold ts (a : Z * Z) :
  foldl spending_step a ts
  = (a.1 + Zsum (abs_amount <$> ts), a.2 + Z.of_nat (length ts)).
Proof.
  revert a. induction ts as [|t ts IH]; intros [x n].
  - cbn. f_equal; lia.
  - cbn [foldl]. rewrite IH. unfold spending_step.
    cbn [fst snd fmap list_fmap length]. rewrite Nat2Z.inj_succ.
    change (Zsum (abs_amount t :: (abs_amount <$> ts)))
      with (abs_amount t + Zsum (abs_amount <$> ts)).
    f_equal; lia.
Qed.

Global Instance spend_desc_total : Total spend_desc.
Proof. intros a b. unfold spend_desc. lia. Qed.

Global Instance spend_desc_trans : Transitive spend_desc.
Proof. intros a b c. unfold spend_desc. lia. Qed.

End Spending.

Section SpendingRows.

Variables (docs : Collection) (userId : ObjectId) (s e : Date).

Lemma spending_rows_perm :
  getSpendingByCategory docs userId s e
  ≡ₚ spending_row <$> map_to_list (spending_groups docs userId s e).
Proof. apply merge_sort_Permutation. Qed.

Lemma spending_group_filter c :
  filter (λ t, spending_key t = c) (spending_matched docs userId s e)
  = expenses_of docs userId s e c.
Proof.
  unfold spending_matched, expenses_of.
  rewrite list_filter_filter. apply list_filter_iff.
  intros t. rewrite spending_match_spec. unfold spending_key. tauto.
Qed.

Lemma spending_row_elem (r : SpendingRow) :
  r ∈ getSpendingByCategory docs userId s e ↔
  spending_groups docs userId s e !! spend_id r
  = Some (spend_totalAmount r, spend_count r).
Proof.
  rewrite spending_rows_perm, list_elem_of_fmap. split.
  - intros ([k [a n]] & -> & Hkv). by apply elem_of_map_to_list in Hkv.
  - intros Hl. exists (spend_id r, (spend_totalAmount r, spend_count r)).
    split; [by destruct r|]. by apply elem_of_map_to_list.
Qed.

Lemma spending_groups_lookup c (a : Z * Z) :
  spending_groups docs userId s e !! c = Some a ↔
  expenses_of docs userId s e c ≠ []
  ∧ a = (Zsum (abs_amount <$> expenses_of docs userId s e c),
         Z.of_nat (length (expenses_of docs userId s e c))).
Proof.
  unfold spending_groups.
  rewrite group_by_lookup_Some, spending_group_filter, spending_fold.
  cbn [fst snd]. rewrite !Z.add_0_l.
  enough ((∃ t, t ∈ spending_matched docs userId s e ∧ spending_key t = c)
          ↔ expenses_of docs userId s e c ≠ []) as -> by done.
  rewrite <- spending_group_filter. split.
  - intros (t & Ht & Hk) Hnil.
    assert (t ∈ filter (λ t, spending_key t = c)
                  (spending_matched docs userId s e)) as Hin
      by by apply list_elem_of_filter.
    rewrite Hnil in Hin. by apply elem_of_nil in Hin.
  - destruct (filter _ (spending_matched _ _ _ _)) as [|t ts] eqn:Hf; [done|].
    intros _.
    assert (t ∈ filter (λ t, spending_key t = c)
                  (spending_matched docs userId s e)) as Hin
      by (rewrite Hf; left).
    apply list_elem_of_filter in Hin as [? ?]. eauto.
Qed.

End SpendingRows.

Lemma StronglySorted_lookup_lt {A} (R : A → A → Prop) (l : list A) :
  StronglySorted R l →
  ∀ i j x y, (i < j)%nat → l !! i = Some x → l !! j = Some y → R x y.
Proof.
  induction 1 as [|a l Hl IH Ha]; intros i j x y Hij Hi Hj; [done|].
  destruct j as [|j]; [lia|]. cbn in Hj.
  destruct i as [|i]; cbn in Hi.
  - injection Hi as <-. rewrite Forall_forall in Ha.
    apply Ha. by eapply list_elem_of_lookup_2.
  - apply (IH i j); [lia|done..].
Qed.

Lemma abs_amount_cases (t : Transaction) :
  abs_amount t = match amount t with Some a => Z.abs a | None => 0 end.
Proof. unfold abs_amount. by destruct (amount t). Qed.

(** C3. getSpendingByCategory returns one row per primary category found
    among the user's expenses dated in the closed range [start, end]; the
    row carries the sum of the absolute amounts of those expenses and
    their number; transactions of another type, another user or another
    date have no part in it; no row comes before a row of a larger
    total. *)
Theorem spending_by_category (docs : Collection) (userId : ObjectId)
    (startDate endDate : Date) :
  let rows := getSpendingByCategory docs userId startDate endDate in
  let counted (c : option string) (t : Transaction) : Prop :=
    user t = Some userId ∧ type t = Some "expense"
    ∧ (∃ d, date t = Some d ∧ startDate ≤ d ≤ endDate)
    ∧ primary (category t) = c in
  NoDup (spend_id <$> rows)
  ∧ (∀ c, c ∈ spend_id <$> rows ↔ ∃ t, t ∈ docs ∧ counted c t)
  ∧ (∀ r, r ∈ rows →
       ∃ ts, ts `sublist_of` docs
         ∧ (∀ t, t ∈ ts ↔ t ∈ docs ∧ counted (spend_id r) t)
         ∧ (∀ t, counted (spend_id r) t →
              length (filter (t =.) ts) = length (filter (t =.) docs))
         ∧ spend_totalAmount r
           = foldr Z.add 0
               ((λ t, match amount t with Some a => Z.abs a | None => 0 end) <$> ts)
         ∧ spend_count r = Z.of_nat (length ts))
  ∧ (∀ i j ri rj, (i < j)%nat → rows !! i = Some ri → rows !! j = Some rj →
       spend_totalAmount rj ≤ spend_totalAmount ri).
Proof.
  cbv zeta.
  assert (∀ c t, expense_in_range userId startDate endDate t ∧ primary (category t) = c
                 ↔ user t = Some userId ∧ type t = Some "expense"
                   ∧ (∃ d, date t = Some d ∧ startDate ≤ d ≤ endDate)
                   ∧ primary (category t) = c) as Hcounted.
  { intros c t. unfold expense_in_range, dated.
    destruct (date t) as [d|];
      [|split; [intros [(_ & _ & []) _]|intros (_ & _ & (? & [=] & _) & _)]].
    split.
    - intros [(? & ? & ?) ?]. eauto 10.
    - intros (? & ? & (d' & [= <-] & ?) & ?). done. }
  split_and!.
  - rewrite spending_rows_perm, <- list_fmap_compose.
    apply (NoDup_fst_map_to_list (spending_groups docs userId startDate endDate)).
  - intros c. rewrite list_elem_of_fmap. split.
    + intros (r & -> & Hr).
      apply spending_row_elem, spending_groups_lookup in Hr as [Hne _].
      destruct (expenses_of _ _ _ _ _) as [|t ts] eqn:Hf; [done|].
      assert (t ∈ expenses_of docs userId startDate endDate (spend_id r)) as Hin
        by (rewrite Hf; left).
      apply list_elem_of_filter in Hin as [Hm ?].
      exists t. split; [done|]. by apply Hcounted.
    + intros (t & Hin & Hm).
      apply Hcounted in Hm as [Hm Hc].
      exists {| spend_id := c;
                spend_totalAmount :=
                  Zsum (abs_amount <$> expenses_of docs userId startDate endDate c);
                spend_count :=
                  Z.of_nat (length (expenses_of docs userId startDate endDate c)) |}.
      split; [done|]. apply spending_row_elem.
      cbn [spend_id spend_totalAmount spend_count].
      apply spending_groups_lookup.
      split; [|done]. intros Hnil.
      assert (t ∈ expenses_of docs userId startDate endDate c) as Ht
        by by apply list_elem_of_filter.
      rewrite Hnil in Ht. by apply elem_of_nil in Ht.
  - intros r Hr.
    apply spending_row_elem, spending_groups_lookup in Hr as [_ [= Ht Hn]].
    exists (expenses_of docs userId startDate endDate (spend_id r)).
    split_and!.
    + apply sublist_filter.
    + intros t. unfold expenses_of. rewrite list_elem_of_filter, Hcounted. tauto.
    + intros t Ht'. apply Hcounted in Ht'. unfold expenses_of.
      rewrite list_filter_filter. f_equal.
      apply list_filter_iff. intros t'. split; [tauto|].
      intros <-. tauto.
    + rewrite Ht. unfold Zsum. f_equal.
      apply list_fmap_ext. intros _ t _. apply abs_amount_cases.
    + done.
  - apply StronglySorted_lookup_lt.
    apply (StronglySorted_merge_sort spend_desc); apply _.
Qed.

(** The example of the spec: two Food expenses of 50 and 30 and a salary. *)
Example spending_by_category_example :
  getSpendingByCategory
    [ sample 7 "expense" (-50) "Food" "lunch" 100;
      sample 7 "expense" (-30) "Food" "dinner" 200;
      sample 7 "income" 1000 "Salary" "pay" 150 ] 7 0 1000
  = [ {| spend_id := Some "Food"; spend_totalAmount := 80; spend_count := 2 |} ].
Proof. vm_compute. reflexivity. Qed.

(** Rent of 500 comes before Food of 50 and 30; the salary has no row. *)
Lemma spending_by_category_witness :
  let docs := [ sample 7 "expense" (-50) "Food" "lunch" 100;
                sample 7 "expense" (-30) "Food" "dinner" 200;
                sample 7 "income" 1000 "Salary" "pay" 150;
                sample 7 "expense" (-500) "Rent" "rent" 300 ] in
  let rows := getSpendingByCategory docs 7 0 1000 in
  rows = [ {| spend_id := Some "Rent"; spend_totalAmount := 500; spend_count := 1 |};
           {| spend_id := Some "Food"; spend_totalAmount := 80; spend_count := 2 |} ]
  ∧ NoDup (spend_id <$> rows)
  ∧ (∀ i j ri rj, (i < j)%nat → rows !! i = Some ri → rows !! j = Some rj →
       spend_totalAmount rj ≤ spend_totalAmount ri).
Proof.
  cbv zeta. split; [vm_compute; reflexivity|].
  pose proof (spending_by_category
                [ sample 7 "expense" (-50) "Food" "lunch" 100;
                  sample 7 "expense" (-30) "Food" "dinner" 200;
                  sample 7 "income" 1000 "Salary" "pay" 150;
                  sample 7 "expense" (-500) "Rent" "rent" 300 ] 7 0 1000) as H.
  cbv zeta in H. destruct H as (Hnd & _ & _ & Hord).
  split; [exact Hnd|exact Hord].
Defined.

(** ** Monthly trends *)

Section Trends.

Implicit Types (t : Transaction) (docs : Collection) (r : TrendRow).

Lemma trends_match_spec userId start t :
  trends_match userId start t ↔ dated_since userId start t.
Proof.
  unfold trends_match, dated_since, since, dated.
  rewrite andb_True, bool_decide_spec.
  destruct (date t) as [d|].
  - by rewrite Is_true_true, Z.leb_le.
  - split; [by intros (_ & [])|]. by intros (_ & []).
Qed.

Lemma trends_fold ts (a : Z) :
  foldl trends_step a ts = a + Zsum (signed_amount <$> ts).
Proof.
  revert a. induction ts as [|t ts IH]; intros a.
  - cbn. lia.
  - cbn [foldl]. rewrite IH. unfold trends_step.
    cbn [fmap list_fmap].
    change (Zsum (signed_amount t :: (signed_amount <$> ts)))
      with (signed_amount t + Zsum (signed_amount <$> ts)).
    lia.
Qed.

Global Instance trend_asc_total : Total trend_asc.
Proof.
  intros [[ya ma ?] ?] [[yb mb ?] ?]. unfold trend_asc. cbn.
  destruct ya as [ya|], yb as [yb|], ma as [ma|], mb as [mb|]; cbn;
    try (destruct (Z.lt_trichotomy ya yb) as [?|[->|?]]);
    try (destruct (Z.le_ge_cases ma mb));
    auto with lia.
Qed.

Global Instance trend_asc_trans : Transitive trend_asc.
Proof.
  intros [[ya ma ?] ?] [[yb mb ?] ?] [[yc mc ?] ?]. unfold trend_asc. cbn.
  destruct ya as [ya|], yb as [yb|], yc as [yc|],
           ma as [ma|], mb as [mb|], mc as [mc|]; cbn;
    intros [?|[? ?]] [?|[? ?]]; simplify_eq; try done; auto with lia.
Qed.

(** A sort on the BSON order is chronological on rows that have a date. *)
Lemma trend_asc_chronological a b :
  is_Some (year (trend_id a)) → is_Some (month (trend_id a)) →
  is_Some (year (trend_id b)) → is_Some (month (trend_id b)) →
  trend_asc a b → chronological a b.
Proof.
  intros [ya Hya] [ma Hma] [yb Hyb] [mb Hmb]. unfold trend_asc, chronological.
  rewrite Hya, Hma, Hyb, Hmb. cbn. intros [?|[[= ->] ?]].
  - exists ya, ma, yb, mb. auto 10.
  - exists yb, ma, yb, mb. auto 10.
Qed.

Lemma StronglySorted_impl_Forall {A} (R R' : relation A) (P : A → Prop) l :
  (∀ a b, P a → P b → R a b → R' a b) →
  Forall P l → StronglySorted R l → StronglySorted R' l.
Proof.
  intros HR HP. induction 1 as [|x l Hl IH Hx]; [constructor|].
  apply Forall_cons in HP as [HPx HPl]. constructor; [by apply IH|].
  rewrite Forall_forall in Hx, HPl |- *.
  intros y Hy. apply HR; auto.
Qed.

End Trends.

Section TrendRows.

Variables (docs : Collection) (userId : ObjectId) (startDate : Date).

Lemma trends_rows_perm :
  trends_rows docs userId startDate
  ≡ₚ trends_row <$> map_to_list (trends_groups docs userId startDate).
Proof. apply merge_sort_Permutation. Qed.

Lemma trends_group_filter k :
  filter (λ t, trends_key t = k) (trends_matched docs userId startDate)
  = trend_docs docs userId startDate k.
Proof.
  unfold trends_matched, trend_docs.
  rewrite list_filter_filter. apply list_filter_iff.
  intros t. rewrite trends_match_spec. tauto.
Qed.

Lemma trends_row_elem (r : TrendRow) :
  r ∈ trends_rows docs userId startDate ↔
  trends_groups docs userId startDate !! trend_id r = Some (trend_totalAmount r).
Proof.
  rewrite trends_rows_perm, list_elem_of_fmap. split.
  - intros ([k a] & -> & Hkv). by apply elem_of_map_to_list in Hkv.
  - intros Hl. exists (trend_id r, trend_totalAmount r).
    split; [by destruct r|]. by apply elem_of_map_to_list.
Qed.

Lemma trends_groups_lookup k (a : Z) :
  trends_groups docs userId startDate !! k = Some a ↔
  trend_docs docs userId startDate k ≠ []
  ∧ a = Zsum (signed_amount <$> trend_docs docs userId startDate k).
Proof.
  unfold trends_groups.
  rewrite group_by_lookup_Some, trends_group_filter, trends_fold.
  rewrite Z.add_0_l.
  enough ((∃ t, t ∈ trends_matched docs userId startDate ∧ trends_key t = k)
          ↔ trend_docs docs userId startDate k ≠ []) as -> by done.
  rewrite <- trends_group_filter. split.
  - intros (t & Ht & Hk) Hnil.
    assert (t ∈ filter (λ t, trends_key t = k)
                  (trends_matched docs userId startDate)) as Hin
      by by apply list_elem_of_filter.
    rewrite Hnil in Hin. by apply elem_of_nil in Hin.
  - destruct (filter _ (trends_matched _ _ _)) as [|t ts] eqn:Hf; [done|].
    intros _.
    assert (t ∈ filter (λ t, trends_key t = k)
                  (trends_matched docs userId startDate)) as Hin
      by (rewrite Hf; left).
    apply list_elem_of_filter in Hin as [? ?]. eauto.
Qed.

Lemma trends_row_doc r :
  r ∈ trends_rows docs userId startDate →
  ∃ t, t ∈ docs ∧ dated_since userId startDate t ∧ trends_key t = trend_id r.
Proof.
  intros [Hne _]%trends_row_elem%trends_groups_lookup.
  destruct (trend_docs docs userId startDate (trend_id r)) as [|t ts] eqn:Hf;
    [done|].
  assert (t ∈ trend_docs docs userId startDate (trend_id r)) as Hin
    by (rewrite Hf; left).
  apply list_elem_of_filter in Hin as [[? ?] ?]. eauto.
Qed.

End TrendRows.

(** C4, as the spec words it, fails: a transaction dated after the
    current time is not within the trailing months, and it is grouped
    all the same. Here the current time is 2024-03-31 12:00 UTC, the
    window is three months and the transaction is dated 2024-05-01. *)
Lemma monthly_trends_counterexample :
  let now := 1711886400000 in
  let t := sample 7 "expense" (-500) "Rent" "rent" 1714521600000 in
  ¬ within_trailing_months utc now 3 1714521600000
  ∧ getMonthlyTrends utc now [t] 7 (Some 3)
    = [ {| trend_id := {| year := Some 2024; month := Some 5;
                          trend_type := Some "expense" |};
           trend_totalAmount := -500 |} ].
Proof.
  cbv zeta. split.
  - unfold within_trailing_months. intros [_ H]. revert H.
    apply Z.lt_nge. reflexivity.
  - vm_compute. reflexivity.
Qed.

(** C4, amended. getMonthlyTrends(user, N), with N = 12 when left out,
    takes the user's transactions dated at or after the start date, which
    is the current time moved back N calendar months, later-dated
    transactions included; it returns one row per (year, month, type)
    found among them, the row carrying the sum of their signed amounts;
    the rows come in chronological order, year then month ascending. *)
Theorem monthly_trends (tz : TimeZone) (now : Date) (docs : Collection)
    (userId : ObjectId) (months : option Z) :
  let startDate := trends_start tz now (default 12 months) in
  let rows := getMonthlyTrends tz now docs userId months in
  NoDup (trend_id <$> rows)
  ∧ (∀ k, k ∈ trend_id <$> rows ↔
       ∃ t, t ∈ docs ∧ dated_since userId startDate t ∧ trends_key t = k)
  ∧ (∀ r, r ∈ rows →
       trend_totalAmount r
       = Zsum (signed_amount <$> trend_docs docs userId startDate (trend_id r)))
  ∧ StronglySorted chronological rows.
Proof.
  cbv zeta. unfold getMonthlyTrends.
  generalize (trends_start tz now (default 12 months)). intros startDate.
  split_and!.
  - rewrite trends_rows_perm, <- list_fmap_compose.
    apply (NoDup_fst_map_to_list (trends_groups docs userId startDate)).
  - intros k. rewrite list_elem_of_fmap. split.
    + intros (r & -> & Hr). by apply trends_row_doc.
    + intros (t & Hin & Hm & Hk).
      exists {| trend_id := k;
                trend_totalAmount :=
                  Zsum (signed_amount <$> trend_docs docs userId startDate k) |}.
      split; [done|]. apply trends_row_elem.
      cbn [trend_id trend_totalAmount]. apply trends_groups_lookup.
      split; [|done]. intros Hnil.
      assert (t ∈ trend_docs docs userId startDate k) as Ht
        by by apply list_elem_of_filter.
      rewrite Hnil in Ht. by apply elem_of_nil in Ht.
  - intros r Hr. by apply trends_row_elem, trends_groups_lookup in Hr as [_ ->].
  - apply (StronglySorted_impl_Forall trend_asc chronological
             (λ r, is_Some (year (trend_id r)) ∧ is_Some (month (trend_id r)))).
    + intros a b [? ?] [? ?]. by apply trend_asc_chronological.
    + apply Forall_forall. intros r Hr.
      destruct (trends_row_doc _ _ _ r Hr) as (t & _ & (_ & Hd) & <-).
      unfold trends_key, dated in *. cbn. destruct (date t); [|done]. cbn. eauto.
    + apply StronglySorted_merge_sort; apply _.
Qed.

(** The example of the spec: an income of 1000 in one month, an expense
    of 50 in the next. *)
Example monthly_trends_example :
  getMonthlyTrends utc 1711886400000
    [ sample 7 "expense" (-50) "Food" "lunch" 1709251200000;
      sample 7 "income" 1000 "Salary" "pay" 1706745600000 ] 7 None
  = [ {| trend_id := {| year := Some 2024; month := Some 2;
                        trend_type := Some "income" |};
         trend_totalAmount := 1000 |};
      {| trend_id := {| year := Some 2024; month := Some 3;
                        trend_type := Some "expense" |};
         trend_totalAmount := -50 |} ].
Proof. vm_compute. reflexivity. Qed.

(** * Further properties of the model *)

(** ** The constraints of the schema *)

Section Conforms.

Implicit Types (t : Transaction) (sp : SchemaPath) (v : Validator).

Lemma validate_path_None_iff t sp :
  validate_path t sp = None ↔ Forall (λ v, v_passes v t = true) (sp_validators sp).
Proof.
  rewrite Forall_forall. split.
  - intros Hn v Hv. by apply (validate_path_None t sp).
  - intros Hall. unfold validate_path.
    destruct (List.find _ _) as [v|] eqn:Hf; [|done].
    apply find_some in Hf as [Hin Hv]. apply list_elem_of_In in Hin.
    rewrite (Hall v Hin) in Hv. done.
Qed.

Lemma validate_nil_iff t :
  validate t = [] ↔
  Forall (λ sp, Forall (λ v, v_passes v t = true) (sp_validators sp)) schema_paths.
Proof.
  rewrite Forall_forall. split.
  - intros Hv sp Hsp. apply validate_path_None_iff. by apply validate_nil_path.
  - intros Hall. unfold validate.
    destruct (omap (validate_path t) schema_paths) as [|e es] eqn:Ho; [done|].
    assert (e ∈ omap (validate_path t) schema_paths) as Hin by (rewrite Ho; left).
    apply list_elem_of_omap in Hin as (sp & Hsp & He).
    apply Hall, validate_path_None_iff in Hsp. congruence.
Qed.

Lemma present_is_Some {A} (o : option A) : present o = true ↔ is_Some o.
Proof.
  destruct o; cbn.
  - split; [eauto|done].
  - split; [done|]. by intros [? [=]].
Qed.

Lemma present_string_non_empty (o : option string) :
  present_string o = true ↔ non_empty o.
Proof.
  destruct o as [s|]; cbn; [|done].
  rewrite negb_true_iff, bool_decide_eq_false. done.
Qed.

Lemma enum_passes path get values t :
  v_passes (enum path get values) t = true ↔ one_of values (get t).
Proof. cbn. destruct (get t); cbn; [|done]. apply bool_decide_eq_true. Qed.

Lemma maxlength_passes get n msg t :
  v_passes (maxlength get n msg) t = true ↔ at_most n (get t).
Proof. cbn. destruct (get t); cbn; [|done]. apply Nat.leb_le. Qed.

Lemma amount_passes t :
  present (amount t) = true ∧ v_passes amount_not_zero t = true ↔
  ∃ a, amount t = Some a ∧ a ≠ 0.
Proof.
  cbn. destruct (amount t) as [a|]; cbn.
  - rewrite negb_true_iff, Z.eqb_neq. split.
    + intros [_ ?]. eauto.
    + intros (? & [= <-] & ?). done.
  - split; [by intros [[=] _]|]. by intros (? & [=] & _).
Qed.

End Conforms.

(** X1. A document passes validation exactly when it meets every
    constraint the schema declares: user, account and date present; a
    non-zero amount; currency, type, status and frequency among their
    enumerated values; primary category and description not empty; the
    description, the merchant name and the notes within 200, 100 and 500
    characters; a recurrence interval of at least 1. *)
Theorem validate_nil_conforms (t : Transaction) :
  validate t = [] ↔ conforms t.
Proof.
  rewrite validate_nil_iff. unfold schema_paths, conforms.
  repeat rewrite Forall_cons. rewrite Forall_nil.
  unfold user_path, account_path, amount_path, currency_path, type_path,
    category_primary_path, description_path, merchant_name_path, date_path,
    status_path, notes_path, recurring_frequency_path, recurring_interval_path.
  cbn [sp_validators].
  repeat rewrite Forall_cons. repeat rewrite Forall_nil.
  rewrite !enum_passes, !maxlength_passes.
  cbn [v_passes required interval_min one_of].
  rewrite !present_is_Some, !present_string_non_empty, Z.leb_le.
  pose proof (amount_passes t) as Ha. cbn [v_passes required] in Ha.
  rewrite present_is_Some in Ha. tauto.
Qed.

(** ** What a save changes *)

Section Frame.

Implicit Types (t : Transaction) (now : Date).

Lemma normalize_amount_signed_for t :
  amount (normalize_amount_sign t) = signed_for (type t) <$> amount t.
Proof.
  rewrite normalize_amount_sign_amount. unfold signed_for.
  destruct (amount t) as [a|]; [|done]. cbn.
  destruct (Z.ltb_spec a 0), (Z.ltb_spec 0 a);
    repeat case_bool_decide; cbn; try congruence; f_equal; lia.
Qed.

Lemma pre_save_amount now t :
  amount (pre_save now t) = signed_for (type t) <$> amount t.
Proof.
  by rewrite pre_save_unfold, normalize_amount_signed_for,
    set_posted_date_type, set_posted_date_amount.
Qed.

Lemma pre_save_stamped now t :
  postedDate (pre_save now t) = stamped now (status t) (postedDate t).
Proof.
  rewrite pre_save_postedDate. unfold stamped.
  case_bool_decide; [|done]. by destruct (postedDate t).
Qed.

Ltac hook_field t :=
  first
    [ rewrite ?pre_save_unfold; unfold normalize_amount_sign, set_posted_date;
      destruct t; cbn; by repeat case_match
    | reflexivity ].

(** The hooks rewrite the amount and the posted date and nothing else. *)
Lemma pre_save_frame now t :
  pre_save now t =
  set_postedDate (stamped now (status t) (postedDate t))
    (set_amount (signed_for (type t) <$> amount t) t).
Proof.
  rewrite (Transaction_eta (pre_save now t)).
  rewrite pre_save_amount, pre_save_stamped.
  unfold set_postedDate, set_amount. cbn.
  f_equal; hook_field t.
Qed.

End Frame.

Section HooksKeepValidity.

Implicit Types (t : Transaction) (now : Date).

Lemma omap_ext_in {A B} (f g : A → option B) (l : list A) :
  (∀ x, x ∈ l → f x = g x) → omap f l = omap g l.
Proof.
  induction l as [|x l IH]; intros H; [done|]. cbn.
  rewrite (H x) by apply list_elem_of_here.
  rewrite IH; [done|]. intros y Hy. apply H. by apply list_elem_of_further.
Qed.

Lemma validate_path_ext t t' (sp : SchemaPath) :
  Forall (λ v, v_passes v t' = v_passes v t ∧ v_message v t' = v_message v t)
    (sp_validators sp) →
  validate_path t' sp = validate_path t sp.
Proof.
  unfold validate_path. generalize (sp_path sp) as path.
  induction (sp_validators sp) as [|v vs IH]; intros path Hvs; [done|].
  apply Forall_cons in Hvs as [[Hp Hm] Hvs]. cbn [List.find].
  rewrite Hp. destruct (negb (v_passes v t)); [|by apply IH].
  cbn. unfold error_of. by rewrite Hm.
Qed.

(** Validation does not look at the posted date, and of the amount it
    looks only at whether it is there and whether it is zero. *)
Lemma validate_amount_frame t (f : Z → Z) (p : option Date) :
  (∀ a, f a = 0 ↔ a = 0) →
  validate (set_postedDate p (set_amount (f <$> amount t) t)) = validate t.
Proof.
  intros Hf. unfold validate. apply omap_ext_in. intros sp Hsp.
  apply validate_path_ext.
  unfold schema_paths in Hsp.
  rewrite !elem_of_cons, elem_of_nil in Hsp.
  destruct_or!; try done; subst sp;
    try (repeat constructor; fail).
  unfold amount_path. cbn [sp_validators].
  repeat constructor.
  all: cbn [v_passes required amount_not_zero];
    unfold set_postedDate, set_amount; cbn [amount];
    destruct (amount t) as [a|]; [|done]; cbn; try done.
  destruct (Z.eqb_spec (f a) 0) as [H0|H0], (Z.eqb_spec a 0) as [H1|H1];
    try done; exfalso; [apply H1, Hf, H0 | apply H0, Hf, H1].
Qed.

Lemma signed_for_zero ty a : signed_for ty a = 0 ↔ a = 0.
Proof. unfold signed_for. repeat case_bool_decide; lia. Qed.

(** The hooks change nothing validation looks at. *)
Lemma validate_pre_save now t : validate (pre_save now t) = validate t.
Proof.
  rewrite pre_save_frame. apply validate_amount_frame, signed_for_zero.
Qed.

End HooksKeepValidity.

(** ** The find queries *)

Section Find.

Implicit Types (t : Transaction) (docs : Collection) (userId : ObjectId).

Global Instance bson_le_total : Total bson_le.
Proof. intros [a|] [b|]; simpl; try tauto. lia. Qed.

Global Instance bson_le_trans : Transitive bson_le.
Proof. intros [a|] [b|] [c|]; simpl; try tauto. lia. Qed.

Global Instance date_desc_total : Total date_desc.
Proof. intros a b. unfold date_desc. destruct (total bson_le (date a) (date b)); tauto. Qed.

Global Instance date_desc_trans : Transitive date_desc.
Proof. intros a b c Hab Hbc. unfold date_desc in *. by etrans. Qed.

Lemma range_match_spec userId s e t :
  range_match userId s e t ↔ in_window userId s e t.
Proof.
  unfold range_match, in_window, in_range, dated.
  rewrite andb_True, bool_decide_spec.
  destruct (date t) as [d|].
  - rewrite andb_True, !Is_true_true, !Z.leb_le. tauto.
  - split; [by intros (_ & [])|]. by intros (_ & []).
Qed.

Lemma category_match_spec userId cat t :
  category_match userId cat t ↔ in_category userId cat t.
Proof.
  unfold category_match, in_category.
  by rewrite andb_True, !bool_decide_spec.
Qed.

(** In a sorted list an earlier position is in order with a later one. *)
Lemma StronglySorted_lookup {A} (R : relation A) (l : list A) (i j : nat) x y :
  StronglySorted R l → (i < j)%nat → l !! i = Some x → l !! j = Some y → R x y.
Proof.
  intros Hs. revert i j. induction Hs as [|a l Hs IH Hall]; intros i j Hij Hi Hj.
  - by rewrite lookup_nil in Hi.
  - destruct j as [|j]; [lia|]. cbn in Hj. destruct i as [|i].
    + cbn in Hi. injection Hi as <-.
      eapply Forall_forall in Hall; [done|]. by eapply list_elem_of_lookup_2.
    + cbn in Hi. apply (IH i j); [lia|done..].
Qed.

End Find.

(** X2. findByUserAndDateRange returns the documents of the user dated in
    the closed range, each as often as the collection holds it and no
    other, the later dates first: of two documents of the result the one
    that comes first is dated at or after the other. *)
Theorem findByUserAndDateRange_sorted_window (docs : Collection)
    (userId : ObjectId) (startDate endDate : Date) :
  let res := findByUserAndDateRange docs userId startDate endDate in
  res ≡ₚ filter (in_window userId startDate endDate) docs
  ∧ (∀ t, t ∈ res ↔ t ∈ docs ∧ in_window userId startDate endDate t)
  ∧ (∀ (i j : nat) x y, (i < j)%nat → res !! i = Some x → res !! j = Some y →
       ∃ dx dy, date x = Some dx ∧ date y = Some dy ∧ dy ≤ dx).
Proof.
  cbv zeta. unfold findByUserAndDateRange.
  assert (filter (λ t, range_match userId startDate endDate t) docs
          = filter (in_window userId startDate endDate) docs) as ->.
  { apply list_filter_iff. intros t. apply range_match_spec. }
  pose proof (merge_sort_Permutation date_desc
    (filter (in_window userId startDate endDate) docs)) as Hperm.
  assert (∀ t, t ∈ merge_sort date_desc
                 (filter (in_window userId startDate endDate) docs)
               ↔ t ∈ docs ∧ in_window userId startDate endDate t) as Hin.
  { intros t. rewrite Hperm, list_elem_of_filter. tauto. }
  split_and!; [done|done|].
  intros i j x y Hij Hx Hy.
  assert (date_desc x y) as Hxy.
  { eapply StronglySorted_lookup; [|done..].
    apply StronglySorted_merge_sort; apply _. }
  apply list_elem_of_lookup_2, Hin in Hx as [_ [_ Hdx]].
  apply list_elem_of_lookup_2, Hin in Hy as [_ [_ Hdy]].
  unfold date_desc, dated in *.
  destruct (date x) as [dx|]; [|done]. destruct (date y) as [dy|]; [|done].
  exists dx, dy. split_and!; done.
Qed.

(** X3. findByCategory returns documents of the user filed under the
    category, the later dates first, and never more than the limit asks
    for (50 when the caller gives none; 0 lifts the limit): the result has
    as many documents as there are matches, up to the limit, and a match
    left out is dated no later than any document returned. *)
Theorem findByCategory_latest (docs : Collection) (userId : ObjectId)
    (cat : string) (lim : option Z) :
  let n := default 50 lim in
  let res := findByCategory docs userId cat lim in
  let matches := filter (in_category userId cat) docs in
  res ⊆+ matches
  ∧ StronglySorted date_desc res
  ∧ length res = (if n =? 0 then length matches
                  else Nat.min (Z.to_nat (Z.abs n)) (length matches))
  ∧ (∀ t r, t ∈ matches → t ∉ res → r ∈ res → bson_le (date t) (date r)).
Proof.
  cbv zeta. unfold findByCategory.
  assert (filter (λ t, category_match userId cat t) docs
          = filter (in_category userId cat) docs) as ->.
  { apply list_filter_iff. intros t. apply category_match_spec. }
  set (matches := filter (in_category userId cat) docs).
  pose proof (merge_sort_Permutation date_desc matches) as Hperm.
  assert (StronglySorted date_desc (merge_sort date_desc matches)) as Hsorted
    by (apply StronglySorted_merge_sort; apply _).
  revert Hperm Hsorted. generalize (merge_sort date_desc matches). intros sorted Hperm Hsorted.
  unfold limit. destruct (default 50 lim =? 0).
  - split_and!; [by rewrite Hperm|done|by rewrite Hperm|].
    intros t r Ht Hnot. by rewrite Hperm in Hnot.
  - generalize (Z.to_nat (Z.abs (default 50 lim))). intros k.
    rewrite <- (take_drop k sorted) in Hperm, Hsorted.
    split_and!.
    + rewrite <- Hperm. by apply submseteq_inserts_r.
    + by apply StronglySorted_app_1_l in Hsorted.
    + rewrite length_take. f_equal. rewrite <- Hperm.
      by rewrite take_drop.
    + intros t r Ht Hnot Hr. rewrite <- Hperm in Ht.
      apply elem_of_app in Ht as [Ht|Ht]; [done|].
      by apply (StronglySorted_app_1_elem_of _ _ _ r t Hsorted).
Qed.

(** ** Totals over the groups *)

Section GroupTotals.

Context `{Countable K} {A : Type}.
Variables (key : Transaction → K) (init : A) (step : A → Transaction → A).
Variables (measure : A → Z) (weight : Transaction → Z).
Hypothesis measure_init : measure init = 0.
Hypothesis measure_step : ∀ a t, measure (step a t) = measure a + weight t.

Implicit Types (l : list Transaction) (m : gmap K A).

Lemma Zsum_cons (x : Z) (l : list Z) : Zsum (x :: l) = x + Zsum l.
Proof. reflexivity. Qed.

Lemma Zsum_app (l1 l2 : list Z) : Zsum (l1 ++ l2) = Zsum l1 + Zsum l2.
Proof. unfold Zsum. induction l1 as [|x l1 IH]; cbn; [done|]. rewrite IH. lia. Qed.

Lemma Zsum_Permutation (l1 l2 : list Z) : l1 ≡ₚ l2 → Zsum l1 = Zsum l2.
Proof. unfold Zsum. induction 1; cbn; lia. Qed.

Lemma group_add_total m t :
  Zsum ((λ kv, measure kv.2) <$> map_to_list (group_add key init step m t))
  = Zsum ((λ kv, measure kv.2) <$> map_to_list m) + weight t.
Proof.
  unfold group_add. destruct (m !! key t) as [a|] eqn:Hk; cbn [default].
  - rewrite <- (insert_delete_eq m).
    rewrite (Zsum_Permutation _ _
      (fmap_Permutation _ _ _ (map_to_list_insert _ _ _ (lookup_delete_eq _ _)))).
    rewrite <- (Zsum_Permutation _ _
      (fmap_Permutation (λ kv, measure kv.2) _ _ (map_to_list_delete _ _ _ Hk))).
    rewrite !fmap_cons, !Zsum_cons. cbn [snd]. rewrite measure_step. unfold id. lia.
  - rewrite (Zsum_Permutation _ _
      (fmap_Permutation _ _ _ (map_to_list_insert _ _ _ Hk))).
    rewrite fmap_cons, Zsum_cons. cbn [snd]. rewrite measure_step. unfold id. rewrite measure_init. lia.
Qed.

(** A measure that every step raises by the weight of its document adds
    up, over the groups, to the weights of all the documents. *)
Lemma group_by_total l :
  Zsum ((λ kv, measure kv.2) <$> map_to_list (group_by key init step l))
  = Zsum (weight <$> l).
Proof.
  unfold group_by.
  enough (∀ m, Zsum ((λ kv, measure kv.2) <$> map_to_list (foldl (group_add key init step) m l))
               = Zsum ((λ kv, measure kv.2) <$> map_to_list m) + Zsum (weight <$> l)) as ->.
  { by rewrite map_to_list_empty. }
  induction l as [|t l IH]; intros m; cbn [foldl].
  - cbn. lia.
  - rewrite IH, group_add_total, fmap_cons, Zsum_cons. lia.
Qed.

End GroupTotals.

Section Totals.

Variables (docs : Collection) (userId : ObjectId).

Lemma spending_matched_filter (s e : Date) :
  spending_matched docs userId s e = filter (expense_in_range userId s e) docs.
Proof.
  unfold spending_matched. apply list_filter_iff.
  intros t. apply spending_match_spec.
Qed.

Lemma trends_matched_filter (startDate : Date) :
  trends_matched docs userId startDate = filter (dated_since userId startDate) docs.
Proof.
  unfold trends_matched. apply list_filter_iff.
  intros t. apply trends_match_spec.
Qed.

Lemma abs_amount_nonneg (ts : list Transaction) : 0 ≤ Zsum (abs_amount <$> ts).
Proof.
  induction ts as [|t ts IH]; [done|].
  rewrite fmap_cons, Zsum_cons. unfold abs_amount at 1.
  destruct (amount t); cbn; lia.
Qed.

End Totals.

(** X4. The rows of getSpendingByCategory share out the user's expenses
    of the range: their totals add up to the sum of the absolute amounts
    of those expenses and their counts to the number of them, so no
    expense is counted twice or left out; every row counts at least one
    expense and has a total of at least 0; there is no row exactly when
    there is no such expense. *)
Theorem spending_rows_partition (docs : Collection) (userId : ObjectId)
    (startDate endDate : Date) :
  let rows := getSpendingByCategory docs userId startDate endDate in
  let expenses := filter (expense_in_range userId startDate endDate) docs in
  Zsum (spend_totalAmount <$> rows) = Zsum (abs_amount <$> expenses)
  ∧ Zsum (spend_count <$> rows) = Z.of_nat (length expenses)
  ∧ (∀ r, r ∈ rows → 1 ≤ spend_count r ∧ 0 ≤ spend_totalAmount r)
  ∧ (rows = [] ↔ expenses = []).
Proof.
  cbv zeta.
  assert (∀ r, r ∈ getSpendingByCategory docs userId startDate endDate →
            1 ≤ spend_count r ∧ 0 ≤ spend_totalAmount r) as Hrow.
  { intros r Hr.
    apply spending_row_elem, spending_groups_lookup in Hr as [Hne [= -> ->]].
    split; [|apply abs_amount_nonneg].
    destruct (expenses_of _ _ _ _ _) as [|t ts]; [done|]. cbn [length]. lia. }
  assert (Zsum (spend_count <$> getSpendingByCategory docs userId startDate endDate)
          = Z.of_nat (length (filter (expense_in_range userId startDate endDate) docs)))
    as Hcount.
  { rewrite (Zsum_Permutation _ _
      (fmap_Permutation _ _ _ (spending_rows_perm docs userId startDate endDate))).
    rewrite <- list_fmap_compose. unfold spending_groups.
    rewrite <- spending_matched_filter.
    rewrite (group_by_total spending_key (0, 0) spending_step snd (λ _, 1));
      [|done|done].
    generalize (spending_matched docs userId startDate endDate). intros ts.
    induction ts as [|t ts IH]; [done|].
    rewrite fmap_cons, Zsum_cons, IH. cbn [length]. lia. }
  split_and!; [|done|done|].
  - rewrite (Zsum_Permutation _ _
      (fmap_Permutation _ _ _ (spending_rows_perm docs userId startDate endDate))).
    rewrite <- list_fmap_compose. unfold spending_groups.
    rewrite <- spending_matched_filter.
    by rewrite (group_by_total spending_key (0, 0) spending_step fst abs_amount).
  - split.
    + intros Hnil. rewrite Hnil in Hcount. cbn in Hcount.
      destruct (filter _ docs); [done|]. cbn [length] in Hcount. lia.
    + intros Hnil. rewrite Hnil in Hcount. cbn [length] in Hcount.
      destruct (getSpendingByCategory _ _ _ _) as [|r rows]; [done|].
      destruct (Hrow r) as [H1 H0]; [left|].
      assert (0 ≤ Zsum (spend_count <$> rows)) as Hrest.
      { clear Hcount H1 H0. induction rows as [|r' rows IH]; [done|].
        rewrite fmap_cons, Zsum_cons.
        destruct (Hrow r') as [? _]; [right; left|].
        assert (0 ≤ Zsum (spend_count <$> rows)); [|lia].
        apply IH. intros r'' Hr''. apply Hrow.
        apply elem_of_cons in Hr'' as [->|Hr'']; [left|right; by right]. }
      rewrite fmap_cons, Zsum_cons in Hcount. lia.
Qed.

(** X5. The totals of the rows of getMonthlyTrends add up to the sum of
    the signed amounts of the user's transactions dated at or after the
    start date: the net of income and spending over the window, with no
    transaction counted twice or left out. *)
Theorem monthly_trends_net (tz : TimeZone) (now : Date) (docs : Collection)
    (userId : ObjectId) (months : option Z) :
  let startDate := trends_start tz now (default 12 months) in
  Zsum (trend_totalAmount <$> getMonthlyTrends tz now docs userId months)
  = Zsum (signed_amount <$> filter (dated_since userId startDate) docs).
Proof.
  cbv zeta. unfold getMonthlyTrends.
  generalize (trends_start tz now (default 12 months)). intros startDate.
  rewrite (Zsum_Permutation _ _
    (fmap_Permutation _ _ _ (trends_rows_perm docs userId startDate))).
  rewrite <- list_fmap_compose. unfold trends_groups.
  rewrite <- trends_matched_filter.
  by rewrite (group_by_total trends_key 0 trends_step id signed_amount).
Qed.

(** ** The queries and the documents of other users *)

(** X6. No query reads the documents of another user: each of the four
    gives on the whole collection what it gives on the documents of the
    user alone. *)
Theorem queries_read_own_documents (tz : TimeZone) (now : Date) (docs : Collection)
    (userId : ObjectId) (startDate endDate : Date) (cat : string)
    (lim months : option Z) :
  findByUserAndDateRange docs userId startDate endDate
  = findByUserAndDateRange (owned_by userId docs) userId startDate endDate
  ∧ findByCategory docs userId cat lim
    = findByCategory (owned_by userId docs) userId cat lim
  ∧ getSpendingByCategory docs userId startDate endDate
    = getSpendingByCategory (owned_by userId docs) userId startDate endDate
  ∧ getMonthlyTrends tz now docs userId months
    = getMonthlyTrends tz now (owned_by userId docs) userId months.
Proof.
  unfold findByUserAndDateRange, findByCategory, getSpendingByCategory,
    getMonthlyTrends, trends_rows, spending_groups, trends_groups,
    spending_matched, trends_matched, owned_by.
  rewrite !list_filter_filter.
  assert (∀ (P : Transaction → bool),
            (∀ t, P t → user t = Some userId) →
            filter (λ t, P t ∧ user t = Some userId) docs = filter (λ t, P t) docs)
    as Hown.
  { intros P HP. apply list_filter_iff. intros t. specialize (HP t). tauto. }
  rewrite !Hown; [done|..]; intros t.
  - unfold trends_match. rewrite andb_True, bool_decide_spec. tauto.
  - unfold spending_match. rewrite !andb_True, bool_decide_spec. tauto.
  - unfold category_match. rewrite andb_True, bool_decide_spec. tauto.
  - unfold range_match. rewrite andb_True, bool_decide_spec. tauto.
Qed.

(** ** The effect of a save *)

Section SaveEffect.

Implicit Types (t : Transaction) (now : Date) (docs : Collection).

Lemma set_isNew_same t : set_isNew (isNew t) t = t.
Proof. by destruct t. Qed.

(** The document a successful save leaves is the one the hooks made,
    marked as stored. *)
Lemma save_inr_memory now docs t t' docs' :
  save now docs t = (t', inr docs') → t' = set_isNew false (pre_save now t).
Proof.
  unfold save.
  destruct (validate t) as [|e es]; [|done].
  destruct (_id (pre_save now t)); [|done].
  destruct (isNew (pre_save now t)) eqn:Hnew.
  - destruct (insertOne _ _) as [?|ds]; [done|]. by intros [= <- <-].
  - destruct (updateOne _ _) as [?|ds]; [done|]. intros [= <- <-].
    by rewrite <- Hnew, set_isNew_same.
Qed.

(** The document a save leaves in memory, whatever its outcome. *)
Lemma save_memory now docs t :
  (save now docs t).1 = t
  ∨ (save now docs t).1 = pre_save now t
  ∨ (save now docs t).1 = set_isNew false (pre_save now t).
Proof.
  destruct (validate t) as [|e es] eqn:Hv.
  - right. by apply save_valid_memory.
  - left. rewrite save_invalid; [done|]. by rewrite Hv.
Qed.

Lemma validate_set_isNew (b : bool) t : validate (set_isNew b t) = validate t.
Proof.
  unfold validate. apply omap_ext_in. intros sp Hsp.
  apply validate_path_ext.
  unfold schema_paths in Hsp.
  rewrite !elem_of_cons, elem_of_nil in Hsp.
  destruct_or!; try done; subst sp; repeat constructor.
Qed.

Lemma signed_for_idemp ty a : signed_for ty (signed_for ty a) = signed_for ty a.
Proof. unfold signed_for. repeat case_bool_decide; lia. Qed.

Lemma stamped_idemp now now' st p :
  stamped now' st (stamped now st p) = stamped now st p.
Proof. unfold stamped. case_bool_decide; [|done]. by destruct p. Qed.

End SaveEffect.

(** X7. Of the paths the schema declares field by field (lines 4-177)
    and the [isNew] flag, a successful save changes three and no other:
    the amount takes the sign its type asks for (the absolute value for
    an income, its opposite for an expense, the amount itself for any
    other type), the posted date of a posted document without one becomes
    the time of the save, and the document is no longer new. The
    [createdAt] and [updatedAt] stamps that the [timestamps] option of
    line 179 keeps are no path of [Transaction]: of them the theorem says
    nothing. *)
Theorem save_changes_three_paths (now : Date) (docs : Collection)
    (t t' : Transaction) (docs' : Collection) :
  save now docs t = (t', inr docs') →
  t' = set_isNew false
         (set_postedDate (stamped now (status t) (postedDate t))
           (set_amount (signed_for (type t) <$> amount t) t)).
Proof.
  rewrite <- pre_save_frame. unfold save.
  destruct (validate t) as [|e es]; [|done].
  destruct (_id (pre_save now t)); [|done].
  destruct (isNew (pre_save now t)) eqn:Hnew.
  - (* a new document: inserted, and marked as stored *)
    destruct (insertOne _ _) as [?|ds]; [done|]. by intros [= <- <-].
  - (* a stored document: updated, and it was not new *)
    destruct (updateOne _ _) as [?|ds]; [done|]. intros [= <- <-].
    by rewrite <- Hnew, set_isNew_same.
Qed.

Lemma save_changes_three_paths_witness :
  let t := set__id (Some 5%N) (sample 7 "expense" 50 "Food" "lunch" 10) in
  let t' := set_isNew false (set_amount (Some (-50)) t) in
  save 1000 [] t = (t', inr [t'])
  ∧ t' = set_isNew false
           (set_postedDate (stamped 1000 (status t) (postedDate t))
             (set_amount (signed_for (type t) <$> amount t) t)).
Proof.
  cbv zeta. split; [vm_compute; reflexivity|].
  apply (save_changes_three_paths 1000 []
           (set__id (Some 5%N) (sample 7 "expense" 50 "Food" "lunch" 10)) _
           [set_isNew false (set_amount (Some (-50))
              (set__id (Some 5%N) (sample 7 "expense" 50 "Food" "lunch" 10)))]).
  vm_compute. reflexivity.
Defined.

(** X8. Saving again changes nothing more: the document a successful save
    leaves is left as it is by any later save, at whatever time, into
    whatever collection and whatever the outcome of that save; so a
    posted date once set is never moved and a sign once fixed stays. *)
Theorem save_again_changes_nothing (now now' : Date) (docs docs' docs'' : Collection)
    (t t' : Transaction) :
  save now docs t = (t', inr docs') →
  (save now' docs'' t').1 = t'.
Proof.
  intros Hs.
  pose proof (save_inr_memory _ _ _ _ _ Hs) as ->.
  assert (pre_save now' (set_isNew false (pre_save now t))
          = set_isNew false (pre_save now t)) as Hfix.
  { rewrite pre_save_frame. cbn [status postedDate type amount set_isNew].
    rewrite pre_save_amount, pre_save_stamped, pre_save_status.
    assert (type (pre_save now t) = type t) as ->.
    { by rewrite pre_save_unfold, normalize_amount_sign_type, set_posted_date_type. }
    rewrite stamped_idemp.
    assert (signed_for (type t) <$> (signed_for (type t) <$> amount t)
            = signed_for (type t) <$> amount t) as ->.
    { destruct (amount t); [|done]. cbn. by rewrite signed_for_idemp. }
    rewrite <- (pre_save_amount now t), <- (pre_save_stamped now t).
    by destruct (pre_save now t). }
  destruct (save_memory now' docs'' (set_isNew false (pre_save now t)))
    as [H|[H|H]]; rewrite H; [done|exact Hfix|].
  rewrite Hfix. reflexivity.
Qed.

Lemma save_again_changes_nothing_witness :
  let t := set_status "posted"
             (set__id (Some 5%N) (sample 7 "expense" 50 "Food" "lunch" 10)) in
  let t' := set_isNew false (set_postedDate (Some 1000) (set_amount (Some (-50)) t)) in
  save 1000 [] t = (t', inr [t'])
  ∧ (save 2000 [t'] t').1 = t'.
Proof.
  cbv zeta. split; [vm_compute; reflexivity|].
  apply (save_again_changes_nothing 1000 2000 []
           [set_isNew false (set_postedDate (Some 1000) (set_amount (Some (-50))
              (set_status "posted"
                (set__id (Some 5%N) (sample 7 "expense" 50 "Food" "lunch" 10)))))]
           _
           (set_status "posted"
              (set__id (Some 5%N) (sample 7 "expense" 50 "Food" "lunch" 10)))).
  vm_compute. reflexivity.
Defined.

(** X9. What the hooks change does not show in the amount as displayed:
    whatever the outcome of a save, the document it leaves has the
    absolute amount and the formatted amount it had before. *)
Theorem save_keeps_displayed_amount (now : Date) (docs : Collection)
    (t : Transaction) :
  absoluteAmount (save now docs t).1 = absoluteAmount t
  ∧ formattedAmount (save now docs t).1 = formattedAmount t.
Proof.
  assert (absoluteAmount (pre_save now t) = absoluteAmount t
          ∧ formattedAmount (pre_save now t) = formattedAmount t) as [Habs Hfmt].
  { assert (type (pre_save now t) = type t) as Htype.
    { by rewrite pre_save_unfold, normalize_amount_sign_type, set_posted_date_type. }
    assert (currency (pre_save now t) = currency t) as Hcur.
    { rewrite pre_save_frame. reflexivity. }
    unfold absoluteAmount, formattedAmount.
    rewrite Htype, Hcur, pre_save_amount.
    destruct (amount t) as [a|]; [|done]. cbn [fmap option_fmap option_map].
    assert (Z.abs (signed_for (type t) a) = Z.abs a) as Ha.
    { unfold signed_for. repeat case_bool_decide; lia. }
    split; [by rewrite Ha|].
    unfold formattedAmount_of, inject_Z, Qabs. by rewrite Ha. }
  destruct (save_memory now docs t) as [H|[H|H]]; rewrite H; done.
Qed.

(** X10. A save stores no document the schema refuses: when every stored
    document passes validation, so does every document stored after a
    successful save, the saved one among them. *)
Theorem save_stores_valid_documents (now : Date) (docs docs' : Collection)
    (t t' : Transaction) :
  Forall (λ d, validate d = []) docs →
  save now docs t = (t', inr docs') →
  validate t' = [] ∧ t' ∈ docs' ∧ Forall (λ d, validate d = []) docs'.
Proof.
  intros Hdocs Hs.
  pose proof (save_inr_memory _ _ _ _ _ Hs) as Ht'.
  pose proof (save_inr _ _ _ _ _ Hs) as (Hv & Hin & _).
  assert (validate t' = []) as Hv'.
  { by rewrite Ht', validate_set_isNew, validate_pre_save. }
  split_and!; [done|done|].
  revert Hs. unfold save. rewrite Hv.
  destruct (_id (pre_save now t)); [|done].
  destruct (isNew (pre_save now t)).
  - destruct (insertOne _ _) as [?|ds] eqn:Hins; [done|].
    intros [= <- <-]. apply insertOne_inr in Hins as ->.
    apply Forall_app. split; [done|]. by apply Forall_singleton.
  - destruct (updateOne _ _) as [?|ds] eqn:Hupd; [done|].
    intros [= <- <-]. apply updateOne_inr in Hupd as [_ ->].
    apply Forall_fmap. eapply Forall_impl; [exact Hdocs|].
    intros d Hd. unfold compose. destruct (same_id _ d); [|done].
    by rewrite validate_pre_save.
Qed.

Lemma save_stores_valid_documents_witness :
  let t := set__id (Some 5%N) (sample 7 "expense" 50 "Food" "lunch" 10) in
  let t' := set_isNew false (set_amount (Some (-50)) t) in
  Forall (λ d, validate d = []) []
  ∧ save 1000 [] t = (t', inr [t'])
  ∧ validate t' = [] ∧ t' ∈ [t'] ∧ Forall (λ d, validate d = []) [t'].
Proof.
  cbv zeta. split; [apply Forall_nil_2|]. split; [vm_compute; reflexivity|].
  apply (save_stores_valid_documents 1000 []
           [set_isNew false (set_amount (Some (-50))
              (set__id (Some 5%N) (sample 7 "expense" 50 "Food" "lunch" 10)))]
           (set__id (Some 5%N) (sample 7 "expense" 50 "Food" "lunch" 10))).
  - apply Forall_nil_2.
  - vm_compute. reflexivity.
Defined.

(** ** The start date of the monthly trends *)

Section Window.

Implicit Types (now N n y m d : Z) (tz : TimeZone).

Lemma MakeDay_first_of_month y m d :
  MakeDay y m d = first_of_month (12 * y + m) + d - 1.
Proof.
  unfold MakeDay, first_of_month. cbv zeta.
  assert ((12 * y + m) / 12 = y + m / 12 ∧ (12 * y + m) mod 12 = m mod 12) as [-> ->]
    by (Z.div_mod_to_equations; lia).
  done.
Qed.

(** The local time [setMonth] makes of the local time [l] for the month
    [N] months before its own. *)
Lemma trends_start_unfold tz now N :
  trends_start tz now N
  = UTC tz ((first_of_month (12 * year_of (LocalTime tz now)
                             + (month_of (LocalTime tz now) - 1 - N))
             + day_of (LocalTime tz now) - 1) * msPerDay
            + TimeWithinDay (LocalTime tz now)).
Proof.
  unfold trends_start, setMonth, getMonth, MakeDate. cbv zeta.
  by rewrite MakeDay_first_of_month.
Qed.

Lemma civil_from_days_first_of_month z :
  first_of_month (12 * (civil_from_days z).1.1 + ((civil_from_days z).1.2 - 1))
  + (civil_from_days z).2 - 1 = z.
Proof.
  pose proof (civil_from_days_range z) as [Hm _].
  replace (12 * (civil_from_days z).1.1 + ((civil_from_days z).1.2 - 1))
    with (12 * (civil_from_days z).1.1 + (civil_from_days z).1.2 - 1) by lia.
  rewrite first_of_month_civil by done.
  pose proof (days_from_civil_day (civil_from_days z).1.1 (civil_from_days z).1.2
    (civil_from_days z).2) as Hd.
  rewrite days_from_civil_from_days in Hd. lia.
Qed.

(** With no month to go back the local time is the one it was. *)
Lemma local_time_same_month (l : Z) :
  (first_of_month (12 * year_of l + (month_of l - 1 - 0)) + day_of l - 1) * msPerDay
  + TimeWithinDay l = l.
Proof.
  rewrite Z.sub_0_r. unfold year_of, month_of, day_of.
  rewrite civil_from_days_first_of_month.
  unfold Day, TimeWithinDay, msPerDay.
  pose proof (Z.div_mod l 86400000). lia.
Qed.

(** A month has at least 28 days. *)
Lemma first_of_month_gap n : first_of_month n + 28 ≤ first_of_month (n + 1).
Proof.
  unfold first_of_month.
  assert (((n + 1) / 12 = n / 12 ∧ (n + 1) mod 12 = n mod 12 + 1
           ∧ 0 ≤ n mod 12 < 11)
          ∨ ((n + 1) / 12 = n / 12 + 1 ∧ (n + 1) mod 12 = 0 ∧ n mod 12 = 11))
    as [(-> & -> & Hm)|(-> & -> & ->)] by (Z.div_mod_to_equations; lia).
  - revert Hm. generalize (n mod 12), (n / 12). intros m y Hm.
    unfold days_from_civil. cbv zeta. calendar.
  - generalize (n / 12). intros y.
    unfold days_from_civil. cbv zeta. calendar.
Qed.

(** Another month back is at least 28 days back. *)
Lemma first_of_month_back n N N' :
  N < N' → first_of_month (n - N') + 28 ≤ first_of_month (n - N).
Proof.
  intros HN. pose proof (first_of_month_gap (n - N')).
  pose proof (first_of_month_mono (n - N' + 1) (n - N) ltac:(lia)). lia.
Qed.

End Window.

(** X11. The start date of getMonthlyTrends moves back as the number of
    months grows, in a time zone whose offset from UTC never exceeds a
    day and may change with the season. With 0 months the start date is
    the current local time read back as an instant: the current time,
    unless the clocks were set back within the hour and local time reads
    as its first passage. With one month or more it is before the current
    time; a larger number never gives a later start, so it never loses a
    transaction a smaller number finds. *)
Theorem trends_start_moves_back (tz : TimeZone) (now : Date) (N N' : Z) :
  (∀ t b, - msPerDay ≤ tz t b ≤ msPerDay) →
  trends_start tz now 0 = UTC tz (LocalTime tz now)
  ∧ (tz (LocalTime tz now) false = tz now true → trends_start tz now 0 = now)
  ∧ (0 < N → trends_start tz now N < now)
  ∧ (tz now true ≤ tz (LocalTime tz now) false → 0 ≤ N →
       trends_start tz now N ≤ now)
  ∧ (N ≤ N' → trends_start tz now N' ≤ trends_start tz now N)
  ∧ (N ≤ N' → ∀ userId t,
       dated_since userId (trends_start tz now N) t →
       dated_since userId (trends_start tz now N') t).
Proof.
  intros Hbound.
  assert (trends_start tz now 0 = UTC tz (LocalTime tz now)) as H0.
  { by rewrite trends_start_unfold, local_time_same_month. }
  assert (∀ a b, a < b → trends_start tz now b + 26 * msPerDay ≤ trends_start tz now a)
    as Hback.
  { intros a b Hab. rewrite !trends_start_unfold. unfold UTC.
    set (l := LocalTime tz now).
    pose proof (first_of_month_back (12 * year_of l + (month_of l - 1)) a b Hab) as Hle.
    replace (12 * year_of l + (month_of l - 1) - b)
      with (12 * year_of l + (month_of l - 1 - b)) in Hle by lia.
    replace (12 * year_of l + (month_of l - 1) - a)
      with (12 * year_of l + (month_of l - 1 - a)) in Hle by lia.
    revert Hle.
    generalize (first_of_month (12 * year_of l + (month_of l - 1 - b))).
    generalize (first_of_month (12 * year_of l + (month_of l - 1 - a))).
    intros fa fb Hle.
    pose proof (Hbound ((fb + day_of l - 1) * msPerDay + TimeWithinDay l) false).
    pose proof (Hbound ((fa + day_of l - 1) * msPerDay + TimeWithinDay l) false).
    unfold msPerDay in *. lia. }
  assert (∀ a b, a ≤ b → trends_start tz now b ≤ trends_start tz now a) as Hmono.
  { intros a b Hab. destruct (decide (a = b)) as [->|Hne]; [done|].
    pose proof (Hback a b ltac:(lia)). unfold msPerDay in *. lia. }
  split_and!; [done| | | |apply Hmono|].
  - intros Heq. rewrite H0. unfold UTC. rewrite Heq. unfold LocalTime. lia.
  - intros HN. pose proof (Hback 0 N HN) as Hlt. rewrite H0 in Hlt.
    pose proof (Hbound now true). pose proof (Hbound (LocalTime tz now) false).
    unfold UTC, LocalTime, msPerDay in *. lia.
  - intros Hle HN.
    assert (trends_start tz now 0 ≤ now) as Hz.
    { rewrite H0. unfold UTC, LocalTime in *. lia. }
    specialize (Hmono 0 N HN). lia.
  - intros HN userId t [Hu Hd]. split; [done|].
    unfold dated in *. destruct (date t) as [d|]; [|done].
    specialize (Hmono _ _ HN). lia.
Qed.

Lemma trends_start_moves_back_witness :
  let tz := central_europe_2024 in
  let now := summer_until + 1800000 in
  (∀ t b, - msPerDay ≤ tz t b ≤ msPerDay)
  ∧ trends_start tz now 0 = UTC tz (LocalTime tz now)
  ∧ (tz (LocalTime tz now) false = tz now true → trends_start tz now 0 = now)
  ∧ (0 < 1 → trends_start tz now 1 < now)
  ∧ (tz now true ≤ tz (LocalTime tz now) false → 0 ≤ 1 →
       trends_start tz now 1 ≤ now)
  ∧ (1 ≤ 3 → trends_start tz now 3 ≤ trends_start tz now 1)
  ∧ (1 ≤ 3 → ∀ userId t,
       dated_since userId (trends_start tz now 1) t →
       dated_since userId (trends_start tz now 3) t).
Proof.
  cbv zeta.
  assert (∀ t b, - msPerDay ≤ central_europe_2024 t b ≤ msPerDay) as Hbound.
  { intros t b. unfold central_europe_2024, msPerDay. destruct b; split_ifs; lia. }
  split; [exact Hbound|].
  apply (trends_start_moves_back central_europe_2024 (summer_until + 1800000) 1 3).
  exact Hbound.
Defined.

(** In the hour the clocks repeat, on 27 October 2024 at 01:30 UTC, the
    start date for 0 months is an hour before the current time; at noon
    it is the current time. For 3 months from 15 May, 12:00 UTC, it is
    15 February, 13:00 UTC: the same hour of the local day. *)
Example trends_start_examples :
  trends_start central_europe_2024 (summer_until + 1800000) 0
  = summer_until + 1800000 - 3600000
  ∧ trends_start central_europe_2024 1730030400000 0 = 1730030400000
  ∧ trends_start central_europe_2024 1715774400000 3 = 1708002000000.
Proof. vm_compute. done. Qed.

(** X12. The age of a transaction that has a date is the number of whole
    days from its date to the current time, rounded down: n exactly when
    the date lies at least n and less than n + 1 days back. So it is 0
    during the first day, and negative for a transaction dated after the
    current time. *)
Theorem age_whole_days (now d : Date) (t : Transaction) (n : Z) :
  date t = Some d →
  (age now t = Some n ↔ d + n * msPerDay ≤ now < d + (n + 1) * msPerDay)
  ∧ (∃ n', age now t = Some n')
  ∧ (d ≤ now < d + msPerDay → age now t = Some 0)
  ∧ (now < d → ∃ n', age now t = Some n' ∧ n' < 0).
Proof.
  intros Hd. unfold age, msPerDay. rewrite Hd. cbn [fmap option_fmap option_map].
  split_and!.
  - split.
    + intros [= <-]. Z.div_mod_to_equations. lia.
    + intros [Hlo Hhi]. f_equal. Z.div_mod_to_equations. lia.
  - eauto.
  - intros H. f_equal. Z.div_mod_to_equations. lia.
  - intros H. eexists. split; [done|]. Z.div_mod_to_equations. lia.
Qed.

Lemma age_whole_days_witness :
  let t := sample 7 "expense" (-50) "Food" "lunch" 1000 in
  date t = Some 1000
  ∧ (age (1000 + 3 * msPerDay + 5) t = Some 3 ↔
       1000 + 3 * msPerDay ≤ 1000 + 3 * msPerDay + 5 < 1000 + (3 + 1) * msPerDay)
  ∧ age (1000 + 3 * msPerDay + 5) t = Some 3.
Proof.
  cbv zeta.
  pose proof (age_whole_days (1000 + 3 * msPerDay + 5) 1000
                (sample 7 "expense" (-50) "Food" "lunch" 1000) 3) as H.
  split; [reflexivity|]. split; [apply H; reflexivity|].
  vm_compute. reflexivity.
Defined.

(** ** The month of the start date *)

Section MonthsBack.

Implicit Types (now N n y m d z : Z).

(** The month of a day, counted from year 0: the day lies in it. *)
Lemma civil_from_days_month z :
  let n := 12 * (civil_from_days z).1.1 + (civil_from_days z).1.2 - 1 in
  first_of_month n ≤ z < first_of_month (n + 1)
  ∧ z = first_of_month n + (civil_from_days z).2 - 1.
Proof.
  cbv zeta.
  pose proof (civil_from_days_range z) as [Hm Hd].
  pose proof (civil_from_days_first_of_month z) as Hz.
  replace (12 * (civil_from_days z).1.1 + ((civil_from_days z).1.2 - 1))
    with (12 * (civil_from_days z).1.1 + (civil_from_days z).1.2 - 1) in Hz by lia.
  pose proof (civil_from_days_next z) as Hnext.
  assert (first_of_month (12 * (civil_from_days z).1.1 + (civil_from_days z).1.2 - 1 + 1)
          = days_from_civil
              (if (civil_from_days z).1.2 =? 12 then (civil_from_days z).1.1 + 1
               else (civil_from_days z).1.1)
              (if (civil_from_days z).1.2 =? 12 then 1 else (civil_from_days z).1.2 + 1)
              1) as ->.
  { destruct (Z.eqb_spec (civil_from_days z).1.2 12) as [H12|H12].
    - rewrite <- first_of_month_civil by lia. f_equal. lia.
    - rewrite <- first_of_month_civil by lia. f_equal. lia. }
  lia.
Qed.

(** A day among the first 28 of a month has that month and that day of
    month as its date. *)
Lemma civil_from_days_in_month n d :
  1 ≤ d ≤ 28 →
  let z := first_of_month n + d - 1 in
  12 * (civil_from_days z).1.1 + (civil_from_days z).1.2 - 1 = n
  ∧ (civil_from_days z).2 = d.
Proof.
  intros Hd. cbv zeta.
  set (z := first_of_month n + d - 1).
  destruct (civil_from_days_month z) as [[Hlo Hhi] Hz].
  set (n' := 12 * (civil_from_days z).1.1 + (civil_from_days z).1.2 - 1) in *.
  pose proof (first_of_month_gap n) as Hgap.
  assert (n' = n) as Hn.
  { destruct (Z.lt_trichotomy n' n) as [Hlt|[Heq|Hgt]]; [|done|].
    - pose proof (first_of_month_mono (n' + 1) n ltac:(lia)). subst z. lia.
    - pose proof (first_of_month_mono (n + 1) n' ltac:(lia)). subst z. lia. }
  split; [done|]. rewrite Hn in Hz. subst z. lia.
Qed.

End MonthsBack.

(** X13. When the current day of the month, in local time, is at most
    28, the start date of getMonthlyTrends is made from the local time of
    the same day of the month and the same time of day, N calendar months
    before the current one; the offset of the zone may differ between the
    two dates. Where that local time is read back with the offset in
    force at the start date (it is not a time the clocks skip or repeat),
    it is the local time of the start date. (On a 29th, 30th or 31st the
    day may not exist N months back, and the start date then runs over
    into the month after.) *)
Theorem trends_start_same_day_months_back (tz : TimeZone) (now : Date) (N : Z) :
  day_of (LocalTime tz now) ≤ 28 →
  let l := LocalTime tz now in
  let start := trends_start tz now N in
  ∃ l' : Z,
    start = l' - tz l' false
    ∧ 12 * year_of l' + month_of l' = 12 * year_of l + month_of l - N
    ∧ day_of l' = day_of l
    ∧ TimeWithinDay l' = TimeWithinDay l
    ∧ (tz start true = tz l' false →
         12 * year_of (start + tz start true) + month_of (start + tz start true)
         = 12 * year_of l + month_of l - N
         ∧ day_of (start + tz start true) = day_of l
         ∧ TimeWithinDay (start + tz start true) = TimeWithinDay l).
Proof.
  intros Hday. cbv zeta. rewrite trends_start_unfold.
  set (l := LocalTime tz now) in *.
  set (n := 12 * year_of l + (month_of l - 1 - N)).
  assert (1 ≤ day_of l) as Hd1.
  { unfold day_of. apply civil_from_days_range. }
  assert (0 ≤ TimeWithinDay l < msPerDay) as Htod.
  { unfold TimeWithinDay, msPerDay. apply Z.mod_pos_bound. lia. }
  assert (Day ((first_of_month n + day_of l - 1) * msPerDay + TimeWithinDay l)
          = first_of_month n + day_of l - 1) as HDay.
  { unfold Day. revert Htod. unfold msPerDay. generalize (TimeWithinDay l).
    intros tod Htod. Z.div_mod_to_equations. lia. }
  assert (TimeWithinDay ((first_of_month n + day_of l - 1) * msPerDay + TimeWithinDay l)
          = TimeWithinDay l) as HTime.
  { revert Htod. generalize (TimeWithinDay l). intros tod Htod.
    unfold TimeWithinDay. rewrite Z.add_comm, Z.mod_add by done.
    by apply Z.mod_small. }
  destruct (civil_from_days_in_month n (day_of l)) as [Hn Hd]; [lia|].
  revert HDay HTime.
  generalize ((first_of_month n + day_of l - 1) * msPerDay + TimeWithinDay l).
  intros x HDay HTime.
  assert (12 * year_of x + month_of x = 12 * year_of l + month_of l - N
          ∧ day_of x = day_of l) as [Hmonth Hdom].
  { change (year_of x) with (civil_from_days (Day x)).1.1.
    change (month_of x) with (civil_from_days (Day x)).1.2.
    change (day_of x) with (civil_from_days (Day x)).2.
    rewrite HDay. split; [|exact Hd]. subst n. lia. }
  exists x. unfold UTC. split_and!; [done..|].
  intros ->. replace (x - tz x false + tz x false) with x by lia. done.
Qed.

Lemma trends_start_same_day_months_back_witness :
  let tz := central_europe_2024 in
  let now := 1715774400000 in
  let l := LocalTime tz now in
  let start := trends_start tz now 3 in
  day_of (LocalTime tz now) ≤ 28
  ∧ ∃ l' : Z,
      start = l' - tz l' false
      ∧ 12 * year_of l' + month_of l' = 12 * year_of l + month_of l - 3
      ∧ day_of l' = day_of l
      ∧ TimeWithinDay l' = TimeWithinDay l
      ∧ (tz start true = tz l' false →
           12 * year_of (start + tz start true) + month_of (start + tz start true)
           = 12 * year_of l + month_of l - 3
           ∧ day_of (start + tz start true) = day_of l
           ∧ TimeWithinDay (start + tz start true) = TimeWithinDay l).
Proof.
  cbv zeta. split; [vm_compute; discriminate|].
  apply (trends_start_same_day_months_back central_europe_2024 1715774400000 3).
  vm_compute. discriminate.
Defined.

(** ** Stored form *)

Section StoredForm.

Implicit Types (t : Transaction) (s : string).

Lemma upper_char_idemp c : Js.upper_char (Js.upper_char c) = Js.upper_char c.
Proof. destruct c as [[] [] [] [] [] [] [] []]; reflexivity. Qed.

Lemma toUpperCase_idemp s : Js.toUpperCase (Js.toUpperCase s) = Js.toUpperCase s.
Proof.
  induction s as [|c r IH]; [done|].
  cbn. f_equal; [apply upper_char_idemp|exact IH].
Qed.

Lemma trimStart_idemp s : Js.trimStart (Js.trimStart s) = Js.trimStart s.
Proof.
  induction s as [|c r IH]; [done|]. cbn.
  destruct (Js.is_space c) eqn:Hc; [done|]. cbn. by rewrite Hc.
Qed.

(** What is left of a string trimmed at the start does not begin with
    white space. *)
Lemma trimStart_head s c r : Js.trimStart s = String c r → Js.is_space c = false.
Proof.
  induction s as [|c' r' IH]; [done|]. cbn.
  destruct (Js.is_space c') eqn:Hc; [done|]. by intros [= <- <-].
Qed.

(** Trimming the end leaves a trimmed start trimmed. *)
Lemma trimStart_trimEnd s :
  Js.trimStart s = s → Js.trimStart (Js.trimEnd s) = Js.trimEnd s.
Proof.
  destruct s as [|c r]; [done|]. intros Hs.
  apply trimStart_head in Hs as Hc. cbn.
  destruct (Js.trimEnd r); cbn; rewrite ?Hc; cbn; by rewrite ?Hc.
Qed.

Lemma trim_idemp s : Js.trim (Js.trim s) = Js.trim s.
Proof.
  unfold Js.trim.
  rewrite (trimStart_trimEnd (Js.trimStart s)) by apply trimStart_idemp.
  apply trimEnd_idemp.
Qed.

Lemma tag_setter_idemp s : tag_setter (tag_setter s) = tag_setter s.
Proof.
  unfold tag_setter.
  by rewrite trim_toLowerCase, toLowerCase_idemp, trim_idemp.
Qed.

Lemma cast_category_idemp c : cast_category (cast_category c) = cast_category c.
Proof.
  unfold cast_category. cbn. f_equal.
  - destruct (primary c); cbn; [|done]. by rewrite trim_idemp.
  - destruct (secondary c); cbn; [|done]. by rewrite trim_idemp.
Qed.

Lemma cast_merchant_idemp m : cast_merchant (cast_merchant m) = cast_merchant m.
Proof.
  unfold cast_merchant. cbn. f_equal.
  destruct (merchant_name m); cbn; [|done]. by rewrite trim_idemp.
Qed.

Lemma cast_recurring_idemp r : cast_recurring (cast_recurring r) = cast_recurring r.
Proof.
  unfold cast_recurring. cbn. f_equal.
  destruct (frequency r); cbn; [|done].
  unfold frequency_setter. by rewrite toLowerCase_idemp.
Qed.

(** A document whose values are fixed points of the setters is in stored
    form. *)
Lemma stored_form_intro t :
  Js.toUpperCase (currency t) = currency t →
  Js.toLowerCase <$> type t = type t →
  cast_category (category t) = category t →
  Js.trim <$> description t = description t →
  cast_merchant (merchant t) = merchant t →
  Js.toLowerCase (status t) = status t →
  tag_setter <$> tags t = tags t →
  Js.trim <$> notes t = notes t →
  cast_recurring (recurring t) = recurring t →
  stored_form t.
Proof.
  intros H1 H2 H3 H4 H5 H6 H7 H8 H9. unfold stored_form.
  destruct (cast_paths t) as (C1 & C2 & C3 & C4 & C5 & C6 & C7 & C8 & C9).
  rewrite (Transaction_eta (cast t)).
  rewrite C1, C2, C3, C4, C5, C6, C7, C8, C9, H1, H2, H3, H4, H5, H6, H7, H8, H9.
  rewrite (Transaction_eta t) at 26.
  reflexivity.
Qed.

End StoredForm.

Section StoredFormKept.

Implicit Types (t : Transaction) (s : string).

(** Stored form is a matter of the nine paths that have a setter. *)
Lemma stored_form_ext t t' :
  currency t' = currency t → type t' = type t → category t' = category t →
  description t' = description t → merchant t' = merchant t →
  status t' = status t → tags t' = tags t → notes t' = notes t →
  recurring t' = recurring t →
  stored_form t → stored_form t'.
Proof.
  intros E1 E2 E3 E4 E5 E6 E7 E8 E9 Hst.
  destruct (stored_form_paths t Hst) as (H1 & H2 & H3 & H4 & H5 & H6 & H7 & H8 & H9).
  apply stored_form_intro; congruence.
Qed.

Lemma cast_stored_form t : stored_form (cast t).
Proof.
  destruct (cast_paths t) as (C1 & C2 & C3 & C4 & C5 & C6 & C7 & C8 & C9).
  apply stored_form_intro.
  - by rewrite C1, toUpperCase_idemp.
  - rewrite C2. destruct (type t); cbn; [|done]. by rewrite toLowerCase_idemp.
  - by rewrite C3, cast_category_idemp.
  - rewrite C4. destruct (description t); cbn; [|done]. by rewrite trim_idemp.
  - by rewrite C5, cast_merchant_idemp.
  - by rewrite C6, toLowerCase_idemp.
  - rewrite C7, <- list_fmap_compose. apply list_fmap_ext.
    intros i x _. apply tag_setter_idemp.
  - rewrite C8. destruct (notes t); cbn; [|done]. by rewrite trim_idemp.
  - by rewrite C9, cast_recurring_idemp.
Qed.

Ltac project_path :=
  lazy beta iota zeta delta
    [construct duplicate snd set__id set_isNew set_date set_status
     set_description set_attachments set_notes set_isReconciled
     set_reconciliationDate
     currency type category description merchant status tags notes recurring];
  reflexivity.

(** The constructor adds nothing to what the cast stores in the paths
    that have a setter. *)
Lemma construct_paths (oid : ObjectId) (now : Date) (obj : Transaction) :
  currency (construct oid now obj) = currency (cast obj)
  ∧ type (construct oid now obj) = type (cast obj)
  ∧ category (construct oid now obj) = category (cast obj)
  ∧ description (construct oid now obj) = description (cast obj)
  ∧ merchant (construct oid now obj) = merchant (cast obj)
  ∧ status (construct oid now obj) = status (cast obj)
  ∧ tags (construct oid now obj) = tags (cast obj)
  ∧ notes (construct oid now obj) = notes (cast obj)
  ∧ recurring (construct oid now obj) = recurring (cast obj).
Proof. split_and!; project_path. Qed.

Lemma duplicate_paths (oid : ObjectId) (now : Date) t :
  currency (duplicate oid now t).2 = currency (construct oid now t)
  ∧ type (duplicate oid now t).2 = type (construct oid now t)
  ∧ category (duplicate oid now t).2 = category (construct oid now t)
  ∧ description (duplicate oid now t).2
    = Some (Js.trim ("Copy of " +:+ Js.template (description t)))
  ∧ merchant (duplicate oid now t).2 = merchant (construct oid now t)
  ∧ status (duplicate oid now t).2 = "pending"
  ∧ tags (duplicate oid now t).2 = tags (construct oid now t)
  ∧ notes (duplicate oid now t).2 = Some ""
  ∧ recurring (duplicate oid now t).2 = recurring (construct oid now t).
Proof. split_and!; project_path. Qed.

Lemma pre_save_stored_form now t : stored_form t → stored_form (pre_save now t).
Proof. apply (stored_form_ext t); by rewrite pre_save_frame. Qed.

Lemma save_stored_form now docs t : stored_form t → stored_form (save now docs t).1.
Proof.
  intros Hst.
  destruct (save_memory now docs t) as [H|[H|H]]; rewrite H; [done|..].
  - by apply pre_save_stored_form.
  - apply (stored_form_ext (pre_save now t)); [reflexivity..|].
    by apply pre_save_stored_form.
Qed.

End StoredFormKept.

(** X14. A document is made in stored form: what the constructor returns,
    and the copy that duplicate returns, have an upper-case currency, a
    lower-case type, status and frequency, trimmed primary and secondary
    categories, description, merchant name and notes, and trimmed
    lower-case tags, whatever the values they were made from: each of
    the ten values is the one its setter leaves. In the document the
    constructor returns they are the values of the object it was given,
    put through the setter. *)
Theorem made_in_stored_form (oid : ObjectId) (now : Date) (obj : Transaction) :
  let as_stored (t : Transaction) : Prop :=
    Js.toUpperCase (currency t) = currency t
    ∧ Js.toLowerCase <$> type t = type t
    ∧ Js.toLowerCase (status t) = status t
    ∧ Js.toLowerCase <$> frequency (recurring t) = frequency (recurring t)
    ∧ Js.trim <$> primary (category t) = primary (category t)
    ∧ Js.trim <$> secondary (category t) = secondary (category t)
    ∧ Js.trim <$> description t = description t
    ∧ Js.trim <$> merchant_name (merchant t) = merchant_name (merchant t)
    ∧ Js.trim <$> notes t = notes t
    ∧ (λ s, Js.toLowerCase (Js.trim s)) <$> tags t = tags t in
  let c := construct oid now obj in
  stored_form c
  ∧ stored_form (duplicate oid now obj).2
  ∧ as_stored c
  ∧ as_stored (duplicate oid now obj).2
  ∧ currency c = Js.toUpperCase (currency obj)
  ∧ type c = Js.toLowerCase <$> type obj
  ∧ status c = Js.toLowerCase (status obj)
  ∧ frequency (recurring c) = Js.toLowerCase <$> frequency (recurring obj)
  ∧ primary (category c) = Js.trim <$> primary (category obj)
  ∧ secondary (category c) = Js.trim <$> secondary (category obj)
  ∧ description c = Js.trim <$> description obj
  ∧ merchant_name (merchant c) = Js.trim <$> merchant_name (merchant obj)
  ∧ notes c = Js.trim <$> notes obj
  ∧ tags c = (λ s, Js.toLowerCase (Js.trim s)) <$> tags obj.
Proof.
  cbv zeta.
  destruct (construct_paths oid now obj) as (E1 & E2 & E3 & E4 & E5 & E6 & E7 & E8 & E9).
  destruct (duplicate_paths oid now obj) as (D1 & D2 & D3 & D4 & D5 & D6 & D7 & D8 & D9).
  pose proof (cast_stored_form obj) as Hcast.
  assert (stored_form (construct oid now obj)) as Hc
    by (by apply (stored_form_ext (cast obj))).
  assert (stored_form (duplicate oid now obj).2) as Hd.
  { pose proof (stored_form_paths _ Hc) as (H1 & H2 & H3 & H4 & H5 & H6 & H7 & H8 & H9).
    apply stored_form_intro.
    - by rewrite D1.
    - by rewrite D2.
    - by rewrite D3.
    - rewrite D4. cbn [fmap option_fmap option_map]. by rewrite trim_idemp.
    - by rewrite D5.
    - by rewrite D6.
    - by rewrite D7.
    - by rewrite D8.
    - by rewrite D9. }
  assert (∀ t, stored_form t →
            Js.toUpperCase (currency t) = currency t
            ∧ Js.toLowerCase <$> type t = type t
            ∧ Js.toLowerCase (status t) = status t
            ∧ Js.toLowerCase <$> frequency (recurring t) = frequency (recurring t)
            ∧ Js.trim <$> primary (category t) = primary (category t)
            ∧ Js.trim <$> secondary (category t) = secondary (category t)
            ∧ Js.trim <$> description t = description t
            ∧ Js.trim <$> merchant_name (merchant t) = merchant_name (merchant t)
            ∧ Js.trim <$> notes t = notes t
            ∧ (λ s, Js.toLowerCase (Js.trim s)) <$> tags t = tags t) as Hpaths.
  { intros t Hst.
    pose proof (stored_form_paths _ Hst) as (H1 & H2 & H3 & H4 & H5 & H6 & H7 & H8 & H9).
    split_and!; [exact H1|exact H2|exact H6| | | |exact H4| |exact H8|exact H7].
    - apply (f_equal frequency) in H9. exact H9.
    - apply (f_equal primary) in H3. exact H3.
    - apply (f_equal secondary) in H3. exact H3.
    - apply (f_equal merchant_name) in H5. exact H5. }
  destruct (cast_paths obj) as (C1 & C2 & C3 & C4 & C5 & C6 & C7 & C8 & C9).
  split; [exact Hc|]. split; [exact Hd|].
  split; [apply Hpaths; exact Hc|]. split; [apply Hpaths; exact Hd|].
  split_and!.
  - rewrite E1. exact C1.
  - rewrite E2. exact C2.
  - rewrite E6. exact C6.
  - rewrite E9, C9. reflexivity.
  - rewrite E3, C3. reflexivity.
  - rewrite E3, C3. reflexivity.
  - rewrite E4. exact C4.
  - rewrite E5, C5. reflexivity.
  - rewrite E8. exact C8.
  - rewrite E7. exact C7.
Qed.

(** X15. Stored form is kept: a save, addTag, removeTag and markReconciled
    leave a document in stored form in stored form, whatever their
    outcome. *)
Theorem methods_keep_stored_form (now : Date) (docs : Collection)
    (s : string) (t : Transaction) :
  stored_form t →
  stored_form (save now docs t).1
  ∧ stored_form (addTag now docs s t).1
  ∧ stored_form (removeTag now docs s t).1
  ∧ stored_form (markReconciled now docs t).1.
Proof.
  intros Hst.
  pose proof (stored_form_paths t Hst) as (H1 & H2 & H3 & H4 & H5 & H6 & H7 & H8 & H9).
  split_and!.
  - by apply save_stored_form.
  - rewrite addTag_unfold. apply save_stored_form.
    apply stored_form_intro; try (unfold add_tag; case_bool_decide; assumption).
    rewrite add_tag_tags. case_bool_decide; [done|].
    rewrite fmap_app, H7. cbn. f_equal. f_equal.
    rewrite <- tag_setter_toLowerCase. apply tag_setter_idemp.
  - rewrite removeTag_unfold. apply save_stored_form.
    apply stored_form_intro; try assumption.
    rewrite remove_tag_tags, <- list_fmap_compose. apply list_fmap_ext.
    intros i x _. apply tag_setter_idemp.
  - apply save_stored_form.
    apply (stored_form_ext t); [reflexivity..|exact Hst].
Qed.

Lemma methods_keep_stored_form_witness :
  let t := set_tags ["rent"] (sample 7 "expense" (-50) "Food" "lunch" 10) in
  stored_form t
  ∧ stored_form (save 1000 [] t).1
  ∧ stored_form (addTag 1000 [] " Food" t).1
  ∧ stored_form (removeTag 1000 [] " Food" t).1
  ∧ stored_form (markReconciled 1000 [] t).1.
Proof.
  cbv zeta. split; [vm_compute; reflexivity|].
  apply (methods_keep_stored_form 1000 [] " Food"
           (set_tags ["rent"] (sample 7 "expense" (-50) "Food" "lunch" 10))).
  vm_compute. reflexivity.
Defined.

(** ** Validation reads thirteen paths *)

Section ValidatedPaths.

Implicit Types (t : Transaction).

Ltac same_paths :=
  repeat constructor;
  cbn [v_passes v_message required enum maxlength interval_min amount_not_zero];
  congruence.

(** Two documents that agree on the validated paths have the same
    validation outcome. *)
Lemma validate_ext t t' :
  user t' = user t → account t' = account t → amount t' = amount t →
  currency t' = currency t → type t' = type t → category t' = category t →
  description t' = description t → merchant t' = merchant t →
  date t' = date t → status t' = status t → notes t' = notes t →
  recurring t' = recurring t →
  validate t' = validate t.
Proof.
  intros E1 E2 E3 E4 E5 E6 E7 E8 E9 E10 E11 E12.
  unfold validate. apply omap_ext_in. intros sp Hsp.
  apply validate_path_ext.
  unfold schema_paths in Hsp.
  rewrite !elem_of_cons, elem_of_nil in Hsp.
  destruct_or!; try done; subst sp; same_paths.
Qed.

End ValidatedPaths.

(** ** Marking as reconciled *)

(** X16. markReconciled marks the document whatever comes of the save: the
    document the call leaves is reconciled, with the time of the call as
    its reconciliation date. When the save succeeds, that document is in
    the collection; when the document does not pass validation, the call
    fails with the validation errors of the document and nothing is
    written, the mark staying in memory only. *)
Theorem markReconciled_marks (now : Date) (docs : Collection) (t : Transaction) :
  let r := markReconciled now docs t in
  isReconciled r.1 = true
  ∧ reconciliationDate r.1 = Some now
  ∧ (∀ docs', r.2 = inr docs' → r.1 ∈ docs')
  ∧ (validate t ≠ [] → r.2 = inl (ValidationError (validate t))).
Proof.
  cbv zeta. unfold markReconciled.
  set (m := set_reconciliationDate (Some now) (set_isReconciled true t)).
  assert (isReconciled m = true ∧ reconciliationDate m = Some now) as [Hm1 Hm2]
    by done.
  assert (validate m = validate t) as Hv by (by apply validate_ext).
  assert (isReconciled (pre_save now m) = isReconciled m
          ∧ reconciliationDate (pre_save now m) = reconciliationDate m) as [Hp1 Hp2].
  { by rewrite pre_save_frame. }
  clearbody m. split_and!.
  - destruct (save_memory now docs m) as [H|[H|H]]; rewrite H; [done|congruence|].
    cbn [isReconciled set_isNew]. congruence.
  - destruct (save_memory now docs m) as [H|[H|H]]; rewrite H; [done|congruence|].
    cbn [reconciliationDate set_isNew]. congruence.
  - intros docs' Hr. destruct (save now docs m) as [t' r] eqn:Hs.
    cbn [fst snd] in *. subst r. by apply save_inr in Hs as (_ & ? & _).
  - intros Hne. rewrite save_invalid by congruence. cbn [snd]. by rewrite Hv.
Qed.

(** ** The copy that duplicate returns *)

Section Copy.

Implicit Types (t : Transaction) (now : Date).

Ltac project_plain :=
  lazy beta iota zeta delta
    [duplicate construct cast snd set__id set_isNew set_date set_status
     set_description set_attachments set_notes set_isReconciled
     set_reconciliationDate set_recurring set_tags set_merchant set_category
     set_type set_currency
     _id isNew user account amount date];
  reflexivity.

(** The paths without a setter that validation and the save read. *)
Lemma duplicate_plain_paths (oid : ObjectId) now t :
  _id (duplicate oid now t).2 = Some oid
  ∧ isNew (duplicate oid now t).2 = true
  ∧ user (duplicate oid now t).2 = user t
  ∧ account (duplicate oid now t).2 = account t
  ∧ amount (duplicate oid now t).2 = amount t
  ∧ date (duplicate oid now t).2 = Some now.
Proof. split_and!; project_plain. Qed.

(** The paths with a setter, on the copy of a document in stored form. *)
Lemma duplicate_stored_paths (oid : ObjectId) now t :
  stored_form t →
  currency (duplicate oid now t).2 = currency t
  ∧ type (duplicate oid now t).2 = type t
  ∧ category (duplicate oid now t).2 = category t
  ∧ merchant (duplicate oid now t).2 = merchant t
  ∧ recurring (duplicate oid now t).2 = recurring t.
Proof.
  intros Hst.
  destruct (duplicate_paths oid now t) as (D1 & D2 & D3 & _ & D5 & _ & _ & _ & D9).
  destruct (construct_paths oid now t) as (E1 & E2 & E3 & _ & E5 & _ & _ & _ & E9).
  destruct (cast_paths t) as (C1 & C2 & C3 & _ & C5 & _ & _ & _ & C9).
  destruct (stored_form_paths t Hst) as (H1 & H2 & H3 & _ & H5 & _ & _ & _ & H9).
  split_and!; congruence.
Qed.

Lemma validate_nil_paths_iff t :
  validate t = [] ↔ Forall (λ sp, validate_path t sp = None) schema_paths.
Proof.
  rewrite validate_nil_iff. apply Forall_iff. intros sp.
  by rewrite validate_path_None_iff.
Qed.

End Copy.

(** X17. The copy that duplicate returns is a new document with an
    identity of its own, the ObjectId made for it. Saving it fails with
    the validation errors of the copy when it has any; when it has none
    and no stored document has its identity, the save inserts it after
    the stored documents, which it leaves as they are, the original
    among them. *)
Theorem duplicate_is_saved_as_new_document (oid : ObjectId) (now now' : Date)
    (docs : Collection) (t : Transaction) :
  let copy := (duplicate oid now t).2 in
  _id copy = Some oid
  ∧ isNew copy = true
  ∧ (validate copy ≠ [] →
       save now' docs copy = (copy, inl (ValidationError (validate copy))))
  ∧ (validate copy = [] → (∀ d, d ∈ docs → _id d ≠ Some oid) →
       ∃ stored,
         save now' docs copy = (stored, inr (docs ++ [stored]))
         ∧ _id stored = Some oid
         ∧ isNew stored = false
         ∧ user stored = user t
         ∧ account stored = account t
         ∧ description stored = description copy
         ∧ amount stored = signed_for (type copy) <$> amount t).
Proof.
  cbv zeta.
  destruct (duplicate_plain_paths oid now t) as (Hid & Hnew & Hu & Hacc & Ham & _).
  revert Hid Hnew Hu Hacc Ham. generalize (duplicate oid now t).2.
  intros copy Hid Hnew Hu Hacc Ham.
  split_and!; [exact Hid|exact Hnew|by apply save_invalid|].
  intros Hv Hfresh.
  exists (set_isNew false (pre_save now' copy)).
  split; [by apply (save_new_fresh now' docs copy oid)|].
  rewrite !pre_save_frame. cbn [_id isNew user account description amount set_isNew
    set_postedDate set_amount].
  rewrite Ham. done.
Qed.

(** A stored expense and its copy: the save of the copy adds a second
    document. *)
Example duplicate_saved_example :
  let t := set_isNew false (set__id (Some 5%N) (sample 7 "expense" (-50) "Food" "lunch" 10)) in
  let copy := (duplicate 9%N 1000 t).2 in
  ∃ stored, save 2000 [t] copy = (stored, inr [t; stored])
            ∧ _id stored = Some 9%N
            ∧ description stored = Some "Copy of lunch".
Proof. cbv zeta. eexists. split; [vm_compute; reflexivity|]. split; reflexivity. Qed.

(** X18. The copy of a valid document in stored form is valid exactly when
    the description of the document has at most 192 characters: the
    "Copy of " put before it takes 8 of the 200 the schema allows. *)
Theorem duplicate_valid_iff (oid : ObjectId) (now : Date) (t : Transaction) :
  stored_form t → validate t = [] →
  (validate (duplicate oid now t).2 = [] ↔ at_most 192 (description t)).
Proof.
  intros Hst Hv.
  destruct (duplicate_plain_paths oid now t) as (_ & _ & P1 & P2 & P3 & P4).
  destruct (duplicate_stored_paths oid now t Hst) as (S1 & S2 & S3 & S4 & S5).
  destruct (duplicate_paths oid now t) as (_ & _ & _ & D4 & _ & D6 & _ & D8 & _).
  destruct (stored_form_paths t Hst) as (_ & _ & _ & H4 & _).
  assert (present_string (description t) = true) as Hreq.
  { apply (valid_passes t description_path
             (required (λ t, present_string (description t)) "Description is required"));
      [done| |apply list_elem_of_here].
    do 6 apply list_elem_of_further. apply list_elem_of_here. }
  destruct (description t) as [d|] eqn:Hd; [|done].
  assert (d ≠ "") as Hne.
  { cbn in Hreq. apply negb_true_iff, bool_decide_eq_false in Hreq. done. }
  assert (Js.trim d = d) as Htrim by (by injection H4).
  assert (description (duplicate oid now t).2 = Some ("Copy of " +:+ d)) as D4'.
  { rewrite D4. cbn [Js.template]. by rewrite trim_copy_of. }
  clear D4 H4.
  revert P1 P2 P3 P4 S1 S2 S3 S4 S5 D4' D6 D8.
  generalize (duplicate oid now t).2. intros c P1 P2 P3 P4 S1 S2 S3 S4 S5 D4 D6 D8.
  assert (∀ sp, sp ∈ schema_paths →
            sp = description_path ∨ validate_path c sp = None) as Hother.
  { intros sp Hsp. pose proof (validate_nil_path t sp Hv Hsp) as Ht.
    unfold schema_paths in Hsp.
    rewrite !elem_of_cons, elem_of_nil in Hsp.
    destruct_or!; try done; subst sp;
      first
        [ by left
        | right; rewrite <- Ht; apply validate_path_ext; repeat constructor;
          cbn [v_passes v_message required enum maxlength interval_min
               amount_not_zero]; congruence
        | right; unfold validate_path, date_path, status_path, notes_path;
          cbn [sp_validators sp_path List.find v_passes required enum maxlength];
          rewrite ?P4, ?D6, ?D8; reflexivity ]. }
  assert (validate_path c description_path = None ↔ at_most 192 (Some d)) as Hdescr.
  { rewrite validate_path_None_iff. unfold description_path. cbn [sp_validators].
    rewrite !Forall_cons, Forall_nil.
    cbn [v_passes required maxlength]. rewrite D4.
    cbn [present_string when_present at_most].
    rewrite Nat.leb_le, length_append.
    assert (bool_decide ("Copy of " +:+ d = "") = false) as -> by done.
    cbn [negb String.length]. lia. }
  rewrite validate_nil_paths_iff, <- Hdescr. split.
  - intros Hall. eapply Forall_forall in Hall; [exact Hall|].
    do 6 apply list_elem_of_further. apply list_elem_of_here.
  - intros Hc. apply Forall_forall. intros sp Hsp.
    by destruct (Hother sp Hsp) as [->|?].
Qed.

Lemma duplicate_valid_iff_witness :
  let t := sample 7 "expense" (-50) "Food" "lunch" 10 in
  stored_form t ∧ validate t = []
  ∧ (validate (duplicate 9%N 1000 t).2 = [] ↔ at_most 192 (description t)).
Proof.
  cbv zeta. split; [vm_compute; reflexivity|]. split; [vm_compute; reflexivity|].
  apply (duplicate_valid_iff 9%N 1000 (sample 7 "expense" (-50) "Food" "lunch" 10));
    vm_compute; reflexivity.
Defined.

(** ** Adding a tag and removing it *)

Section TrimLength.

Implicit Types (s : string).

Lemma toLowerCase_length s : String.length (Js.toLowerCase s) = String.length s.
Proof. induction s as [|c r IH]; [done|]. cbn. by rewrite <- IH. Qed.

Lemma trimStart_shorter s :
  Js.trimStart s = s ∨ (String.length (Js.trimStart s) < String.length s)%nat.
Proof.
  induction s as [|c r IH]; [by left|]. cbn.
  destruct (Js.is_space c); [|by left]. right. destruct IH as [->|?]; lia.
Qed.

Lemma trimEnd_shorter s :
  Js.trimEnd s = s ∨ (String.length (Js.trimEnd s) < String.length s)%nat.
Proof.
  induction s as [|c r IH]; [by left|]. cbn.
  destruct (Js.trimEnd r) as [|c' r'] eqn:Hr.
  - destruct (Js.is_space c).
    + right. cbn. lia.
    + destruct IH as [<-|Hlt]; [by left|]. right. cbn in *. lia.
  - destruct IH as [<-|Hlt]; [by left|]. right. cbn in *. lia.
Qed.

(** Trimming leaves a string as it is or makes it shorter. *)
Lemma trim_shorter s :
  Js.trim s = s ∨ (String.length (Js.trim s) < String.length s)%nat.
Proof.
  unfold Js.trim.
  destruct (trimStart_shorter s) as [->|Hs]; [apply trimEnd_shorter|].
  right. destruct (trimEnd_shorter (Js.trimStart s)) as [->|?]; lia.
Qed.

Lemma toLowerCase_trim_eq s :
  Js.toLowerCase (Js.trim s) = Js.toLowerCase s ↔ Js.trim s = s.
Proof.
  split; [|by intros ->]. intros Heq.
  destruct (trim_shorter s) as [?|Hlt]; [done|].
  apply (f_equal String.length) in Heq. rewrite !toLowerCase_length in Heq. lia.
Qed.

End TrimLength.

(** X19. removeTag undoes addTag only for a text without white space around
    it. On a record whose tags are in stored form and do not hold the
    lowercased text, adding the text and then removing it gives back the
    tags as they were when trimming leaves the text as it is; for a text
    with white space around it the tag that was added, trimmed, stays. *)
Theorem addTag_then_removeTag (now now' : Date) (docs docs' : Collection)
    (s : string) (t : Transaction) :
  (∀ x, x ∈ tags t → tag_setter x = x) →
  Js.toLowerCase s ∉ tags t →
  tags (removeTag now' docs' s (addTag now docs s t).1).1
  = if decide (Js.trim s = s) then tags t
    else tags t ++ [Js.toLowerCase (Js.trim s)].
Proof.
  intros Hstored Hnew.
  rewrite removeTag_unfold, save_tags, remove_tag_tags.
  rewrite addTag_unfold, save_tags, add_tag_tags.
  rewrite bool_decide_eq_false_2 by done.
  rewrite filter_app, fmap_app.
  rewrite (filter_fixed _ (tags t)) by (intros x Hx ->; done).
  rewrite (fmap_fixed _ (tags t)) by done.
  destruct (decide (Js.trim s = s)) as [Htrim|Htrim].
  - rewrite Htrim, filter_cons_False, filter_nil by (by intros []).
    by rewrite app_nil_r.
  - rewrite filter_cons_True, filter_nil
      by (intros Heq; by apply Htrim, toLowerCase_trim_eq).
    do 2 f_equal. cbn.
    by rewrite <- tag_setter_toLowerCase, tag_setter_idemp.
Qed.

Lemma addTag_then_removeTag_witness :
  let t := set_tags ["rent"] (sample 7 "expense" (-50) "Food" "lunch" 10) in
  (∀ x, x ∈ tags t → tag_setter x = x)
  ∧ (Js.toLowerCase " Food" ∉ tags t)
  ∧ tags (removeTag 2000 [] " Food" (addTag 1000 [] " Food" t).1).1
    = if decide (Js.trim " Food" = " Food") then tags t
      else tags t ++ [Js.toLowerCase (Js.trim " Food")].
Proof.
  cbv zeta.
  assert (∀ x, x ∈ tags (set_tags ["rent"] (sample 7 "expense" (-50) "Food" "lunch" 10)) →
               tag_setter x = x) as Hstored.
  { intros x Hx. apply list_elem_of_singleton in Hx as ->. reflexivity. }
  assert (Js.toLowerCase " Food"
          ∉ tags (set_tags ["rent"] (sample 7 "expense" (-50) "Food" "lunch" 10)))
    as Hnew.
  { intros Hin. apply list_elem_of_singleton in Hin. discriminate Hin. }
  split; [exact Hstored|]. split; [exact Hnew|].
  exact (addTag_then_removeTag 1000 2000 [] [] " Food"
           (set_tags ["rent"] (sample 7 "expense" (-50) "Food" "lunch" 10))
           Hstored Hnew).
Defined.

(** ** The report and the listing *)

(** X20. The spending report agrees with the listing of the same range: the
    counts of the rows of getSpendingByCategory add up to the number of
    expenses that findByUserAndDateRange lists, and their totals to the
    sum of the absolute amounts of those expenses. *)
Theorem spending_agrees_with_listing (docs : Collection) (userId : ObjectId)
    (startDate endDate : Date) :
  let rows := getSpendingByCategory docs userId startDate endDate in
  let listed := filter (λ t, type t = Some "expense")
                  (findByUserAndDateRange docs userId startDate endDate) in
  Zsum (spend_count <$> rows) = Z.of_nat (length listed)
  ∧ Zsum (spend_totalAmount <$> rows) = Zsum (abs_amount <$> listed).
Proof.
  cbv zeta.
  assert (filter (λ t, type t = Some "expense")
            (findByUserAndDateRange docs userId startDate endDate)
          ≡ₚ spending_matched docs userId startDate endDate) as Hperm.
  { unfold findByUserAndDateRange. rewrite merge_sort_Permutation.
    rewrite list_filter_filter. unfold spending_matched.
    erewrite list_filter_iff; [done|]. intros t. cbn beta.
    rewrite range_match_spec, spending_match_spec.
    unfold in_window, expense_in_range. tauto. }
  rewrite (Permutation_length Hperm).
  rewrite (Zsum_Permutation _ _ (fmap_Permutation abs_amount _ _ Hperm)).
  rewrite !(Zsum_Permutation _ _
    (fmap_Permutation _ _ _ (spending_rows_perm docs userId startDate endDate))).
  rewrite <- !list_fmap_compose. unfold spending_groups.
  rewrite (group_by_total spending_key (0, 0) spending_step snd (λ _, 1));
    [|done|done].
  rewrite (group_by_total spending_key (0, 0) spending_step fst abs_amount);
    [|done|done].
  split; [|done].
  generalize (spending_matched docs userId startDate endDate). intros ts.
  induction ts as [|t ts IH]; [done|].
  rewrite fmap_cons, Zsum_cons, IH. cbn [length]. lia.
Qed.
